(** * SQLAlchemy attribute tracking, evaluator and query builder: a shallow embedding

    The development follows the Python sources module by module:
    - [Py]          the fragment of Python values and exceptions the code manipulates;
    - [Attributes]  lib/sqlalchemy/attributes.py (PropHistory, CallableProp, AttributeManager);
    - [Evaluator]   lib/sqlalchemy/orm/evaluator.py (EvaluatorCompiler);
    - [Query]       lib/sqlalchemy/orm/query.py (generative builder, one(), update());
    - [Strategies]  lib/sqlalchemy/orm/strategies.py (DeferredColumnLoader).

    Definitions come first; the properties are stated and proved afterwards. *)

From stdpp Require Import gmap strings list.
From Stdlib Require Import ZArith Lia.

Local Open Scope Z_scope.

(* ===================================================================== *)
(** * Python values, exceptions and the state-and-exception monad          *)
(* ===================================================================== *)

Module Py.

(** The values stored in instance dictionaries and produced by evaluators. *)
#[warnings="-register-all"]
Inductive value : Type :=
| VNone
| VBool (b : bool)
| VInt (n : Z)
| VStr (s : string)
| VList (items : list value).

(** [isinstance(value, list)] *)
Definition isinstance_list (v : value) : bool :=
  match v with VList _ => true | _ => false end.

(** [value is None] *)
Definition is_None (v : value) : bool :=
  match v with VNone => true | _ => false end.

(** Truth value testing, as done by [if value:] and [not value]. *)
Definition truthy (v : value) : bool :=
  match v with
  | VNone => false
  | VBool b => b
  | VInt n => negb (n =? 0)
  | VStr s => negb (bool_decide (s = ""%string))
  | VList l => match l with [] => false | _ => true end
  end.

(** Numeric reading of a value for [==]: booleans are the integers 0 and 1. *)
Definition as_number (v : value) : option Z :=
  match v with
  | VBool b => Some (if b then 1 else 0)
  | VInt n => Some n
  | _ => None
  end.

(** [a == b] on values. *)
Fixpoint py_eq (a b : value) : bool :=
  match a, b with
  | VNone, VNone => true
  | VStr s, VStr t => bool_decide (s = t)
  | VList l, VList m =>
      (fix eq_items (l m : list value) : bool :=
         match l, m with
         | [], [] => true
         | x :: l', y :: m' => py_eq x y && eq_items l' m'
         | _, _ => false
         end) l m
  | _, _ =>
      match as_number a, as_number b with
      | Some x, Some y => x =? y
      | _, _ => false
      end
  end.

(** [x is not None], for an attribute that holds [None] or an object;
    the objects concerned (clause elements, statements, selectables) have
    no truth value of their own, so this is also [if x:]. *)
Definition not_None {A : Type} (x : option A) : bool :=
  match x with Some _ => true | None => false end.

(** The exceptions that the modelled code raises or lets through. *)
Inductive exn : Type :=
| NameError (name : string)
| UnboundLocalError (name : string)
| AttributeError (name : string)
| KeyError (key : string)
| IndexError
| TypeError
| ZeroDivisionError
| StringException (msg : string)
| UnevaluatableError
| InvalidRequestError
| ArgumentError
| NoResultFound
| MultipleResultsFound.

Definition is_KeyError (e : exn) : bool :=
  match e with KeyError _ => true | _ => false end.

Definition is_UnevaluatableError (e : exn) : bool :=
  match e with UnevaluatableError => true | _ => false end.

(** A call either returns or raises. *)
Inductive result (A : Type) : Type :=
| Ok (a : A)
| Raise (e : exn).
Arguments Ok {A} a.
Arguments Raise {A} e.

Definition rbind {A B} (r : result A) (k : A -> result B) : result B :=
  match r with Ok a => k a | Raise e => Raise e end.

Definition is_Ok {A} (r : result A) : bool :=
  match r with Ok _ => true | Raise _ => false end.

(** Statements running against a mutable store [S]: the store survives an
    exception, as Python's heap does. *)
Definition M (S A : Type) : Type := S -> result A * S.

Definition ret {S A} (a : A) : M S A := fun s => (Ok a, s).
Definition raise {S A} (e : exn) : M S A := fun s => (Raise e, s).
Definition bind {S A B} (k : A -> M S B) (m : M S A) : M S B :=
  fun s => match m s with
           | (Ok a, s') => k a s'
           | (Raise e, s') => (Raise e, s')
           end.
#[global] Instance M_ret {S} : MRet (M S) := @ret S.
#[global] Instance M_bind {S} : MBind (M S) := @bind S.
Definition get {S} : M S S := fun s => (Ok s, s).
Definition put {S} (s : S) : M S unit := fun _ => (Ok tt, s).
Definition modify {S} (f : S -> S) : M S unit := fun s => (Ok tt, f s).

(** [try: body  except KeyError: handler] *)
Definition try_KeyError {S A} (body handler : M S A) : M S A :=
  fun s => match body s with
           | (Raise e, s') => if is_KeyError e then handler s' else (Raise e, s')
           | r => r
           end.

End Py.

Import Py.


(* ===================================================================== *)
(** * attributes.py                                                       *)
(* ===================================================================== *)

Module Attributes.

(** [PropHistory.NONE = object()] is a sentinel distinct from every value,
    [None] included: [orig] is either the sentinel or a stored value. *)
Inductive orig_t : Type :=
| NONE
| Orig (v : value).

(** [obj.__dict__.get(key, None)] *)
Definition dict_get (d : gmap string value) (key : string) : value :=
  default VNone (d !! key).

(** ** class PropHistory

    A tracker holds [obj], [key] and [orig]; [obj] is the instance whose
    [__dict__] the methods read and write, so each method takes the
    dictionary and returns the updated one. *)
Record PropHistory : Type := mkPropHistory {
  key : string;
  orig : orig_t
}.

(** [PropHistory.__init__]: [self.orig = PropHistory.NONE] *)
Definition PropHistory_init (k : string) : PropHistory :=
  {| key := k; orig := NONE |}.

(** [setattr_clean]: [self.obj.__dict__[self.key] = value] *)
Definition setattr_clean (self : PropHistory) (d : gmap string value) (v : value)
  : gmap string value :=
  <[key self := v]> d.

(** [getattr]: [return self.obj.__dict__[self.key]] *)
Definition getattr (self : PropHistory) (d : gmap string value) : result value :=
  match d !! key self with
  | Some v => Ok v
  | None => Raise (KeyError (key self))
  end.

(** [setattr]:
<<
    if isinstance(value, list):
        raise ("assigning a list to scalar property ...")
    self.orig = self.obj.__dict__.get(self.key, None)
    self.obj.__dict__[self.key] = value
>> *)
Definition setattr (self : PropHistory) (d : gmap string value) (v : value)
  : result (PropHistory * gmap string value) :=
  if isinstance_list v then
    Raise (StringException "assigning a list to scalar property")
  else
    Ok ({| key := key self; orig := Orig (dict_get d (key self)) |},
        <[key self := v]> d).

(** [delattr]:
<<
    self.orig = self.obj.__dict__.get(self.key, None)
    self.obj.__dict__[self.key] = None
>> *)
Definition delattr (self : PropHistory) (d : gmap string value)
  : PropHistory * gmap string value :=
  ({| key := key self; orig := Orig (dict_get d (key self)) |},
   <[key self := VNone]> d).

(** [rollback]:
<<
    if self.orig is not PropHistory.NONE:
        self.obj.__dict__[self.key] = self.orig
        self.orig = PropHistory.NONE
>> *)
Definition rollback (self : PropHistory) (d : gmap string value)
  : PropHistory * gmap string value :=
  match orig self with
  | NONE => (self, d)
  | Orig o => ({| key := key self; orig := NONE |}, <[key self := o]> d)
  end.

(** [commit]: [self.orig = PropHistory.NONE] *)
Definition commit (self : PropHistory) : PropHistory :=
  {| key := key self; orig := NONE |}.

(** [added_items], [deleted_items], [unchanged_items] *)
Definition added_items (self : PropHistory) (d : gmap string value)
  : result (list value) :=
  match orig self with
  | NONE => Ok []
  | Orig _ => rbind (getattr self d) (fun v => Ok [v])
  end.

Definition deleted_items (self : PropHistory) : list value :=
  match orig self with
  | NONE => []
  | Orig VNone => []
  | Orig o => [o]
  end.

Definition unchanged_items (self : PropHistory) (d : gmap string value)
  : result (list value) :=
  match orig self with
  | NONE => rbind (getattr self d) (fun v => Ok [v])
  | Orig _ => Ok []
  end.

(** A run of successive assignments [setattr(v1); ...; setattr(vn)]; the
    first one that raises ends the run. *)
Fixpoint setattr_seq (self : PropHistory) (d : gmap string value) (vs : list value)
  : result (PropHistory * gmap string value) :=
  match vs with
  | [] => Ok (self, d)
  | v :: vs' =>
      match setattr self d v with
      | Ok (self', d') => setattr_seq self' d' vs'
      | Raise e => Raise e
      end
  end.

(** ** class CallableProp and class AttributeManager

    The per-attribute state objects live in the instance's own side table
    [obj.__dict__['_managed_attributes']], keyed by attribute name.  The
    side table is kept in a field of its own: attribute names are distinct
    from the reserved key.  A [CallableProp] wraps a zero-argument callable;
    what a callable does when invoked is given by [run_callable], over the
    instance and an external state [E] (a database session, a probe).

    Only scalar attributes are modelled ([uselist] false): list-valued
    attributes go through [ListElement], which extends util.HistoryArraySet,
    outside this module. *)

Record CallableProp (C : Type) : Type := mkCallableProp {
  ckey : string;
  callable_ : C
}.
Arguments mkCallableProp {C} _ _.
Arguments ckey {C} _.
Arguments callable_ {C} _.

Inductive hist (C : Type) : Type :=
| HProp (p : PropHistory)
| HCallable (cp : CallableProp C).
Arguments HProp {C} p.
Arguments HCallable {C} cp.

Record instance (C : Type) : Type := mkInstance {
  __dict__ : gmap string value;
  _managed_attributes : option (gmap string (hist C))
}.
Arguments mkInstance {C} _ _.
Arguments __dict__ {C} _.
Arguments _managed_attributes {C} _.

(** What invoking a callable does: it returns or raises, and may have
    changed the instance and the external state. *)
Class CallableSem (C E : Type) : Type :=
  run_callable : C -> instance C -> E -> result value * instance C * E.

(** The store the manager's methods run against: one instance, the external
    state, and the log of callables invoked so far (a call-count probe). *)
Record world (C E : Type) : Type := mkWorld {
  obj : instance C;
  ext : E;
  invoked : list C
}.
Arguments mkWorld {C E} _ _ _.
Arguments obj {C E} _.
Arguments ext {C E} _.
Arguments invoked {C E} _.

(** What a dynamically dispatched [.getattr()] may hand back: the attribute
    value ([PropHistory.getattr]) or a tracker object ([CallableProp.getattr]). *)
Inductive getattr_result : Type :=
| Value (v : value)
| Tracker (p : PropHistory).

Section Manager.
Context {C E : Type} `{sem : CallableSem C E}.

Local Abbreviation W := (world C E).

(** [obj.__dict__[key] = value] *)
Definition dict_setitem (k : string) (v : value) : M W unit :=
  modify (fun w =>
    mkWorld (mkInstance (<[k := v]> (__dict__ (obj w)))
                        (_managed_attributes (obj w)))
            (ext w) (invoked w)).

(** [AttributeManager.attribute_history]:
<<
    try:
        attr = obj.__dict__['_managed_attributes']
    except KeyError:
        attr = {}
        obj.__dict__['_managed_attributes'] = attr
    return attr
>> *)
Definition attribute_history : M W (gmap string (hist C)) :=
  fun w =>
    match _managed_attributes (obj w) with
    | Some attr => (Ok attr, w)
    | None =>
        (Ok ∅, mkWorld (mkInstance (__dict__ (obj w)) (Some ∅)) (ext w) (invoked w))
    end.

(** [self.attribute_history(obj)[key] = h] *)
Definition history_setitem (k : string) (h : hist C) : M W unit :=
  attr ← attribute_history;
  modify (fun w =>
    mkWorld (mkInstance (__dict__ (obj w)) (Some (<[k := h]> attr)))
            (ext w) (invoked w)).

(** [self.attribute_history(obj)[key]] *)
Definition history_getitem (k : string) : M W (hist C) :=
  attr ← attribute_history;
  match attr !! k with
  | Some h => ret h
  | None => raise (KeyError k)
  end.

(** [self.callable_()], logged *)
Definition invoke (c : C) : M W value :=
  fun w =>
    match run_callable c (obj w) (ext w) with
    | (r, o', e') => (r, mkWorld o' e' (invoked w ++ [c]))
    end.

(** [CallableProp.getattr]:
<<
    if self.obj.__dict__.get(self.key, None) is None:
        value = self.callable_()
        self.obj.__dict__[self.key] = value
    p = PropHistory(self.obj, self.key, **self.kwargs)
    self.manager.attribute_history(self.obj)[self.key] = p
    self.manager = None
    return p
>> *)
Definition CallableProp_getattr (self : CallableProp C) : M W PropHistory :=
  w ← get;
  (if is_None (dict_get (__dict__ (obj w)) (ckey self)) then
     v ← invoke (callable_ self);
     dict_setitem (ckey self) v
   else ret tt);;
  let p := PropHistory_init (ckey self) in
  history_setitem (ckey self) (HProp p);;
  ret p.

(** [gethistory]: a [PropHistory] returns itself; a scalar [CallableProp]
    does
<<
    m = self.manager
    self.getattr()
    return m.attribute_history(self.obj)[self.key]
>> *)
Definition gethistory (h : hist C) : M W (hist C) :=
  match h with
  | HProp p => ret (HProp p)
  | HCallable cp =>
      CallableProp_getattr cp;;
      history_getitem (ckey cp)
  end.

(** [AttributeManager.get_history]:
<<
    try:
        return self.attribute_history(obj)[key].gethistory()
    except KeyError, e:
        p = PropHistory(obj, key, **kwargs)
        self.attribute_history(obj)[key] = p
        return p
>> *)
Definition get_history (k : string) : M W (hist C) :=
  try_KeyError
    (h ← history_getitem k; gethistory h)
    (let p := PropHistory_init k in
     history_setitem k (HProp p);;
     ret (HProp p)).

(** [h.getattr()] on whatever [get_history] returned *)
Definition hist_getattr (h : hist C) : M W getattr_result :=
  match h with
  | HProp p =>
      w ← get;
      match getattr p (__dict__ (obj w)) with
      | Ok v => ret (Value v)
      | Raise e => raise e
      end
  | HCallable cp =>
      p ← CallableProp_getattr cp;
      ret (Tracker p)
  end.

(** [AttributeManager.get_attribute]:
<<
    try:
        return self.get_history(obj, key, **kwargs).getattr()
    except KeyError:
        pass
    try:
        return obj.__dict__[key]
    except KeyError:
        raise AttributeError(key)
>> *)
Definition get_attribute (k : string) : M W getattr_result :=
  try_KeyError
    (h ← get_history k; hist_getattr h)
    (w ← get;
     match __dict__ (obj w) !! k with
     | Some v => ret (Value v)
     | None => raise (AttributeError k)
     end).

(** [h.setattr(value)]: [PropHistory.setattr] updates the tracker, which is
    the object stored in the side table under its key, and the dictionary;
    [CallableProp] has no [setattr]. *)
Definition hist_setattr (h : hist C) (v : value) : M W unit :=
  match h with
  | HProp p =>
      w ← get;
      match setattr p (__dict__ (obj w)) v with
      | Ok (p', d') =>
          put (mkWorld (mkInstance d' (_managed_attributes (obj w)))
                       (ext w) (invoked w));;
          history_setitem (key p) (HProp p')
      | Raise e => raise e
      end
  | HCallable _ => raise (AttributeError "setattr")
  end.

(** [AttributeManager.set_attribute]:
<<
    self.get_history(obj, key, **kwargs).setattr(value)
    self.value_changed(obj, key, value)
>>
    ([value_changed] is [pass]). *)
Definition set_attribute (k : string) (v : value) : M W unit :=
  h ← get_history k;
  hist_setattr h v.

(** [AttributeManager.set_callable]:
<<
    self.attribute_history(obj)[key] = CallableProp(self, func, obj, key, uselist, **kwargs)
>> *)
Definition set_callable (k : string) (func : C) : M W unit :=
  history_setitem k (HCallable (mkCallableProp k func)).

(** [n] successive reads of attribute [k], keeping the last result *)
Fixpoint read_times (n : nat) (k : string) (w : W) : W :=
  match n with
  | O => w
  | S n' => read_times n' k (snd (get_attribute k w))
  end.

End Manager.

(** A call-count probe: a callable that returns a fixed value and touches
    neither the instance nor anything else. *)
Inductive probe : Type := Probe (returns : value).

#[global] Instance probe_sem : CallableSem probe unit :=
  fun c o e => match c with Probe v => (Ok v, o, e) end.

End Attributes.

(* ===================================================================== *)
(** * attributes.py: the manager's methods over all attributes            *)
(* ===================================================================== *)

Module AttributeManager.

Import Attributes.

Section Manager.
Context {C E : Type} `{sem : CallableSem C E}.

Local Abbreviation W := (world C E).

(** [h.delattr()] on what [get_history] returned: [PropHistory.delattr]
    updates the tracker, which is the object stored in the side table
    under its key, and the dictionary; [CallableProp] has no [delattr]. *)
Definition hist_delattr (h : hist C) : M W unit :=
  match h with
  | HProp p =>
      w ← get;
      match delattr p (__dict__ (obj w)) with
      | (p', d') =>
          put (mkWorld (mkInstance d' (_managed_attributes (obj w)))
                       (ext w) (invoked w));;
          history_setitem (key p) (HProp p')
      end
  | HCallable _ => raise (AttributeError "delattr")
  end.

(** [AttributeManager.delete_attribute]:
<<
    self.get_history(obj, key, **kwargs).delattr()
    self.value_changed(obj, key, None)
>> *)
Definition delete_attribute (k : string) : M W unit :=
  h ← get_history k;
  hist_delattr h.

(** [hist.rollback()] for the object stored under [k] in the side table:
    a [PropHistory] puts its captured value back and forgets it, in place;
    [CallableProp.rollback] is [pass]. *)
Definition hist_rollback (kh : string * hist C) (o : instance C) : instance C :=
  match snd kh with
  | HProp p =>
      match rollback p (__dict__ o) with
      | (p', d') =>
          mkInstance d' (Some (<[fst kh := HProp p']>
                                 (default ∅ (_managed_attributes o))))
      end
  | HCallable _ => o
  end.

(** [hist.commit()] for the object stored under [k] *)
Definition hist_commit (kh : string * hist C) (o : instance C) : instance C :=
  match snd kh with
  | HProp p =>
      mkInstance (__dict__ o)
                 (Some (<[fst kh := HProp (commit p)]>
                          (default ∅ (_managed_attributes o))))
  | HCallable _ => o
  end.

(** [AttributeManager.rollback], for one object:
<<
    try:
        attributes = self.attribute_history(o)
        for hist in attributes.values():
            hist.rollback()
    except KeyError:
        pass
>>
    The trackers are visited in the order in which the table lists them. *)
Definition rollback : M W unit :=
  attributes ← attribute_history;
  modify (fun w =>
    mkWorld (foldr hist_rollback (obj w) (map_to_list attributes))
            (ext w) (invoked w)).

(** [AttributeManager.commit], for one object *)
Definition commit : M W unit :=
  attributes ← attribute_history;
  modify (fun w =>
    mkWorld (foldr hist_commit (obj w) (map_to_list attributes))
            (ext w) (invoked w)).

End Manager.

End AttributeManager.

(* ===================================================================== *)
(** * orm/evaluator.py                                                    *)
(* ===================================================================== *)

(** [sqlalchemy.sql.operators]: the operator objects that clauses carry.
    The compiler compares them by identity ([is]) and by membership in a
    set, so an enumeration is enough; every operator that the evaluator
    does not name is an [other] one. *)
Module operators.

Inductive t : Type :=
| and_ | or_ | inv | is_ | isnot
| add | mul | sub | div | mod_ | truediv | lt | le | ne | gt | ge | eq
| like_op | notlike_op | ilike_op | notilike_op | between_op | in_op
| notin_op | endswith_op | concat_op
| other (name : string).

#[global] Instance t_eq_dec : EqDecision t.
Proof. solve_decision. Defined.

End operators.

Module Evaluator.

(** [_straight_ops] *)
Definition _straight_ops : list operators.t :=
  [operators.add; operators.mul; operators.sub; operators.div;
   operators.mod_; operators.truediv; operators.lt; operators.le;
   operators.ne; operators.gt; operators.ge; operators.eq].

(** [_notimplemented_ops] *)
Definition _notimplemented_ops : list operators.t :=
  [operators.like_op; operators.notlike_op; operators.ilike_op;
   operators.notilike_op; operators.between_op; operators.in_op;
   operators.notin_op; operators.endswith_op; operators.concat_op].

(** [op in _straight_ops] *)
Definition in_straight_ops (op : operators.t) : bool :=
  bool_decide (op ∈ _straight_ops).

(** What calling one of the operator functions on two values gives; the
    functions themselves belong to [sqlalchemy.sql.operators]. *)
Class Operators : Type :=
  apply_operator : operators.t -> value -> value -> result value.

(** Clause elements, by [__visit_name__].  A column carries its [key] and,
    when annotated with a parent entity, the key of the mapped property
    that [_get_col_to_prop] finds for it.  [Other] stands for every clause
    element of another kind (function, select, text, label, ...). *)
#[warnings="-register-all"]
Inductive clause : Type :=
| Grouping (element : clause)
| Null
| Column (parententity_key : option string) (key : string)
| ClauseList (operator : operators.t) (clauses : list clause)
| Binary (left : clause) (operator : operators.t) (right : clause)
| Unary (operator : operators.t) (element : clause)
| Bindparam (value_ : value)
| Other (visit_name : string).

Definition __visit_name__ (c : clause) : string :=
  match c with
  | Grouping _ => "grouping"
  | Null => "null"
  | Column _ _ => "column"
  | ClauseList _ _ => "clauselist"
  | Binary _ _ _ => "binary"
  | Unary _ _ => "unary"
  | Bindparam _ => "bindparam"
  | Other n => n
  end.

(** The names [n] for which [EvaluatorCompiler] has a method [visit_n]. *)
Definition visit_methods : list string :=
  ["grouping"; "null"; "column"; "clauselist"; "binary"; "unary"; "bindparam"].

(** The objects that evaluators are applied to: mapped instances, read
    through their attributes. *)
Definition object : Type := gmap string value.

(** [operator.attrgetter(key)(obj)] *)
Definition attrgetter (key : string) (o : object) : result value :=
  match o !! key with
  | Some v => Ok v
  | None => Raise (AttributeError key)
  end.

(** A compiled evaluator: [lambda obj: ...] *)
Definition evaluator : Type := object -> result value.

(** [map(f, xs)] for an [f] that may raise *)
Definition rmap {A B : Type} (f : A -> result B) : list A -> result (list B) :=
  fix go (xs : list A) : result (list B) :=
    match xs with
    | [] => Ok []
    | x :: xs' =>
        match f x with
        | Ok y => match go xs' with
                  | Ok ys => Ok (y :: ys)
                  | Raise e => Raise e
                  end
        | Raise e => Raise e
        end
    end.

(** The [evaluate] closure of [visit_clauselist] for [operators.or_]:
<<
    has_null = False
    for sub_evaluate in evaluators:
        value = sub_evaluate(obj)
        if value:
            return True
        has_null = has_null or value is None
    if has_null:
        return None
    return False
>> *)
Fixpoint or_loop (evaluators : list evaluator) (has_null : bool) (o : object)
  : result value :=
  match evaluators with
  | [] => if has_null then Ok VNone else Ok (VBool false)
  | sub_evaluate :: rest =>
      match sub_evaluate o with
      | Raise e => Raise e
      | Ok v =>
          if truthy v then Ok (VBool true)
          else or_loop rest (has_null || is_None v) o
      end
  end.

Definition or_evaluate (evaluators : list evaluator) : evaluator :=
  or_loop evaluators false.

(** The [evaluate] closure of [visit_clauselist] for [operators.and_]:
<<
    for sub_evaluate in evaluators:
        value = sub_evaluate(obj)
        if not value:
            if value is None:
                return None
            return False
    return True
>> *)
Fixpoint and_evaluate (evaluators : list evaluator) (o : object) : result value :=
  match evaluators with
  | [] => Ok (VBool true)
  | sub_evaluate :: rest =>
      match sub_evaluate o with
      | Raise e => Raise e
      | Ok v =>
          if negb (truthy v) then
            if is_None v then Ok VNone else Ok (VBool false)
          else and_evaluate rest o
      end
  end.

Section Compiler.
Context `{ops : Operators}.

(** The closures of [visit_binary] *)
Definition is_evaluate (eval_left eval_right : evaluator) : evaluator :=
  fun o =>
    match eval_left o with
    | Raise e => Raise e
    | Ok l => match eval_right o with
              | Raise e => Raise e
              | Ok r => Ok (VBool (py_eq l r))
              end
    end.

Definition isnot_evaluate (eval_left eval_right : evaluator) : evaluator :=
  fun o =>
    match eval_left o with
    | Raise e => Raise e
    | Ok l => match eval_right o with
              | Raise e => Raise e
              | Ok r => Ok (VBool (negb (py_eq l r)))
              end
    end.

(**
<<
    left_val = eval_left(obj)
    right_val = eval_right(obj)
    if left_val is None or right_val is None:
        return None
    return operator(eval_left(obj), eval_right(obj))
>> *)
Definition straight_evaluate (operator : operators.t)
    (eval_left eval_right : evaluator) : evaluator :=
  fun o =>
    match eval_left o with
    | Raise e => Raise e
    | Ok left_val =>
        match eval_right o with
        | Raise e => Raise e
        | Ok right_val =>
            if is_None left_val || is_None right_val then Ok VNone
            else
              match eval_left o with
              | Raise e => Raise e
              | Ok l => match eval_right o with
                        | Raise e => Raise e
                        | Ok r => apply_operator operator l r
                        end
              end
        end
    end.

(** The closure of [visit_unary] for [operators.inv]:
<<
    value = eval_inner(obj)
    if value is None:
        return None
    return not value
>> *)
Definition inv_evaluate (eval_inner : evaluator) : evaluator :=
  fun o =>
    match eval_inner o with
    | Raise e => Raise e
    | Ok v => if is_None v then Ok VNone else Ok (VBool (negb (truthy v)))
    end.

(** [visit_binary], after both operands have been compiled.  The first
    [if] binds [evaluate] for [is_]; the statement that follows it is an
    [if]/[elif]/[else] of its own, whose [else] raises:
<<
    if operator is operators.is_:
        def evaluate(obj): return eval_left(obj) == eval_right(obj)
    if operator is operators.isnot:
        def evaluate(obj): return eval_left(obj) != eval_right(obj)
    elif operator in _straight_ops:
        def evaluate(obj): ...
    else:
        raise UnevaluatableError(...)
    return evaluate
>> *)
Definition visit_binary_body (operator : operators.t)
    (eval_left eval_right : evaluator) : result evaluator :=
  let evaluate : option evaluator :=
    if bool_decide (operator = operators.is_)
    then Some (is_evaluate eval_left eval_right) else None in
  if bool_decide (operator = operators.isnot) then
    Ok (isnot_evaluate eval_left eval_right)
  else if in_straight_ops operator then
    Ok (straight_evaluate operator eval_left eval_right)
  else
    Raise UnevaluatableError.

(** [visit_clauselist], after the operands have been compiled: [evaluate]
    is bound only for [or_] and [and_]; [return evaluate] on an unbound
    local raises [UnboundLocalError]. *)
Definition visit_clauselist_body (operator : operators.t)
    (evaluators : list evaluator) : result evaluator :=
  let evaluate : option evaluator :=
    if bool_decide (operator = operators.or_)
    then Some (or_evaluate evaluators) else None in
  let evaluate : option evaluator :=
    if bool_decide (operator = operators.and_)
    then Some (and_evaluate evaluators) else evaluate in
  match evaluate with
  | Some ev => Ok ev
  | None => Raise (UnboundLocalError "evaluate")
  end.

(** [visit_unary], after the operand has been compiled *)
Definition visit_unary_body (operator : operators.t) (eval_inner : evaluator)
  : result evaluator :=
  if bool_decide (operator = operators.inv) then Ok (inv_evaluate eval_inner)
  else Raise UnevaluatableError.

(** [EvaluatorCompiler.process] with the [visit_*] methods it dispatches to:
<<
    meth = getattr(self, "visit_%s" % clause.__visit_name__, None)
    if not meth:
        raise UnevaluatableError("Cannot evaluate %s" % type(clause).__name__)
    return meth(clause)
>>
    A clause of another kind whose visit name happens to be one of the
    seven is handed to a method that reads attributes it does not have. *)
Fixpoint process (c : clause) : result evaluator :=
  if negb (bool_decide (__visit_name__ c ∈ visit_methods)) then
    Raise UnevaluatableError
  else
    match c with
    | Grouping element => process element
    | Null => Ok (fun _ => Ok VNone)
    | Column parententity_key key =>
        let key := default key parententity_key in
        Ok (fun o => attrgetter key o)
    | ClauseList operator clauses =>
        match rmap process clauses with
        | Ok evaluators => visit_clauselist_body operator evaluators
        | Raise e => Raise e
        end
    | Binary clause_left operator clause_right =>
        match process clause_left with
        | Raise e => Raise e
        | Ok eval_left =>
            match process clause_right with
            | Raise e => Raise e
            | Ok eval_right => visit_binary_body operator eval_left eval_right
            end
        end
    | Unary operator element =>
        match process element with
        | Ok eval_inner => visit_unary_body operator eval_inner
        | Raise e => Raise e
        end
    | Bindparam val => Ok (fun _ => Ok val)
    | Other n => Raise (AttributeError n)
    end.

(** [process(clause)] where [clause] may be [None], as [Query.whereclause]
    is for a query without criterion: [None] has no [__visit_name__]. *)
Definition process_whereclause (whereclause : option clause) : result evaluator :=
  match whereclause with
  | Some c => process c
  | None => Raise (AttributeError "__visit_name__")
  end.

End Compiler.



(** SQL's three-valued conjunction, [None] standing for NULL. *)
Definition sql_and3 (a b : option bool) : option bool :=
  match a, b with
  | Some false, _ | _, Some false => Some false
  | Some true, Some true => Some true
  | _, _ => None
  end.

(** The value an evaluator returns for a three-valued truth value *)
Definition of_truth (t : option bool) : value :=
  match t with Some b => VBool b | None => VNone end.

(** An interpretation of the operator functions on integers, for running
    examples: Python's integer arithmetic and comparisons ([truediv], which
    leaves the integers, and operands of other types are not covered and
    are reported as [TypeError]). *)
Definition int_operators : Operators :=
  fun op l r =>
    match l, r with
    | VInt a, VInt b =>
        match op with
        | operators.add => Ok (VInt (a + b))
        | operators.mul => Ok (VInt (a * b))
        | operators.sub => Ok (VInt (a - b))
        | operators.div =>
            if b =? 0 then Raise ZeroDivisionError else Ok (VInt (a / b))
        | operators.mod_ =>
            if b =? 0 then Raise ZeroDivisionError else Ok (VInt (a mod b))
        | operators.lt => Ok (VBool (a <? b))
        | operators.le => Ok (VBool (a <=? b))
        | operators.ne => Ok (VBool (negb (a =? b)))
        | operators.gt => Ok (VBool (a >? b))
        | operators.ge => Ok (VBool (a >=? b))
        | operators.eq => Ok (VBool (a =? b))
        | _ => Raise TypeError
        end
    | _, _ => Raise TypeError
    end.

End Evaluator.

(* ===================================================================== *)
(** * orm/query.py                                                        *)
(* ===================================================================== *)

Module Query.

Import Evaluator.

(** ** The objects a query refers to

    Tables, selectables and column adapters belong to the SQL expression
    layer; they are named, and what the layer computes from them is given
    by [SqlLayer] below. *)
Definition table : Type := string.
Definition selectable : Type := string.
Definition adapter : Type := string.
Definition statement : Type := string.

(** What the builder reads from a mapper: the mapped class, the truth of
    [mapper.with_polymorphic], and the tables that
    [__mapper_loads_polymorphically_with] walks through, namely
    [m.mapped_table] and [m.local_table] for every [m] in
    [m2.iterate_to_root()] for every [m2] in
    [mapper._with_polymorphic_mappers], in that order. *)
Record mapper : Type := mkMapper {
  class_ : string;
  with_polymorphic_ : bool;
  _with_polymorphic_mappers : list string;
  polymorphic_tables : list table;
  mapped_table : table;
  (** [m.mapped_table] for [m] in [mapper.iterate_to_root()] *)
  root_tables : list table
}.

(** What [_entity_info(entity)] reports about an entity given to the
    builder: its mapper, its selectable, and whether it is an aliased
    class. *)
Record entity_info : Type := mkEntityInfo {
  ei_mapper : mapper;
  ei_selectable : selectable;
  ei_is_aliased_class : bool
}.

(** [_MapperEntity] and [_ColumnEntity] objects.  An entity object is only
    written to while it is new ([setup_entity]) or a fresh clone
    ([_generate_mapper_zero]), so entities are kept as values. *)
Inductive entity : Type :=
| MapperEntity (primary_entity : bool) (m : mapper) (is_aliased_class : bool)
               (selectable_ : selectable) (adapter_ : option adapter)
               (_with_polymorphic : option (list string))
| ColumnEntity (column : clause) (entities : list entity_info).

(** [MapperOption]s: most of them write to the query's [_attributes]
    dictionary; [AliasOption] sets [_from_obj_alias]. *)
Inductive MapperOption : Type :=
| AttributeOption (key : string) (val : value)
| AliasOption (alias : adapter).

(** ** The heap of mutable collections

    [Query._clone] copies the instance dictionary, not the objects it
    refers to: the clone and the original share every list, dictionary and
    set until one of them rebinds the attribute.  The collections that
    some method updates in place are therefore kept in a heap and referred
    to by location. *)
Inductive cell : Type :=
| CParams (d : gmap string value)
| CAttributes (d : gmap string value)
| CEntities (l : list entity)
| CAdapters (d : gmap table adapter)
| CTables (s : gset table).

Definition loc : Type := nat.
Definition heap : Type := list cell.

(** The value of [_order_by] and [_group_by]: [False] until set *)
Definition criteria : Type := option (list clause).

Record Query : Type := mkQuery {
  _with_options : list MapperOption;
  _lockmode : option string;
  _order_by : criteria;
  _group_by : criteria;
  _distinct : bool;
  _offset : option Z;
  _limit : option Z;
  _statement : option statement;
  _params : loc;
  _yield_per : option Z;
  _criterion : option clause;
  _correlate : list selectable;
  _joinpoint : option string;
  _with_labels : bool;
  _having : option clause;
  _populate_existing : bool;
  _version_check : bool;
  _autoflush : bool;
  _attributes : loc;
  _current_path : list string;
  _from_obj : option selectable;
  _entities : loc;
  _polymorphic_adapters : loc;
  _filter_aliases : option adapter;
  _from_obj_alias : option adapter;
  __currenttables : loc;
  _disable_orm_filtering : option bool;
  __joined_tables : bool
}.

(** [self.attr = x]: the query with one attribute rebound *)
Definition set_with_options x q : Query :=
  mkQuery x (_lockmode q) (_order_by q) (_group_by q) (_distinct q) (_offset
    q) (_limit q) (_statement q) (_params q) (_yield_per q) (_criterion q)
    (_correlate q) (_joinpoint q) (_with_labels q) (_having q)
    (_populate_existing q) (_version_check q) (_autoflush q) (_attributes q)
    (_current_path q) (_from_obj q) (_entities q) (_polymorphic_adapters q)
    (_filter_aliases q) (_from_obj_alias q) (__currenttables q)
    (_disable_orm_filtering q) (__joined_tables q).

Definition set_order_by x q : Query :=
  mkQuery (_with_options q) (_lockmode q) x (_group_by q) (_distinct q)
    (_offset q) (_limit q) (_statement q) (_params q) (_yield_per q)
    (_criterion q) (_correlate q) (_joinpoint q) (_with_labels q) (_having
    q) (_populate_existing q) (_version_check q) (_autoflush q) (_attributes
    q) (_current_path q) (_from_obj q) (_entities q) (_polymorphic_adapters
    q) (_filter_aliases q) (_from_obj_alias q) (__currenttables q)
    (_disable_orm_filtering q) (__joined_tables q).

Definition set_group_by x q : Query :=
  mkQuery (_with_options q) (_lockmode q) (_order_by q) x (_distinct q)
    (_offset q) (_limit q) (_statement q) (_params q) (_yield_per q)
    (_criterion q) (_correlate q) (_joinpoint q) (_with_labels q) (_having
    q) (_populate_existing q) (_version_check q) (_autoflush q) (_attributes
    q) (_current_path q) (_from_obj q) (_entities q) (_polymorphic_adapters
    q) (_filter_aliases q) (_from_obj_alias q) (__currenttables q)
    (_disable_orm_filtering q) (__joined_tables q).

Definition set_distinct x q : Query :=
  mkQuery (_with_options q) (_lockmode q) (_order_by q) (_group_by q) x
    (_offset q) (_limit q) (_statement q) (_params q) (_yield_per q)
    (_criterion q) (_correlate q) (_joinpoint q) (_with_labels q) (_having
    q) (_populate_existing q) (_version_check q) (_autoflush q) (_attributes
    q) (_current_path q) (_from_obj q) (_entities q) (_polymorphic_adapters
    q) (_filter_aliases q) (_from_obj_alias q) (__currenttables q)
    (_disable_orm_filtering q) (__joined_tables q).

Definition set_offset x q : Query :=
  mkQuery (_with_options q) (_lockmode q) (_order_by q) (_group_by q)
    (_distinct q) x (_limit q) (_statement q) (_params q) (_yield_per q)
    (_criterion q) (_correlate q) (_joinpoint q) (_with_labels q) (_having
    q) (_populate_existing q) (_version_check q) (_autoflush q) (_attributes
    q) (_current_path q) (_from_obj q) (_entities q) (_polymorphic_adapters
    q) (_filter_aliases q) (_from_obj_alias q) (__currenttables q)
    (_disable_orm_filtering q) (__joined_tables q).

Definition set_limit x q : Query :=
  mkQuery (_with_options q) (_lockmode q) (_order_by q) (_group_by q)
    (_distinct q) (_offset q) x (_statement q) (_params q) (_yield_per q)
    (_criterion q) (_correlate q) (_joinpoint q) (_with_labels q) (_having
    q) (_populate_existing q) (_version_check q) (_autoflush q) (_attributes
    q) (_current_path q) (_from_obj q) (_entities q) (_polymorphic_adapters
    q) (_filter_aliases q) (_from_obj_alias q) (__currenttables q)
    (_disable_orm_filtering q) (__joined_tables q).

Definition set_statement x q : Query :=
  mkQuery (_with_options q) (_lockmode q) (_order_by q) (_group_by q)
    (_distinct q) (_offset q) (_limit q) x (_params q) (_yield_per q)
    (_criterion q) (_correlate q) (_joinpoint q) (_with_labels q) (_having
    q) (_populate_existing q) (_version_check q) (_autoflush q) (_attributes
    q) (_current_path q) (_from_obj q) (_entities q) (_polymorphic_adapters
    q) (_filter_aliases q) (_from_obj_alias q) (__currenttables q)
    (_disable_orm_filtering q) (__joined_tables q).

Definition set_params x q : Query :=
  mkQuery (_with_options q) (_lockmode q) (_order_by q) (_group_by q)
    (_distinct q) (_offset q) (_limit q) (_statement q) x (_yield_per q)
    (_criterion q) (_correlate q) (_joinpoint q) (_with_labels q) (_having
    q) (_populate_existing q) (_version_check q) (_autoflush q) (_attributes
    q) (_current_path q) (_from_obj q) (_entities q) (_polymorphic_adapters
    q) (_filter_aliases q) (_from_obj_alias q) (__currenttables q)
    (_disable_orm_filtering q) (__joined_tables q).

Definition set_criterion x q : Query :=
  mkQuery (_with_options q) (_lockmode q) (_order_by q) (_group_by q)
    (_distinct q) (_offset q) (_limit q) (_statement q) (_params q)
    (_yield_per q) x (_correlate q) (_joinpoint q) (_with_labels q) (_having
    q) (_populate_existing q) (_version_check q) (_autoflush q) (_attributes
    q) (_current_path q) (_from_obj q) (_entities q) (_polymorphic_adapters
    q) (_filter_aliases q) (_from_obj_alias q) (__currenttables q)
    (_disable_orm_filtering q) (__joined_tables q).

Definition set_correlate x q : Query :=
  mkQuery (_with_options q) (_lockmode q) (_order_by q) (_group_by q)
    (_distinct q) (_offset q) (_limit q) (_statement q) (_params q)
    (_yield_per q) (_criterion q) x (_joinpoint q) (_with_labels q) (_having
    q) (_populate_existing q) (_version_check q) (_autoflush q) (_attributes
    q) (_current_path q) (_from_obj q) (_entities q) (_polymorphic_adapters
    q) (_filter_aliases q) (_from_obj_alias q) (__currenttables q)
    (_disable_orm_filtering q) (__joined_tables q).

Definition set_joinpoint x q : Query :=
  mkQuery (_with_options q) (_lockmode q) (_order_by q) (_group_by q)
    (_distinct q) (_offset q) (_limit q) (_statement q) (_params q)
    (_yield_per q) (_criterion q) (_correlate q) x (_with_labels q) (_having
    q) (_populate_existing q) (_version_check q) (_autoflush q) (_attributes
    q) (_current_path q) (_from_obj q) (_entities q) (_polymorphic_adapters
    q) (_filter_aliases q) (_from_obj_alias q) (__currenttables q)
    (_disable_orm_filtering q) (__joined_tables q).

Definition set_with_labels x q : Query :=
  mkQuery (_with_options q) (_lockmode q) (_order_by q) (_group_by q)
    (_distinct q) (_offset q) (_limit q) (_statement q) (_params q)
    (_yield_per q) (_criterion q) (_correlate q) (_joinpoint q) x (_having
    q) (_populate_existing q) (_version_check q) (_autoflush q) (_attributes
    q) (_current_path q) (_from_obj q) (_entities q) (_polymorphic_adapters
    q) (_filter_aliases q) (_from_obj_alias q) (__currenttables q)
    (_disable_orm_filtering q) (__joined_tables q).

Definition set_having x q : Query :=
  mkQuery (_with_options q) (_lockmode q) (_order_by q) (_group_by q)
    (_distinct q) (_offset q) (_limit q) (_statement q) (_params q)
    (_yield_per q) (_criterion q) (_correlate q) (_joinpoint q)
    (_with_labels q) x (_populate_existing q) (_version_check q) (_autoflush
    q) (_attributes q) (_current_path q) (_from_obj q) (_entities q)
    (_polymorphic_adapters q) (_filter_aliases q) (_from_obj_alias q)
    (__currenttables q) (_disable_orm_filtering q) (__joined_tables q).

Definition set_attributes x q : Query :=
  mkQuery (_with_options q) (_lockmode q) (_order_by q) (_group_by q)
    (_distinct q) (_offset q) (_limit q) (_statement q) (_params q)
    (_yield_per q) (_criterion q) (_correlate q) (_joinpoint q)
    (_with_labels q) (_having q) (_populate_existing q) (_version_check q)
    (_autoflush q) x (_current_path q) (_from_obj q) (_entities q)
    (_polymorphic_adapters q) (_filter_aliases q) (_from_obj_alias q)
    (__currenttables q) (_disable_orm_filtering q) (__joined_tables q).

Definition set_from_obj x q : Query :=
  mkQuery (_with_options q) (_lockmode q) (_order_by q) (_group_by q)
    (_distinct q) (_offset q) (_limit q) (_statement q) (_params q)
    (_yield_per q) (_criterion q) (_correlate q) (_joinpoint q)
    (_with_labels q) (_having q) (_populate_existing q) (_version_check q)
    (_autoflush q) (_attributes q) (_current_path q) x (_entities q)
    (_polymorphic_adapters q) (_filter_aliases q) (_from_obj_alias q)
    (__currenttables q) (_disable_orm_filtering q) (__joined_tables q).

Definition set_entities x q : Query :=
  mkQuery (_with_options q) (_lockmode q) (_order_by q) (_group_by q)
    (_distinct q) (_offset q) (_limit q) (_statement q) (_params q)
    (_yield_per q) (_criterion q) (_correlate q) (_joinpoint q)
    (_with_labels q) (_having q) (_populate_existing q) (_version_check q)
    (_autoflush q) (_attributes q) (_current_path q) (_from_obj q) x
    (_polymorphic_adapters q) (_filter_aliases q) (_from_obj_alias q)
    (__currenttables q) (_disable_orm_filtering q) (__joined_tables q).

Definition set_polymorphic_adapters x q : Query :=
  mkQuery (_with_options q) (_lockmode q) (_order_by q) (_group_by q)
    (_distinct q) (_offset q) (_limit q) (_statement q) (_params q)
    (_yield_per q) (_criterion q) (_correlate q) (_joinpoint q)
    (_with_labels q) (_having q) (_populate_existing q) (_version_check q)
    (_autoflush q) (_attributes q) (_current_path q) (_from_obj q)
    (_entities q) x (_filter_aliases q) (_from_obj_alias q) (__currenttables
    q) (_disable_orm_filtering q) (__joined_tables q).

Definition set_filter_aliases x q : Query :=
  mkQuery (_with_options q) (_lockmode q) (_order_by q) (_group_by q)
    (_distinct q) (_offset q) (_limit q) (_statement q) (_params q)
    (_yield_per q) (_criterion q) (_correlate q) (_joinpoint q)
    (_with_labels q) (_having q) (_populate_existing q) (_version_check q)
    (_autoflush q) (_attributes q) (_current_path q) (_from_obj q)
    (_entities q) (_polymorphic_adapters q) x (_from_obj_alias q)
    (__currenttables q) (_disable_orm_filtering q) (__joined_tables q).

Definition set_from_obj_alias x q : Query :=
  mkQuery (_with_options q) (_lockmode q) (_order_by q) (_group_by q)
    (_distinct q) (_offset q) (_limit q) (_statement q) (_params q)
    (_yield_per q) (_criterion q) (_correlate q) (_joinpoint q)
    (_with_labels q) (_having q) (_populate_existing q) (_version_check q)
    (_autoflush q) (_attributes q) (_current_path q) (_from_obj q)
    (_entities q) (_polymorphic_adapters q) (_filter_aliases q) x
    (__currenttables q) (_disable_orm_filtering q) (__joined_tables q).

Definition set_currenttables x q : Query :=
  mkQuery (_with_options q) (_lockmode q) (_order_by q) (_group_by q)
    (_distinct q) (_offset q) (_limit q) (_statement q) (_params q)
    (_yield_per q) (_criterion q) (_correlate q) (_joinpoint q)
    (_with_labels q) (_having q) (_populate_existing q) (_version_check q)
    (_autoflush q) (_attributes q) (_current_path q) (_from_obj q)
    (_entities q) (_polymorphic_adapters q) (_filter_aliases q)
    (_from_obj_alias q) x (_disable_orm_filtering q) (__joined_tables q).

Definition set_disable_orm_filtering x q : Query :=
  mkQuery (_with_options q) (_lockmode q) (_order_by q) (_group_by q)
    (_distinct q) (_offset q) (_limit q) (_statement q) (_params q)
    (_yield_per q) (_criterion q) (_correlate q) (_joinpoint q)
    (_with_labels q) (_having q) (_populate_existing q) (_version_check q)
    (_autoflush q) (_attributes q) (_current_path q) (_from_obj q)
    (_entities q) (_polymorphic_adapters q) (_filter_aliases q)
    (_from_obj_alias q) (__currenttables q) x (__joined_tables q).

Definition set_joined_tables x q : Query :=
  mkQuery (_with_options q) (_lockmode q) (_order_by q) (_group_by q)
    (_distinct q) (_offset q) (_limit q) (_statement q) (_params q)
    (_yield_per q) (_criterion q) (_correlate q) (_joinpoint q)
    (_with_labels q) (_having q) (_populate_existing q) (_version_check q)
    (_autoflush q) (_attributes q) (_current_path q) (_from_obj q)
    (_entities q) (_polymorphic_adapters q) (_filter_aliases q)
    (_from_obj_alias q) (__currenttables q) (_disable_orm_filtering q) x.

Definition set_yield_per x q : Query :=
  mkQuery (_with_options q) (_lockmode q) (_order_by q) (_group_by q)
    (_distinct q) (_offset q) (_limit q) (_statement q) (_params q) x
    (_criterion q) (_correlate q) (_joinpoint q) (_with_labels q) (_having
    q) (_populate_existing q) (_version_check q) (_autoflush q) (_attributes
    q) (_current_path q) (_from_obj q) (_entities q) (_polymorphic_adapters
    q) (_filter_aliases q) (_from_obj_alias q) (__currenttables q)
    (_disable_orm_filtering q) (__joined_tables q).

Definition set_populate_existing x q : Query :=
  mkQuery (_with_options q) (_lockmode q) (_order_by q) (_group_by q)
    (_distinct q) (_offset q) (_limit q) (_statement q) (_params q)
    (_yield_per q) (_criterion q) (_correlate q) (_joinpoint q)
    (_with_labels q) (_having q) x (_version_check q) (_autoflush q)
    (_attributes q) (_current_path q) (_from_obj q) (_entities q)
    (_polymorphic_adapters q) (_filter_aliases q) (_from_obj_alias q)
    (__currenttables q) (_disable_orm_filtering q) (__joined_tables q).

Definition set_autoflush x q : Query :=
  mkQuery (_with_options q) (_lockmode q) (_order_by q) (_group_by q)
    (_distinct q) (_offset q) (_limit q) (_statement q) (_params q)
    (_yield_per q) (_criterion q) (_correlate q) (_joinpoint q)
    (_with_labels q) (_having q) (_populate_existing q) (_version_check q) x
    (_attributes q) (_current_path q) (_from_obj q) (_entities q)
    (_polymorphic_adapters q) (_filter_aliases q) (_from_obj_alias q)
    (__currenttables q) (_disable_orm_filtering q) (__joined_tables q).

Definition set_lockmode x q : Query :=
  mkQuery (_with_options q) x (_order_by q) (_group_by q) (_distinct q)
    (_offset q) (_limit q) (_statement q) (_params q) (_yield_per q)
    (_criterion q) (_correlate q) (_joinpoint q) (_with_labels q) (_having
    q) (_populate_existing q) (_version_check q) (_autoflush q) (_attributes
    q) (_current_path q) (_from_obj q) (_entities q) (_polymorphic_adapters
    q) (_filter_aliases q) (_from_obj_alias q) (__currenttables q)
    (_disable_orm_filtering q) (__joined_tables q).

Definition set_current_path x q : Query :=
  mkQuery (_with_options q) (_lockmode q) (_order_by q) (_group_by q)
    (_distinct q) (_offset q) (_limit q) (_statement q) (_params q)
    (_yield_per q) (_criterion q) (_correlate q) (_joinpoint q)
    (_with_labels q) (_having q) (_populate_existing q) (_version_check q)
    (_autoflush q) (_attributes q) x (_from_obj q) (_entities q)
    (_polymorphic_adapters q) (_filter_aliases q) (_from_obj_alias q)
    (__currenttables q) (_disable_orm_filtering q) (__joined_tables q).

(** ** Heap access *)

Definition alloc (c : cell) : M heap loc :=
  fun h => (Ok (length h), h ++ [c]).

Definition write (l : loc) (c : cell) : M heap unit :=
  modify (fun h : heap => <[l := c]> h).

Definition read_params (h : heap) (l : loc) : gmap string value :=
  match h !! l with Some (CParams d) => d | _ => ∅ end.
Definition read_attributes (h : heap) (l : loc) : gmap string value :=
  match h !! l with Some (CAttributes d) => d | _ => ∅ end.
Definition read_entities (h : heap) (l : loc) : list entity :=
  match h !! l with Some (CEntities es) => es | _ => [] end.
Definition read_adapters (h : heap) (l : loc) : gmap table adapter :=
  match h !! l with Some (CAdapters d) => d | _ => ∅ end.
Definition read_tables (h : heap) (l : loc) : gset table :=
  match h !! l with Some (CTables t) => t | _ => ∅ end.

(** Everything a query denotes: its attributes together with the contents
    of the collections they refer to.  The statement that
    [_compile_context] builds is computed from this and nothing else. *)
Record view : Type := mkView {
  v_query : Query;
  v_params : gmap string value;
  v_attributes : gmap string value;
  v_entities : list entity;
  v_polymorphic_adapters : gmap table adapter;
  v_currenttables : gset table
}.

Definition snapshot (h : heap) (q : Query) : view :=
  {| v_query := q;
     v_params := read_params h (_params q);
     v_attributes := read_attributes h (_attributes q);
     v_entities := read_entities h (_entities q);
     v_polymorphic_adapters := read_adapters h (_polymorphic_adapters q);
     v_currenttables := read_tables h (__currenttables q) |}.

(** The value assigned to a column by [update]: a plain Python value or a
    clause element *)
Inductive update_value : Type :=
| Literal (v : value)
| Expression (c : clause).

(** ** The SQL expression layer, as the builder uses it *)

(** The replacement functions that [_adapt_clause] collects *)
Inductive adapter_fn : Type :=
| FilterAliases (a : adapter)
| AdaptPolymorphic (d : gmap table adapter)
| FromObjAlias (a : adapter).

Class SqlLayer : Type := {
  (** [sql.text(s)] *)
  sql_text : string -> clause;
  (** [a & b], i.e. [ClauseElement.__and__] *)
  clause_and : clause -> option clause -> clause;
  (** [visitors.replacement_traverse(clause, {'column_collections':False}, replace)]
      where [replace] tries the adapters in order, on every element or on
      ORM-annotated elements only *)
  replacement_traverse : bool -> list adapter_fn -> option clause -> option clause;
  (** [expression._literal_as_text] *)
  _literal_as_text : clause -> clause;
  (** [_orm_columns] *)
  _orm_columns : clause -> list clause;
  (** [expression._literal_as_binds(value)] *)
  _literal_as_binds : update_value -> clause;
  (** [orm_join(left, right, onclause, isouter)] *)
  orm_join : selectable -> string -> bool -> selectable;
  (** the name of the anonymous alias that [aliased(mapper)] creates *)
  aliased : string -> string;
  (** [ORMAdapter(entity, equivalents, chain_to)] *)
  ORMAdapter : string -> option adapter -> adapter;
  (** the statement of [_compile_context], a function of what the query denotes *)
  compile_statement : view -> statement
}.

Section Builder.
Context `{sql : SqlLayer}.

(** [Query._clone]:
<<
    q = Query.__new__(Query)
    q.__dict__ = self.__dict__.copy()
    return q
>>
    The new object has the same attribute bindings, hence the same
    locations. *)
Definition _clone (self : Query) : Query := self.

(** [Query.statement], through [_compile_context] *)
Definition compiled (h : heap) (q : Query) : statement :=
  compile_statement (snapshot h q).

(** *** Guard conditions *)

Definition criteria_truth (c : criteria) : bool :=
  match c with Some (_ :: _) => true | _ => false end.

(** [__no_criterion_condition] *)
Definition __no_criterion_condition (self : Query) : M heap Query :=
  if not_None (_criterion self) || not_None (_statement self)
     || not_None (_from_obj self) || not_None (_limit self)
     || not_None (_offset self) || criteria_truth (_group_by self)
     || criteria_truth (_order_by self)
  then raise InvalidRequestError
  else
    ret (set_joined_tables true
          (set_distinct false (set_group_by None (set_order_by None
            (set_from_obj None (set_criterion None (set_statement None self))))))).

(** [__no_from_condition] *)
Definition __no_from_condition (self : Query) : M heap Query :=
  if not_None (_from_obj self) then raise InvalidRequestError else ret self.

(** [__no_statement_condition] *)
Definition __no_statement_condition (self : Query) : M heap Query :=
  if not_None (_statement self) then raise InvalidRequestError else ret self.

(** [__no_limit_offset] *)
Definition __no_limit_offset (self : Query) : M heap Query :=
  if not_None (_limit self) || not_None (_offset self)
  then raise InvalidRequestError else ret self.

(** [for a in run_assertions: a(self, name)] *)
Fixpoint run_assertions (assertions : list (Query -> M heap Query)) (self : Query)
  : M heap Query :=
  match assertions with
  | [] => ret self
  | a :: rest => self' ← a self; run_assertions rest self'
  end.

(** [_generative(assertions)(fn)]: the generated method is
<<
    self = self._clone()
    for a in run_assertions:
        a(self, name)
    fn(self, ...)
    return self
>>
    A method body rebinding attributes of [self] is a function from the
    clone to the clone with the new bindings. *)
Definition _generative (assertions : list (Query -> M heap Query))
    (fn : Query -> M heap Query) (self : Query) : M heap Query :=
  let self := _clone self in
  self ← run_assertions assertions self;
  fn self.

(** *** [_adapt_clause] *)
Definition _adapt_clause (self : Query) (clause_ : option clause)
    (as_filter orm_only : bool) : M heap (option clause) :=
  h ← get;
  let adapters :=
    (match _filter_aliases self with
     | Some a => if as_filter then [FilterAliases a] else []
     | None => []
     end)
    ++ (let d := read_adapters h (_polymorphic_adapters self) in
        if bool_decide (d = ∅) then [] else [AdaptPolymorphic d])
    ++ (match _from_obj_alias self with
        | Some a => [FromObjAlias a]
        | None => []
        end) in
  match adapters with
  | [] => ret clause_
  | _ =>
      ret (replacement_traverse
             (negb (default (negb orm_only) (_disable_orm_filtering self)))
             adapters clause_)
  end.

(** The argument of [filter] and [having]: a string, [None], a clause
    element, or an object of another type *)
Inductive criterion_arg : Type :=
| ArgString (s : string)
| ArgNone
| ArgClause (c : clause)
| ArgOther.

Definition as_criterion (a : criterion_arg) : M heap (option clause) :=
  match a with
  | ArgString s => ret (Some (sql_text s))
  | ArgNone => ret None
  | ArgClause c => ret (Some c)
  | ArgOther => raise ArgumentError
  end.

(** *** Generative methods *)

(** [filter] *)
Definition filter_body (criterion : criterion_arg) (self : Query) : M heap Query :=
  criterion ← as_criterion criterion;
  criterion ← _adapt_clause self criterion true true;
  match _criterion self with
  | Some c => ret (set_criterion (Some (clause_and c criterion)) self)
  | None => ret (set_criterion criterion self)
  end.
Definition filter (criterion : criterion_arg) : Query -> M heap Query :=
  _generative [__no_statement_condition; __no_limit_offset] (filter_body criterion).

(** [having] *)
Definition having_body (criterion : criterion_arg) (self : Query) : M heap Query :=
  criterion ← as_criterion criterion;
  criterion ← _adapt_clause self criterion true true;
  match _having self with
  | Some c => ret (set_having (Some (clause_and c criterion)) self)
  | None => ret (set_having criterion self)
  end.
Definition having (criterion : criterion_arg) : Query -> M heap Query :=
  _generative [__no_statement_condition; __no_limit_offset] (having_body criterion).

(** [[f(o) for o in criterion]] for an [f] running against the heap *)
Fixpoint mapM {A B : Type} (f : A -> M heap B) (xs : list A) : M heap (list B) :=
  match xs with
  | [] => ret []
  | x :: xs' => y ← f x; ys ← mapM f xs'; ret (y :: ys)
  end.

(** [order_by] *)
Definition order_by_body (criterion : list clause) (self : Query) : M heap Query :=
  criterion ← mapM (fun o =>
                 c ← _adapt_clause self (Some (_literal_as_text o)) true true;
                 ret (default o c)) criterion;
  match _order_by self with
  | None => ret (set_order_by (Some criterion) self)
  | Some old => ret (set_order_by (Some (old ++ criterion)) self)
  end.
Definition order_by (criterion : list clause) : Query -> M heap Query :=
  _generative [__no_statement_condition; __no_limit_offset] (order_by_body criterion).

(** [group_by] *)
Definition group_by_body (criterion : list clause) (self : Query) : M heap Query :=
  let criterion := concat (map _orm_columns criterion) in
  match _group_by self with
  | None => ret (set_group_by (Some criterion) self)
  | Some old => ret (set_group_by (Some (old ++ criterion)) self)
  end.
Definition group_by (criterion : list clause) : Query -> M heap Query :=
  _generative [__no_statement_condition; __no_limit_offset] (group_by_body criterion).

(** [slice]:
<<
    if start is not None and stop is not None:
        self._offset = (self._offset or 0) + start
        self._limit = stop - start
    elif start is None and stop is not None:
        self._limit = stop
    elif start is not None and stop is None:
        self._offset = (self._offset or 0) + start
>> *)
Definition slice_body (start stop : option Z) (self : Query) : M heap Query :=
  match start, stop with
  | Some start, Some stop =>
      ret (set_limit (Some (stop - start))
             (set_offset (Some (default 0 (_offset self) + start)) self))
  | None, Some stop => ret (set_limit (Some stop) self)
  | Some start, None =>
      ret (set_offset (Some (default 0 (_offset self) + start)) self)
  | None, None => ret self
  end.
Definition slice (start stop : option Z) : Query -> M heap Query :=
  _generative [__no_statement_condition] (slice_body start stop).

(** [limit], [offset], [distinct] *)
Definition limit (n : option Z) : Query -> M heap Query :=
  _generative [__no_statement_condition] (fun self => ret (set_limit n self)).
Definition offset (n : option Z) : Query -> M heap Query :=
  _generative [__no_statement_condition] (fun self => ret (set_offset n self)).
Definition distinct : Query -> M heap Query :=
  _generative [__no_statement_condition] (fun self => ret (set_distinct true self)).

(** [params]:
<<
    if len(args) == 1:
        kwargs.update(args[0])
    elif len(args) > 0:
        raise sa_exc.ArgumentError(...)
    self._params = self._params.copy()
    self._params.update(kwargs)
>> *)
Definition params_body (args : list (gmap string value)) (kwargs : gmap string value)
    (self : Query) : M heap Query :=
  kwargs ← match args with
           | [] => ret kwargs
           | [a] => ret (a ∪ kwargs)
           | _ => raise ArgumentError
           end;
  h ← get;
  l ← alloc (CParams (read_params h (_params self)));
  let self := set_params l self in
  h ← get;
  write l (CParams (kwargs ∪ read_params h l));;
  ret self.
Definition params (args : list (gmap string value)) (kwargs : gmap string value)
  : Query -> M heap Query :=
  _generative [] (params_body args kwargs).

(** [opt.process_query(self)] (and [process_query_conditionally]) *)
Definition process_query (opt : MapperOption) (self : Query) : M heap Query :=
  match opt with
  | AttributeOption k v =>
      h ← get;
      write (_attributes self)
            (CAttributes (<[k := v]> (read_attributes h (_attributes self))));;
      ret self
  | AliasOption a => ret (set_from_obj_alias (Some a) self)
  end.

Fixpoint process_queries (opts : list MapperOption) (self : Query) : M heap Query :=
  match opts with
  | [] => ret self
  | opt :: rest => self' ← process_query opt self; process_queries rest self'
  end.

(** [__options]:
<<
    self._attributes = self._attributes.copy()
    opts = [o for o in util.flatten_iterator(args)]
    self._with_options = self._with_options + opts
    for opt in opts:
        opt.process_query(self)
>> *)
Definition options_body (opts : list MapperOption) (self : Query) : M heap Query :=
  h ← get;
  l ← alloc (CAttributes (read_attributes h (_attributes self)));
  let self := set_attributes l self in
  let self := set_with_options (_with_options self ++ opts) self in
  process_queries opts self.
Definition options (opts : list MapperOption) : Query -> M heap Query :=
  _generative [] (options_body opts).

(** [from_statement] (a string argument is wrapped by [sql.text]) *)
Definition from_statement (stmt : statement) : Query -> M heap Query :=
  _generative [__no_criterion_condition]
    (fun self => ret (set_statement (Some stmt) self)).

(** [with_labels], [yield_per], [autoflush], [populate_existing],
    [with_lockmode], [correlate], [reset_joinpoint] *)
Definition with_labels : Query -> M heap Query :=
  _generative [] (fun self => ret (set_with_labels true self)).
Definition yield_per (count : option Z) : Query -> M heap Query :=
  _generative [] (fun self => ret (set_yield_per count self)).
Definition autoflush (setting : bool) : Query -> M heap Query :=
  _generative [] (fun self => ret (set_autoflush setting self)).
Definition populate_existing : Query -> M heap Query :=
  _generative [] (fun self => ret (set_populate_existing true self)).
Definition with_lockmode (mode : option string) : Query -> M heap Query :=
  _generative [] (fun self => ret (set_lockmode mode self)).
Definition correlate (args : list selectable) : Query -> M heap Query :=
  _generative []
    (fun self => ret (set_correlate (list_union (_correlate self) args) self)).

(** [__reset_joinpoint] *)
Definition __reset_joinpoint (self : Query) : Query :=
  set_filter_aliases None (set_joinpoint None self).
Definition reset_joinpoint : Query -> M heap Query :=
  _generative [__no_statement_condition] (fun self => ret (__reset_joinpoint self)).

(** *** Entities and polymorphic adapters *)

(** [__mapper_loads_polymorphically_with]:
<<
    for m2 in mapper._with_polymorphic_mappers:
        for m in m2.iterate_to_root():
            self._polymorphic_adapters[m.mapped_table] = \
                self._polymorphic_adapters[m.local_table] = adapter
>>
    Item assignment on the dictionary that [self._polymorphic_adapters]
    refers to. *)
Definition __mapper_loads_polymorphically_with (self : Query) (m : mapper)
    (a : adapter) : M heap unit :=
  h ← get;
  write (_polymorphic_adapters self)
        (CAdapters (foldl (fun d t => <[t := a]> d)
                          (read_adapters h (_polymorphic_adapters self))
                          (polymorphic_tables m))).

(** [_reset_polymorphic_adapter]:
<<
    for m2 in mapper._with_polymorphic_mappers:
        for m in m2.iterate_to_root():
            self._polymorphic_adapters.pop(m.mapped_table, None)
            self._polymorphic_adapters.pop(m.local_table, None)
>> *)
Definition _reset_polymorphic_adapter (self : Query) (m : mapper) : M heap unit :=
  h ← get;
  write (_polymorphic_adapters self)
        (CAdapters (foldl (fun d t => delete t d)
                          (read_adapters h (_polymorphic_adapters self))
                          (polymorphic_tables m))).

(** The body of the loop of [__setup_aliasizers] for one entity of [ent]:
    it returns the arguments that [ent.setup_entity] receives. *)
Definition setup_aliasizer (self : Query) (info : entity_info)
  : M heap (option adapter * option (list string)) :=
  let m := ei_mapper info in
  if negb (ei_is_aliased_class info) && with_polymorphic_ m then
    __mapper_loads_polymorphically_with self m (ei_selectable info);;
    ret (None, Some (_with_polymorphic_mappers m))
  else if ei_is_aliased_class info then
    ret (Some (ei_selectable info), None)
  else
    ret (None, None).

(** [query._entities.append(ent)] *)
Definition entities_append (self : Query) (ent : entity) : M heap unit :=
  h ← get;
  write (_entities self) (CEntities (read_entities h (_entities self) ++ [ent])).

(** [_MapperEntity(self, entity)] followed by [self.__setup_aliasizers([m])]:
    the entity is appended to [self._entities] and set up. *)
Definition new_mapper_entity (self : Query) (info : entity_info) : M heap unit :=
  h ← get;
  let primary_entity :=
    match read_entities h (_entities self) with [] => true | _ => false end in
  '(adapter_, with_poly) ← setup_aliasizer self info;
  entities_append self
    (MapperEntity primary_entity (ei_mapper info) (ei_is_aliased_class info)
                  (ei_selectable info) adapter_ with_poly).

(** [_ColumnEntity(self, column)] followed by [self.__setup_aliasizers([c])] *)
Definition new_column_entity (self : Query) (column : clause)
    (parents : list entity_info) : M heap unit :=
  mapM (setup_aliasizer self) parents;;
  entities_append self (ColumnEntity column parents).

(** [Query.__init__] for a list of mapped entities: every collection of
    the new query is a new object. *)
Definition Query_init (ents : list entity_info) : M heap Query :=
  params_loc ← alloc (CParams ∅);
  attributes_loc ← alloc (CAttributes ∅);
  entities_loc ← alloc (CEntities []);
  adapters_loc ← alloc (CAdapters ∅);
  tables_loc ← alloc (CTables ∅);
  let self :=
    mkQuery [] None None None false None None None params_loc None None []
            None false None false false true attributes_loc [] None
            entities_loc adapters_loc None None tables_loc None false in
  mapM (new_mapper_entity self) ents;;
  ret self.

(** [add_entity]:
<<
    if alias:
        entity = aliased(entity, alias)
    self._entities = list(self._entities)
    m = _MapperEntity(self, entity)
    self.__setup_aliasizers([m])
>>
    ([entity] is given with the alias already applied). *)
Definition add_entity_body (info : entity_info) (self : Query) : M heap Query :=
  h ← get;
  l ← alloc (CEntities (read_entities h (_entities self)));
  let self := set_entities l self in
  new_mapper_entity self info;;
  ret self.
Definition add_entity (info : entity_info) : Query -> M heap Query :=
  _generative [] (add_entity_body info).

(** [add_column] *)
Definition add_column_body (column : clause) (parents : list entity_info)
    (self : Query) : M heap Query :=
  h ← get;
  l ← alloc (CEntities (read_entities h (_entities self)));
  let self := set_entities l self in
  new_column_entity self column parents;;
  ret self.
Definition add_column (column : clause) (parents : list entity_info)
  : Query -> M heap Query :=
  _generative [] (add_column_body column parents).

(** [with_polymorphic], with [_generate_mapper_zero] and
    [_MapperEntity.set_with_polymorphic]:
<<
    entity = self._generate_mapper_zero()
    entity.set_with_polymorphic(self, cls_or_mappers, selectable=selectable)
>>
    [spec] is [None] when [cls_or_mappers] is [None], and otherwise what
    [mapper._with_polymorphic_args(cls_or_mappers, selectable)] returns. *)
Definition with_polymorphic_body (spec : option (list string * selectable))
    (self : Query) : M heap Query :=
  h ← get;
  match read_entities h (_entities self) with
  | [] => raise IndexError
  | ColumnEntity _ _ :: _ => raise InvalidRequestError
  | MapperEntity primary m is_aliased sel adp wp :: rest =>
      if negb primary then raise InvalidRequestError else
      l ← alloc (CEntities (MapperEntity primary m is_aliased sel adp wp :: rest));
      let self := set_entities l self in
      match spec with
      | None =>
          _reset_polymorphic_adapter self m;;
          ret self
      | Some (mappers, from_obj) =>
          if is_aliased then
            write l (CEntities
                       (MapperEntity primary m is_aliased sel adp (Some mappers) :: rest));;
            ret self
          else
            __mapper_loads_polymorphically_with self m from_obj;;
            write l (CEntities
                       (MapperEntity primary m is_aliased from_obj None (Some mappers)
                          :: rest));;
            ret self
      end
  end.
Definition with_polymorphic (spec : option (list string * selectable))
  : Query -> M heap Query :=
  _generative [__no_from_condition; __no_criterion_condition]
    (with_polymorphic_body spec).

(** *** [join] *)

(** One element of the [props] of a [join], with what the ORM helpers
    report about it: the relation property found for the ON clause (its
    table and secondary table), the mapper and name of the right-hand
    entity, and the FROM clause that the loop finds to join from when it
    has none yet. *)
Record relation_prop : Type := mkRelationProp {
  prop_table : table;
  prop_secondary : option table;
  prop_mapper : string
}.

Record join_key : Type := mkJoinKey {
  jk_prop : option relation_prop;
  jk_right_mapper : option mapper;
  jk_right_entity : string;
  jk_right_is_aliased_class : bool;
  jk_right_is_selectable : bool;
  jk_right_derived : bool;
  jk_mapped_table_is_join : bool;
  jk_from : option selectable
}.

(** The global names of the module: its imports and its definitions.
    None of them is shadowed by a local of the methods below, and the
    builtins have neither [exc] nor [exceptions]. *)
Definition module_globals : list string :=
  ["__all__"; "chain"; "sql"; "util"; "log"; "schema"; "sa_exc"; "orm_exc"; "sql_util";
   "expression"; "visitors"; "operators"; "attributes"; "interfaces";
   "mapper"; "object_mapper"; "evaluator"; "_state_mapper";
   "_is_mapped_class"; "_is_aliased_class"; "_entity_descriptor";
   "_entity_info"; "_class_to_mapper"; "_orm_columns"; "AliasedClass";
   "_orm_selectable"; "orm_join"; "ORMAdapter"; "aliased"; "_generative";
   "Query"; "_QueryEntity"; "_MapperEntity"; "_ColumnEntity"; "QueryContext";
   "AliasOption"; "_runid"; "_id_lock"; "_new_runid"].

(** Looking up a global name of the module *)
Definition global_name {S : Type} (name : string) : M S unit :=
  if bool_decide (name ∈ module_globals) then ret tt else raise (NameError name).

(** The end of a turn of the loop of [__join], once the right-hand entity
    is known:
<<
    clause = orm_join(clause, right_entity, onclause, isouter=outerjoin)
    if alias_criterion:
        self._filter_aliases = ORMAdapter(right_entity,
                equivalents=right_mapper._equivalent_columns, chain_to=self._filter_aliases)
        if aliased_entity:
            self.__mapper_loads_polymorphically_with(right_mapper, ORMAdapter(right_entity, equivalents=right_mapper._equivalent_columns))
>> *)
Definition join_onto (k : join_key) (outerjoin : bool) (clause_ : selectable)
    (right_entity : string) (alias_criterion aliased_entity : bool)
    (self : Query) : M heap (Query * option selectable) :=
  let clause_ := orm_join clause_ right_entity outerjoin in
  if alias_criterion then
    let self :=
      set_filter_aliases (Some (ORMAdapter right_entity (_filter_aliases self)))
                         self in
    (if aliased_entity then
       match jk_right_mapper k with
       | Some rm =>
           __mapper_loads_polymorphically_with self rm (ORMAdapter right_entity None)
       | None => ret tt
       end
     else ret tt);;
    ret (set_joinpoint (Some right_entity) self, Some clause_)
  else
    ret (set_joinpoint (Some right_entity) self, Some clause_).

(** The branch of the loop for a relation property whose target is joined
    without alias:
<<
    if prop.table in self.__currenttables:
        if prop.secondary is not None and prop.secondary not in self.__currenttables:
            raise sa_exc.InvalidRequestError(...)
        continue
    if prop.secondary:
        self.__currenttables.add(prop.secondary)
    self.__currenttables.add(prop.table)
    right_entity = prop.mapper
>> *)
Definition join_along (k : join_key) (outerjoin : bool) (clause_ : selectable)
    (prop : relation_prop) (self : Query) : M heap (Query * option selectable) :=
  h ← get;
  let tables := read_tables h (__currenttables self) in
  if bool_decide (prop_table prop ∈ tables) then
    match prop_secondary prop with
    | Some sec =>
        if bool_decide (sec ∈ tables)
        then ret (set_joinpoint (Some (jk_right_entity k)) self, Some clause_)
        else raise InvalidRequestError
    | None => ret (set_joinpoint (Some (jk_right_entity k)) self, Some clause_)
    end
  else
    let tables :=
      match prop_secondary prop with
      | Some sec => {[sec]} ∪ tables
      | None => tables
      end in
    write (__currenttables self) (CTables ({[prop_table prop]} ∪ tables));;
    join_onto k outerjoin clause_ (prop_mapper prop) false false self.

(** One turn of the loop of [__join]; the loop variables are the FROM
    clause built so far and the right-hand entity of the previous turn,
    which is kept in [_joinpoint]. *)
Definition join_step (outerjoin create_aliases : bool) (k : join_key)
    (st : Query * option selectable) : M heap (Query * option selectable) :=
  let '(self, clause_) := st in
  let clause_ := match clause_ with Some c => Some c | None => jk_from k end in
  match clause_ with
  | None =>
      (* raise exc.InvalidRequestError(...) *)
      global_name "exc";;
      raise InvalidRequestError
  | Some clause_ =>
      match jk_right_mapper k with
      | Some right_mapper =>
          if jk_right_is_aliased_class k then
            join_onto k outerjoin clause_ (jk_right_entity k) false false self
          else if jk_right_is_selectable k then
            if negb (jk_right_derived k) then raise InvalidRequestError
            else join_onto k outerjoin clause_ (aliased (jk_right_entity k))
                           true false self
          else if with_polymorphic_ right_mapper || jk_mapped_table_is_join k then
            join_onto k outerjoin clause_ (aliased (class_ right_mapper))
                      true true self
          else if create_aliases then
            join_onto k outerjoin clause_ (aliased (class_ right_mapper))
                      true false self
          else
            match jk_prop k with
            | Some prop => join_along k outerjoin clause_ prop self
            | None =>
                join_onto k outerjoin clause_ (jk_right_entity k) false false self
            end
      | None => join_onto k outerjoin clause_ (jk_right_entity k) false false self
      end
  end.

Fixpoint join_loop (outerjoin create_aliases : bool) (keys : list join_key)
    (st : Query * option selectable) : M heap (Query * option selectable) :=
  match keys with
  | [] => ret st
  | k :: rest =>
      st' ← join_step outerjoin create_aliases k st;
      join_loop outerjoin create_aliases rest st'
  end.

(** [__join]:
<<
    self.__currenttables = util.Set(self.__currenttables)
    self._polymorphic_adapters = self._polymorphic_adapters.copy()
    if not from_joinpoint:
        self.__reset_joinpoint()
    clause = self._from_obj
    right_entity = None
    for arg1 in util.to_list(keys):
        ...
    self._from_obj = clause
    self._joinpoint = right_entity
>>
    The right-hand entity of the last turn is kept in [_joinpoint] while
    the loop runs. *)
Definition __join_body (keys : list join_key)
    (outerjoin create_aliases from_joinpoint : bool) (self : Query)
  : M heap Query :=
  h ← get;
  tables_loc ← alloc (CTables (read_tables h (__currenttables self)));
  let self := set_currenttables tables_loc self in
  adapters_loc ← alloc (CAdapters (read_adapters h (_polymorphic_adapters self)));
  let self := set_polymorphic_adapters adapters_loc self in
  let self := if from_joinpoint then self else __reset_joinpoint self in
  '(self', clause_) ←
     join_loop outerjoin create_aliases keys
               (set_joinpoint None self, _from_obj self);
  ret (set_from_obj clause_ self').
Definition __join (keys : list join_key)
    (outerjoin create_aliases from_joinpoint : bool) : Query -> M heap Query :=
  _generative [__no_statement_condition; __no_limit_offset]
    (__join_body keys outerjoin create_aliases from_joinpoint).

(** [join] and [outerjoin] *)
Definition join (props : list join_key) (aliased_ from_joinpoint : bool)
  : Query -> M heap Query :=
  __join props false aliased_ from_joinpoint.
Definition outerjoin (props : list join_key) (aliased_ from_joinpoint : bool)
  : Query -> M heap Query :=
  __join props true aliased_ from_joinpoint.

(** *** The chainable calls *)

Inductive builder_call : Type :=
| Filter (criterion : criterion_arg)
| Having (criterion : criterion_arg)
| OrderBy (criterion : list clause)
| GroupBy (criterion : list clause)
| Join (props : list join_key) (aliased_ from_joinpoint : bool)
| Outerjoin (props : list join_key) (aliased_ from_joinpoint : bool)
| Slice (start stop : option Z)
| Limit (n : option Z)
| Offset (n : option Z)
| Distinct
| Params (args : list (gmap string value)) (kwargs : gmap string value)
| Options (opts : list MapperOption)
| FromStatement (stmt : statement)
| WithLabels
| YieldPer (count : option Z)
| Autoflush (setting : bool)
| PopulateExisting
| WithLockmode (mode : option string)
| Correlate (args : list selectable)
| ResetJoinpoint
| AddEntity (info : entity_info)
| AddColumn (column : clause) (parents : list entity_info)
| WithPolymorphic (spec : option (list string * selectable)).

Definition call (b : builder_call) : Query -> M heap Query :=
  match b with
  | Filter c => filter c
  | Having c => having c
  | OrderBy c => order_by c
  | GroupBy c => group_by c
  | Join props a f => join props a f
  | Outerjoin props a f => outerjoin props a f
  | Slice start stop => slice start stop
  | Limit n => limit n
  | Offset n => offset n
  | Distinct => distinct
  | Params args kwargs => params args kwargs
  | Options opts => options opts
  | FromStatement stmt => from_statement stmt
  | WithLabels => with_labels
  | YieldPer n => yield_per n
  | Autoflush b => autoflush b
  | PopulateExisting => populate_existing
  | WithLockmode m => with_lockmode m
  | Correlate args => correlate args
  | ResetJoinpoint => reset_joinpoint
  | AddEntity info => add_entity info
  | AddColumn c parents => add_column c parents
  | WithPolymorphic spec => with_polymorphic spec
  end.

(** The calls whose body writes into [_polymorphic_adapters] without
    rebinding it to a copy first: the entity set-up of [add_entity] and
    [add_column], and [set_with_polymorphic].  ([__join] copies the
    dictionary before its loop.) *)
Definition edits_shared_adapters (b : builder_call) : bool :=
  match b with
  | AddEntity _ | AddColumn _ _ | WithPolymorphic _ => true
  | _ => false
  end.

(** The collections of a query are objects of the heap. *)
Definition allocated (h : heap) (q : Query) : Prop :=
  (_params q < length h)%nat /\
  (_attributes q < length h)%nat /\
  (_entities q < length h)%nat /\
  (_polymorphic_adapters q < length h)%nat /\
  (__currenttables q < length h)%nat.

End Builder.

(** ** Compilation: the adapter of a mapped entity *)

(** [_MapperEntity._get_entity_clauses]:
<<
    adapter = None
    if not self.is_aliased_class and query._polymorphic_adapters:
        for mapper in self.mapper.iterate_to_root():
            adapter = query._polymorphic_adapters.get(mapper.mapped_table, None)
            if adapter:
                break
    if not adapter and self.adapter:
        adapter = self.adapter
    if adapter:
        if query._from_obj_alias:
            ret = adapter.wrap(query._from_obj_alias)
        else:
            ret = adapter
    else:
        ret = query._from_obj_alias
    return ret
>>
    The result is the chain of adapters that [setup_context] and
    [row_processor] translate the entity's columns with; no adapter, the
    empty chain. *)
Definition _get_entity_clauses (h : heap) (query : Query) (ent : entity)
  : list adapter :=
  match ent with
  | ColumnEntity _ _ => []
  | MapperEntity _ m is_aliased_class _ adapter_ _ =>
      let found :=
        if negb is_aliased_class then
          list_find (fun t =>
                       is_Some (read_adapters h (_polymorphic_adapters query) !! t))
                    (root_tables m)
          ≫= (fun it => read_adapters h (_polymorphic_adapters query) !! (snd it))
        else None in
      let a := match found with Some a => Some a | None => adapter_ end in
      match a with
      | Some a =>
          match _from_obj_alias query with
          | Some alias => [a; alias]
          | None => [a]
          end
      | None =>
          match _from_obj_alias query with
          | Some alias => [alias]
          | None => []
          end
      end
  end.

(** ** Execution

    The session, its identity map and the database belong to the session
    and statement layers.  A session is modelled by the database it talks
    to, the instances it tracks (the identity map, in iteration order, keyed
    by mapped class and primary key), and the log of the statements it was
    asked to execute. *)

Record row : Type := mkRow {
  r_pk : list Z;
  r_columns : gmap string value
}.

Definition identity_key : Type := (string * list Z)%type.

Record tracked : Type := mkTracked {
  t_dict : gmap string value;
  t_expired : gset string
}.

Inductive executed_statement : Type :=
| SelectRows (v : view)
| SelectStatement (s : statement)
| SelectPrimaryKeys (v : view)
| UpdateStatement (v : view) (values : list (string * update_value))
| DeleteStatement (v : view).


(** An element of [context.statement.froms] *)
Inductive from_item : Type :=
| FromTable (t : table)
| FromOther (s : selectable).

Class Database : Type := {
  DB : Type;
  (** the rows of the mapped table, in the order the cursor yields them *)
  table_rows : DB -> list row;
  (** whether a row satisfies a WHERE clause; no clause, no restriction *)
  where_holds : option clause -> row -> bool;
  (** the rows that a raw statement set by [from_statement] returns *)
  statement_rows : DB -> statement -> list row;
  (** [session._autoflush()] *)
  session_autoflush : DB -> DB;
  (** the effect of executing the UPDATE and DELETE statements *)
  run_update : DB -> view -> list (string * update_value) -> DB;
  run_delete : DB -> view -> DB;
  (** [context.statement.froms] for the statement compiled from a query *)
  statement_froms : view -> list from_item;
  (** [issubclass(cls, target_cls)] on mapped classes *)
  issubclass : string -> string -> bool
}.

Record session `{Database} : Type := mkSession {
  db : DB;
  identity_map : list (identity_key * tracked);
  executed : list executed_statement
}.
Arguments mkSession {_} _ _ _.

Record state `{Database} : Type := mkState {
  st_heap : heap;
  st_session : session
}.
Arguments mkState {_} _ _.

Section Execution.
Context `{sql : SqlLayer} `{database : Database} `{ops : Operators}.

(** Running a builder method from a method that also talks to the session *)
Definition on_heap {A : Type} (m : M heap A) : M state A :=
  fun st =>
    match m (st_heap st) with
    | (r, h') => (r, mkState h' (st_session st))
    end.

(** [session.execute(statement)]: the statement is logged *)
Definition log_statement (s : executed_statement) : M state unit :=
  modify (fun st =>
    mkState (st_heap st)
            (mkSession (db (st_session st)) (identity_map (st_session st))
                       (executed (st_session st) ++ [s]))).

Definition set_db (d : DB) : M state unit :=
  modify (fun st =>
    mkState (st_heap st)
            (mkSession d (identity_map (st_session st)) (executed (st_session st)))).

Definition set_identity_map (im : list (identity_key * tracked)) : M state unit :=
  modify (fun st =>
    mkState (st_heap st)
            (mkSession (db (st_session st)) im (executed (st_session st)))).

(** Modelled from the spec: the statement layer that compiles and executes
    a query is outside these sources.  For a query over one mapped table,
    the SELECT built from the query state returns the rows of the table
    that satisfy the criterion, in cursor order, without the first OFFSET
    rows and cut after LIMIT rows (section 4.6: state compiled into a
    single executable statement; section 4.7: the query carries the
    row-limiting semantics). *)
Definition select_rows (d : DB) (q : Query) : list row :=
  let matching := List.filter (where_holds (_criterion q)) (table_rows d) in
  let after_offset :=
    match _offset q with
    | Some n => drop (Z.to_nat n) matching
    | None => matching
    end in
  match _limit q with
  | Some n => take (Z.to_nat n) after_offset
  | None => after_offset
  end.

(** The rows that a query matches, its OFFSET applied and its LIMIT left
    aside *)
Definition matching_rows (d : DB) (q : Query) : list row :=
  let matching := List.filter (where_holds (_criterion q)) (table_rows d) in
  match _offset q with
  | Some n => drop (Z.to_nat n) matching
  | None => matching
  end.

(** The query that [self[0:2]] runs: the OFFSET kept, the LIMIT set to 2 *)
Definition first_two (q : Query) : Query :=
  set_limit (Some (2 - 0)) (set_offset (Some (default 0 (_offset q) + 0)) q).

(** The database that the SELECT of a query reads: flushed first, unless
    the query says otherwise *)
Definition database_seen (d : DB) (q : Query) : DB :=
  if _autoflush q && negb (_populate_existing q) then session_autoflush d else d.

(** [yield_per] left unset, or set to a positive batch size *)
Definition yield_per_positive (q : Query) : Prop :=
  match _yield_per q with Some n => 0 < n | None => True end.

(** [util.OrderedIdentitySet(rows)]: one entry per object, first
    occurrence kept.  The object materialized for a row is the identity
    map's instance for the row's primary key. *)
Fixpoint unique_instances (rows : list row) : list row :=
  match rows with
  | [] => []
  | r :: rest =>
      r :: List.filter (fun r' => negb (bool_decide (r_pk r' = r_pk r)))
                       (unique_instances rest)
  end.

(** The [while True] loop of [iterate_instances] with [yield_per] set:
    [cursor.fetchmany(n)] until a fetch comes back empty.  The cursor has
    finitely many rows, so [S (length rows)] turns are enough. *)
Fixpoint fetch_batches (turns : nat) (n : nat) (rows : list row) : list (list row) :=
  match turns with
  | O => []
  | S turns' =>
      match take n rows with
      | [] => []
      | fetch => fetch :: fetch_batches turns' n (drop n rows)
      end
  end.

(** [iterate_instances], for a query on a single mapped entity:
<<
    while True:
        if self._yield_per:
            fetch = cursor.fetchmany(self._yield_per)
            if not fetch:
                break
        else:
            fetch = cursor.fetchall()
        rows = [process[0](context, row) for row in fetch]
        if filter:
            rows = filter(rows)
        ...
        for row in rows:
            yield row
        if not self._yield_per:
            break
>> *)
Definition iterate_instances (self : Query) (cursor : list row) : list row :=
  match _yield_per self with
  | Some n =>
      if n =? 0 then unique_instances cursor
      else
        concat (map unique_instances
                    (fetch_batches (S (length cursor)) (Z.to_nat n) cursor))
  | None => unique_instances cursor
  end.

(** The lock modes that [_compile_context] knows *)
Definition lockmodes : list string := ["read"; "update"; "update_nowait"].

(** [self._lockmode] is false ([None] or the empty string), or a key of
    the dictionary of lock modes *)
Definition known_lockmode (self : Query) : bool :=
  match _lockmode self with
  | Some mode => bool_decide (mode = "") || bool_decide (mode ∈ lockmodes)
  | None => true
  end.

(** [_compile_context], up to the statement that the SQL layer builds:
<<
    context = QueryContext(self)

    if context.statement:
        return context

    if self._lockmode:
        try:
            for_update = {'read': 'read',
                          'update': True,
                          'update_nowait': 'nowait',
                          None: False}[self._lockmode]
        except KeyError:
            raise sa_exc.ArgumentError("Unknown lockmode '%s'" % self._lockmode)
    else:
        for_update = False
>>
    A query with a raw statement is not compiled, and its lock mode is not
    looked at. *)
Definition _compile_context (self : Query) : M state unit :=
  if not_None (_statement self) then ret tt
  else if known_lockmode self then ret tt
  else raise ArgumentError.

(** [list(self)], through [__iter__] and [_execute_and_instances]:
<<
    context = self._compile_context()
    context.statement.use_labels = True
    if self._autoflush and not self._populate_existing:
        self.session._autoflush()
    return self._execute_and_instances(context)
>> *)
Definition list_query (self : Query) : M state (list row) :=
  _compile_context self;;
  st ← get;
  (if _autoflush self && negb (_populate_existing self)
   then set_db (session_autoflush (db (st_session st)))
   else ret tt);;
  st ← get;
  match _statement self with
  | Some stmt =>
      log_statement (SelectStatement stmt);;
      ret (iterate_instances self (statement_rows (db (st_session st)) stmt))
  | None =>
      log_statement (SelectRows (snapshot (st_heap st) self));;
      ret (iterate_instances self (select_rows (db (st_session st)) self))
  end.

(** [all] *)
Definition all (self : Query) : M state (list row) := list_query self.

(** [some_list[start:stop]] for a Python list *)
Definition py_slice {A : Type} (l : list A) (start stop : Z) : list A :=
  let len := Z.of_nat (length l) in
  let clamp i := if i <? 0 then Z.max 0 (i + len) else Z.min i len in
  let a := clamp start in
  let b := clamp stop in
  take (Z.to_nat (b - a)) (drop (Z.to_nat a) l).

(** [list(self[start:stop])], through [__getitem__] with a slice without
    step:
<<
    start, stop, step = util.decode_slice(item)
    if start < 0 or stop < 0:
        return list(self)[item]
    else:
        res = self.slice(start, stop)
        ...
        return list(res)
>> *)
Definition getitem_slice (start stop : Z) (self : Query) : M state (list row) :=
  if (start <? 0) || (stop <? 0) then
    rows ← list_query self;
    ret (py_slice rows start stop)
  else
    res ← on_heap (slice (Some start) (Some stop) self);
    list_query res.

(** [first]:
<<
    if self._statement:
        return list(self)[0]
    else:
        ret = list(self[0:1])
        if len(ret) > 0:
            return ret[0]
        else:
            return None
>> *)
Definition first (self : Query) : M state (option row) :=
  if not_None (_statement self) then
    rows ← list_query self;
    match rows with
    | r :: _ => ret (Some r)
    | [] => raise IndexError
    end
  else
    rows ← getitem_slice 0 1 self;
    match rows with
    | r :: _ => ret (Some r)
    | [] => ret None
    end.

(** [one]:
<<
    if self._statement:
        raise exceptions.InvalidRequestError(
            "one() not available when from_statement() is used; "
            "use `first()` instead.")

    ret = list(self[0:2])

    if len(ret) == 1:
        return ret[0]
    elif len(ret) == 0:
        raise orm_exc.NoResultFound("No row was found for one()")
    else:
        raise orm_exc.MultipleResultsFound(
            "Multiple rows were found for one()")
>>
    Evaluating [exceptions.InvalidRequestError] starts with the lookup of
    the global [exceptions]. *)
Definition one (self : Query) : M state row :=
  if not_None (_statement self) then
    global_name "exceptions";;
    raise InvalidRequestError
  else
    rows ← getitem_slice 0 2 self;
    match rows with
    | [r] => ret r
    | [] => raise NoResultFound
    | _ => raise MultipleResultsFound
    end.

(** *** [update] and [delete] *)

(** How the session is brought in line with the statement: by evaluating
    the criterion in memory, by re-reading the primary keys of the affected
    rows, or not at all *)
Inductive sync_plan : Type :=
| PlanEvaluate (eval_condition : evaluator)
               (value_evaluators : list (string * evaluator))
| PlanRefetch
| PlanNothing.

(** The [for key,value in values.items()] loop that fills
    [value_evaluators] *)
Definition compile_values (values : list (string * update_value))
  : result (list (string * evaluator)) :=
  rmap (fun kv : string * update_value =>
          match process (_literal_as_binds (snd kv)) with
          | Ok ev => Ok (fst kv, ev)
          | Raise e => Raise e
          end) values.

(** The [try] block of [update]:
<<
    if synchronize_session == 'evaluate':
        try:
            evaluator_compiler = evaluator.EvaluatorCompiler()
            eval_condition = evaluator_compiler.process(self.whereclause)

            value_evaluators = {}
            for key,value in values.items():
                value_evaluators[key] = evaluator_compiler.process(expression._literal_as_binds(value))
        except evaluator.UnevaluatableError:
            synchronize_session = 'expire'
>> *)
Definition update_plan (synchronize_session : string) (whereclause : option clause)
    (values : list (string * update_value)) : result sync_plan :=
  if bool_decide (synchronize_session = "evaluate"%string) then
    match process_whereclause whereclause with
    | Ok eval_condition =>
        match compile_values values with
        | Ok value_evaluators => Ok (PlanEvaluate eval_condition value_evaluators)
        | Raise e => if is_UnevaluatableError e then Ok PlanRefetch else Raise e
        end
    | Raise e => if is_UnevaluatableError e then Ok PlanRefetch else Raise e
    end
  else if bool_decide (synchronize_session = "expire"%string) then Ok PlanRefetch
  else Ok PlanNothing.

(** The [try] block of [delete], whose fallback is called ['fetch'] *)
Definition delete_plan (synchronize_session : string) (whereclause : option clause)
  : result sync_plan :=
  if bool_decide (synchronize_session = "evaluate"%string) then
    match process_whereclause whereclause with
    | Ok eval_condition => Ok (PlanEvaluate eval_condition [])
    | Raise e => if is_UnevaluatableError e then Ok PlanRefetch else Raise e
    end
  else if bool_decide (synchronize_session = "fetch"%string) then Ok PlanRefetch
  else Ok PlanNothing.

(** [self._mapper_zero().class_] *)
Definition _mapper_zero_class (self : Query) : M state string :=
  st ← get;
  match read_entities (st_heap st) (_entities self) with
  | [] => raise IndexError
  | MapperEntity _ m _ _ _ _ :: _ => ret (class_ m)
  | ColumnEntity _ (p :: _) :: _ => ret (class_ (ei_mapper p))
  | ColumnEntity _ [] :: _ => raise (AttributeError "class_")
  end.

(** [for key,eval_value in value_evaluators.items():
       obj.__dict__[key] = eval_value(obj)]
    An exception leaves the assignments already made in place. *)
Fixpoint assign_values (value_evaluators : list (string * evaluator))
    (d : gmap string value) : result unit * gmap string value :=
  match value_evaluators with
  | [] => (Ok tt, d)
  | (k, eval_value) :: rest =>
      match eval_value d with
      | Ok v => assign_values rest (<[k := v]> d)
      | Raise e => (Raise e, d)
      end
  end.

(** The loop of [update] over [session.identity_map.iteritems()]:
<<
    for (cls, pk, entity_name),obj in session.identity_map.iteritems():
        if issubclass(cls, target_cls) and eval_condition(obj):
            for key,eval_value in value_evaluators.items():
                obj.__dict__[key] = eval_value(obj)
>> *)
Fixpoint evaluate_update (target_cls : string) (eval_condition : evaluator)
    (value_evaluators : list (string * evaluator))
    (im : list (identity_key * tracked))
  : result unit * list (identity_key * tracked) :=
  match im with
  | [] => (Ok tt, [])
  | (k, o) :: rest =>
      let continue_ (o' : tracked) :=
        match evaluate_update target_cls eval_condition value_evaluators rest with
        | (r, rest') => (r, (k, o') :: rest')
        end in
      if issubclass (fst k) target_cls then
        match eval_condition (t_dict o) with
        | Raise e => (Raise e, (k, o) :: rest)
        | Ok c =>
            if truthy c then
              match assign_values value_evaluators (t_dict o) with
              | (Ok _, d') => continue_ (mkTracked d' (t_expired o))
              | (Raise e, d') => (Raise e, (k, mkTracked d' (t_expired o)) :: rest)
              end
            else continue_ o
        end
      else continue_ o
  end.

(** Modelled from the spec: [session.expire(instance, attribute_names)]
    belongs to the session layer.  Expiring attributes discards their
    in-memory values and marks them so that the next read fetches the
    current database value (section 8, the expire scenario). *)
Definition session_expire (keys : list string) (o : tracked) : tracked :=
  mkTracked (foldr delete (t_dict o) keys) (t_expired o ∪ list_to_set keys).

(** [session.identity_map[identity_key]] updated in place, when present *)
Fixpoint alter_instance (f : tracked -> tracked) (key : identity_key)
    (im : list (identity_key * tracked)) : list (identity_key * tracked) :=
  match im with
  | [] => []
  | (k, o) :: rest =>
      if bool_decide (k = key) then (k, f o) :: rest
      else (k, o) :: alter_instance f key rest
  end.

(** The loop of [update] over the re-fetched primary keys:
<<
    for primary_key in matched_rows:
        identity_key = target_mapper.identity_key_from_primary_key(list(primary_key))
        if identity_key in session.identity_map:
            session.expire(session.identity_map[identity_key], values.keys())
>> *)
Fixpoint expire_matched (target_cls : string) (keys : list string)
    (matched_rows : list (list Z)) (im : list (identity_key * tracked))
  : list (identity_key * tracked) :=
  match matched_rows with
  | [] => im
  | primary_key :: rest =>
      expire_matched target_cls keys rest
        (alter_instance (session_expire keys) (target_cls, primary_key) im)
  end.

(** [update]:
<<
    context = self._compile_context()
    if len(context.statement.froms) != 1 or not isinstance(context.statement.froms[0], schema.Table):
        raise sa_exc.ArgumentError("Only update via a single table query is currently supported")
    primary_table = context.statement.froms[0]
    session = self.session
    (the try block above)
    update_stmt = sql.update(primary_table, context.whereclause, values)
    if synchronize_session == 'expire':
        select_stmt = context.statement.with_only_columns(primary_table.primary_key)
        matched_rows = session.execute(select_stmt).fetchall()
    session.execute(update_stmt)
    if synchronize_session == 'evaluate':
        target_cls = self._mapper_zero().class_
        (the loop over the identity map)
    elif synchronize_session == 'expire':
        target_mapper = self._mapper_zero()
        (the loop over matched_rows)
>> *)
Definition update (values : list (string * update_value))
    (synchronize_session : string) (self : Query) : M state unit :=
  st ← get;
  let context := snapshot (st_heap st) self in
  match statement_froms context with
  | [FromTable primary_table] =>
      match update_plan synchronize_session (_criterion self) values with
      | Raise e => raise e
      | Ok plan =>
          matched_rows ←
            match plan with
            | PlanRefetch =>
                log_statement (SelectPrimaryKeys context);;
                ret (map r_pk (select_rows (db (st_session st)) self))
            | _ => ret []
            end;
          log_statement (UpdateStatement context values);;
          set_db (run_update (db (st_session st)) context values);;
          match plan with
          | PlanEvaluate eval_condition value_evaluators =>
              target_cls ← _mapper_zero_class self;
              match evaluate_update target_cls eval_condition value_evaluators
                                    (identity_map (st_session st)) with
              | (r, im') =>
                  set_identity_map im';;
                  match r with Ok _ => ret tt | Raise e => raise e end
              end
          | PlanRefetch =>
              target_cls ← _mapper_zero_class self;
              set_identity_map
                (expire_matched target_cls (map fst values) matched_rows
                                (identity_map (st_session st)))
          | PlanNothing => ret tt
          end
      end
  | _ => raise ArgumentError
  end.

(** [session.expunge(obj)] for the instance stored under a key *)
Definition expunge (key : identity_key) (im : list (identity_key * tracked))
  : list (identity_key * tracked) :=
  List.filter (fun ko => negb (bool_decide (fst ko = key))) im.

(** [[obj for (cls, pk, entity_name),obj in session.identity_map.iteritems()
       if issubclass(cls, target_cls) and eval_condition(obj)]] *)
Fixpoint objs_to_expunge (target_cls : string) (eval_condition : evaluator)
    (im : list (identity_key * tracked)) : result (list identity_key) :=
  match im with
  | [] => Ok []
  | (k, o) :: rest =>
      if issubclass (fst k) target_cls then
        match eval_condition (t_dict o) with
        | Raise e => Raise e
        | Ok c =>
            match objs_to_expunge target_cls eval_condition rest with
            | Ok ks => Ok (if truthy c then k :: ks else ks)
            | Raise e => Raise e
            end
        end
      else objs_to_expunge target_cls eval_condition rest
  end.

(** [delete] *)
Definition delete (synchronize_session : string) (self : Query) : M state unit :=
  st ← get;
  let context := snapshot (st_heap st) self in
  match statement_froms context with
  | [FromTable primary_table] =>
      match delete_plan synchronize_session (_criterion self) with
      | Raise e => raise e
      | Ok plan =>
          matched_rows ←
            match plan with
            | PlanRefetch =>
                log_statement (SelectPrimaryKeys context);;
                ret (map r_pk (select_rows (db (st_session st)) self))
            | _ => ret []
            end;
          log_statement (DeleteStatement context);;
          set_db (run_delete (db (st_session st)) context);;
          match plan with
          | PlanEvaluate eval_condition _ =>
              target_cls ← _mapper_zero_class self;
              match objs_to_expunge target_cls eval_condition
                                    (identity_map (st_session st)) with
              | Ok ks =>
                  set_identity_map (foldl (fun im k => expunge k im)
                                          (identity_map (st_session st)) ks)
              | Raise e => raise e
              end
          | PlanRefetch =>
              target_cls ← _mapper_zero_class self;
              set_identity_map
                (foldl (fun im pk => expunge (target_cls, pk) im)
                       (identity_map (st_session st)) matched_rows)
          | PlanNothing => ret tt
          end
      end
  | _ => raise ArgumentError
  end.

End Execution.

End Query.

(* ===================================================================== *)
(** * orm/query.py: indexing a query                                      *)
(* ===================================================================== *)

Module QueryAccess.

Import Evaluator Query.

Section Access.
Context `{sql : SqlLayer} `{database : Database}.

(** [self[item]] for an integer [item], the last branch of [__getitem__]:
<<
    else:
        return list(self[item:item+1])[0]
>>
    [self[item:item+1]] is [__getitem__] again, on a slice without step. *)
Definition getitem_index (item : Z) (self : Query) : M state row :=
  rows ← getitem_slice item (item + 1) self;
  match rows with
  | r :: _ => ret r
  | [] => raise IndexError
  end.

End Access.

End QueryAccess.

(* ===================================================================== *)
(** * orm/strategies.py: DeferredColumnLoader                             *)
(* ===================================================================== *)

Module Strategies.

Import Attributes.

(** A column property of a mapper, as the deferred loader reads it: its
    attribute [key], the key of [columns[0]] in a result row, its deferral
    [group], and whether its strategy is a [DeferredColumnLoader]. *)
Record ColumnProperty : Type := mkColumnProperty {
  key : string;
  column : string;
  group : option string;
  is_deferred : bool
}.

(** The mapper of the instance: [props.values()], and the attribute keys
    of the primary key columns of the mapped table
    ([pks_by_table[table]], or [table.primary_key]). *)
Record Mapper : Type := mkMapper {
  props : list ColumnProperty;
  pk : list string
}.

(** One execution of a SELECT by the session: the columns asked for and
    the primary key values that the WHERE clause compares with *)
Record fetch : Type := mkFetch {
  f_columns : list string;
  f_pk : list value
}.

(** What lies outside the instance: whether it has a mapper
    ([mapper.has_mapper]), whether it is attached to a session
    ([object_session(instance) is not None]), the row that the table holds
    for given primary key values, and the log of the fetches made. *)
Record env : Type := mkEnv {
  has_mapper : bool;
  has_session : bool;
  table_row : list value -> option (gmap string value);
  fetches : list fetch
}.

(** The closure [lazyload] that [setup_loader] returns: it captures the
    loader ([self]: key, column and group of its property) and the mapper
    of the instance. *)
Record lazyload : Type := mkLazyload {
  self_key : string;
  self_column : string;
  self_group : option string;
  localparent : Mapper
}.

(** [row[column]]; a selected column without value in the row is NULL *)
Definition row_get (row : gmap string value) (col : string) : value :=
  default VNone (row !! col).

(** Modelled from the spec: [Mapper._getattrbycolumn(instance, column)]
    belongs to the mapper; it reads the attribute that maps the column,
    and an attribute never set reads as [None] (section 4.5: the lazy
    callables use the instance's current primary key values). *)
Definition _getattrbycolumn {C : Type} (inst : instance C) (attr : string) : value :=
  dict_get (__dict__ inst) attr.

(** Modelled from the spec: [AttributeManager.init_instance_attribute] is
    not defined in attributes.py.  Called without a callable it gives the
    attribute a per-instance state with no Lazy Slot: a clean History
    Tracker ([original] NONE), as the registry creates for an attribute
    that has none (section 4.1); the value is then stored directly in the
    instance dictionary (section 4.5, "clean" load data). *)
Definition init_instance_attribute {C : Type} (k : string) (inst : instance C)
  : instance C :=
  mkInstance (__dict__ inst)
             (Some (<[k := HProp (PropHistory_init k)]>
                      (default ∅ (_managed_attributes inst)))).

(** [instance.__dict__[key] = v] *)
Definition instance_setitem {C : Type} (k : string) (v : value) (inst : instance C)
  : instance C :=
  mkInstance (<[k := v]> (__dict__ inst)) (_managed_attributes inst).

(** The primary key loop of [lazyload]:
<<
    clause = sql.and_()
    for primary_key in pk:
        attr = self.parent._getattrbycolumn(instance, primary_key)
        if not attr:
            return None
        clause.clauses.append(primary_key == attr)
>>
    [None] when some attribute is false. *)
Fixpoint pk_clause {C : Type} (inst : instance C) (pk_attrs : list string)
  : option (list value) :=
  match pk_attrs with
  | [] => Some []
  | a :: rest =>
      let attr := _getattrbycolumn inst a in
      if negb (truthy attr) then None
      else match pk_clause inst rest with
           | Some vs => Some (attr :: vs)
           | None => None
           end
  end.

(** [[p for p in localparent.props.values()
       if isinstance(p.strategy, DeferredColumnLoader) and p.group==self.group]] *)
Definition groupcols (m : Mapper) (g : string) : list ColumnProperty :=
  List.filter (fun p => is_deferred p && bool_decide (group p = Some g)) (props m).

(** The loop over the group:
<<
    for prop in groupcols:
        if prop is self:
            continue
        sessionlib.attribute_manager.init_instance_attribute(instance, prop.key, uselist=False)
        instance.__dict__[prop.key] = row[prop.columns[0]]
>>
    [prop] is a property and [self] a loader, so [prop is self] is false
    for every [prop].  When no row came back, [row] is [None] and
    [row[...]] raises [TypeError]. *)
Fixpoint populate_group {C : Type} (row : option (gmap string value))
    (cols : list ColumnProperty) (inst : instance C) : result unit * instance C :=
  match cols with
  | [] => (Ok tt, inst)
  | prop :: rest =>
      let inst := init_instance_attribute (key prop) inst in
      match row with
      | None => (Raise TypeError, inst)
      | Some r =>
          populate_group row rest (instance_setitem (key prop) (row_get r (column prop)) inst)
      end
  end.

(** [lazyload()]:
<<
    (the primary key loop)
    session = sessionlib.object_session(instance)
    if session is None:
        raise exceptions.InvalidRequestError(...)
    localparent = mapper.object_mapper(instance)
    if self.group is not None:
        groupcols = [...]
        result = session.execute(localparent, sql.select([g.columns[0] for g in groupcols], clause, use_labels=True), None)
        try:
            row = result.fetchone()
            (the loop over the group)
            return row[self.columns[0]]
        finally:
            result.close()
    else:
        return session.scalar(localparent, sql.select([self.columns[0]], clause, use_labels=True),None)
>> *)
Definition run_lazyload (c : lazyload) (inst : instance lazyload) (e : env)
  : result value * instance lazyload * env :=
  match pk_clause inst (pk (localparent c)) with
  | None => (Ok VNone, inst, e)
  | Some pk_values =>
      if negb (has_session e) then (Raise InvalidRequestError, inst, e)
      else
        match self_group c with
        | Some g =>
            let cols := groupcols (localparent c) g in
            let e' := mkEnv (has_mapper e) (has_session e) (table_row e)
                            (fetches e ++ [mkFetch (map column cols) pk_values]) in
            let row := table_row e pk_values in
            match populate_group row cols inst with
            | (Raise ex, inst') => (Raise ex, inst', e')
            | (Ok _, inst') =>
                match row with
                | Some r => (Ok (row_get r (self_column c)), inst', e')
                | None => (Raise TypeError, inst', e')
                end
            end
        | None =>
            let e' := mkEnv (has_mapper e) (has_session e) (table_row e)
                            (fetches e ++ [mkFetch [self_column c] pk_values]) in
            match table_row e pk_values with
            | Some r => (Ok (row_get r (self_column c)), inst, e')
            | None => (Ok VNone, inst, e')
            end
        end
  end.

#[global] Instance lazyload_sem : CallableSem lazyload env := run_lazyload.

(** [DeferredColumnLoader.setup_loader(instance)] for the loader of
    property [p]:
<<
    if not mapper.has_mapper(instance):
        return None
    else:
        prop = mapper.object_mapper(instance).props[self.key]
        if prop is not self.parent_property:
            return prop._get_strategy(DeferredColumnLoader).setup_loader(instance)
    def lazyload(): ...
    return lazyload
>>
    The property found under the key in the instance's own mapper is the
    one whose loader builds the closure. *)
Definition setup_loader (m : Mapper) (p : ColumnProperty) (e : env) : option lazyload :=
  if negb (has_mapper e) then None
  else
    match List.find (fun q => bool_decide (key q = key p)) (props m) with
    | Some prop => Some (mkLazyload (key prop) (column prop) (group prop) m)
    | None => None
    end.

(** [process_row] for a new instance, in the branch that installs the
    per-instance loader:
<<
    sessionlib.attribute_manager.init_instance_attribute(instance, self.key, False,
        callable_=self.setup_loader(instance, selectcontext.options))
>>
    Installing a callable for an attribute is [set_callable] of
    attributes.py; no callable, a plain tracker. *)
Definition install_deferred (m : Mapper) (p : ColumnProperty)
    (w : world lazyload env) : world lazyload env :=
  match setup_loader m p (ext w) with
  | Some c => snd (set_callable (key p) c w)
  | None => mkWorld (init_instance_attribute (key p) (obj w)) (ext w) (invoked w)
  end.

(** The number of SELECTs the session has executed *)
Definition fetch_count (w : world lazyload env) : nat := length (fetches (ext w)).

End Strategies.

(* ===================================================================== *)
(** * Sample collaborators                                                *)
(* ===================================================================== *)

(** Small instances of the layers that the modelled code consumes, for
    running it on concrete inputs. *)
Module Examples.

Import Evaluator Query.

(** Column references rewritten against an adapter: the key is qualified
    with the adapter's selectable. *)
Fixpoint adapt_columns (target : string) (c : clause) : clause :=
  match c with
  | Grouping e => Grouping (adapt_columns target e)
  | Column pk k => Column pk (target +:+ "." +:+ k)
  | ClauseList op cs => ClauseList op (map (adapt_columns target) cs)
  | Binary l op r => Binary (adapt_columns target l) op (adapt_columns target r)
  | Unary op e => Unary op (adapt_columns target e)
  | other => other
  end.

Definition adapter_target (f : adapter_fn) : option string :=
  match f with
  | FilterAliases a => Some a
  | AdaptPolymorphic d =>
      match map_to_list d with
      | (_, a) :: _ => Some a
      | [] => None
      end
  | FromObjAlias a => Some a
  end.

#[global] Instance sample_sql : SqlLayer := {|
  sql_text := fun _ => Other "textclause";
  clause_and := fun a b => ClauseList operators.and_ [a; default Null b];
  replacement_traverse := fun _ adapters c =>
    match adapters with
    | f :: _ =>
        match adapter_target f with
        | Some t => adapt_columns t <$> c
        | None => c
        end
    | [] => c
    end;
  _literal_as_text := fun c => c;
  _orm_columns := fun c => [c];
  _literal_as_binds := fun v =>
    match v with
    | Literal VNone => Null
    | Literal x => Bindparam x
    | Expression c => c
    end;
  orm_join := fun l r isouter =>
    l +:+ (if isouter then " LEFT OUTER JOIN " else " JOIN ") +:+ r;
  aliased := fun n => n +:+ "_1";
  ORMAdapter := fun n _ => n;
  compile_statement := fun v =>
    match v_entities v with
    | MapperEntity _ m _ sel _ _ :: _ =>
        "SELECT * FROM " +:+
        default sel (v_polymorphic_adapters v !! mapped_table m)
    | _ => "SELECT"
    end
|}.

#[global] Instance sample_operators : Operators := int_operators.

(** A database that is the list of the rows of one table; WHERE clauses
    are decided by the in-memory evaluator on the row's columns. *)
#[global] Instance sample_database : Database := {|
  DB := list row;
  table_rows := fun d => d;
  where_holds := fun c r =>
    match c with
    | None => true
    | Some c =>
        match process c with
        | Ok ev => match ev (r_columns r) with Ok v => truthy v | Raise _ => false end
        | Raise _ => false
        end
    end;
  statement_rows := fun d _ => d;
  session_autoflush := fun d => d;
  run_update := fun d _ _ => d;
  run_delete := fun d _ => d;
  statement_froms := fun v =>
    match v_entities v with
    | MapperEntity _ m _ _ _ _ :: _ => [FromTable (mapped_table m)]
    | _ => []
    end;
  issubclass := fun cls target => bool_decide (cls = target)
|}.

(** A plain mapper of class [User] on table [users], and a polymorphic
    hierarchy [Person] / [Engineer] on [people] and [engineers]. *)
Definition user_mapper : mapper :=
  mkMapper "User" false [] [] "users" ["users"].
Definition person_mapper : mapper :=
  mkMapper "Person" false ["Person"] ["people"; "people"] "people" ["people"].
Definition User : entity_info := mkEntityInfo user_mapper "users" false.
Definition Person : entity_info := mkEntityInfo person_mapper "people" false.

(** [users.id == n], [users.name == s] as clauses *)
Definition id_eq (n : Z) : clause :=
  Binary (Column None "id") operators.eq (Bindparam (VInt n)).
Definition user_row (id : Z) (name : string) : row :=
  mkRow [id] {["id" := VInt id; "name" := VStr name]}.

(** A session on the given rows, tracking nothing, with nothing executed *)
Definition fresh_session (rows : list row) : session := mkSession rows [] [].

(** The query and the heap that [Query(entity)] makes from an empty heap,
    for a class with a plain mapper: five new collections, the entity list
    holding the one entity. *)
Definition new_query : Query :=
  mkQuery [] None None None false None None None 0%nat None None []
          None false None false false true 1%nat [] None
          2%nat 3%nat None None 4%nat None false.

Definition new_heap (info : entity_info) : heap :=
  [CParams ∅; CAttributes ∅;
   CEntities [MapperEntity true (ei_mapper info) (ei_is_aliased_class info)
                           (ei_selectable info) None None];
   CAdapters ∅; CTables ∅].

(** Two users *)
Definition two_users : list row := [user_row 1 "ed"; user_row 2 "jack"].

(** [session.query(User)] in a session on the two users *)
Definition users_state : state := mkState (new_heap User) (fresh_session two_users).

(** [query(User).limit(1)], [query(User).filter(id == 2)] and
    [query(User).filter(id == 2).offset(1)] *)
Definition first_user : Query := set_limit (Some 1) new_query.
Definition user_two : Query := set_criterion (Some (id_eq 2)) new_query.
Definition after_user_two : Query := set_offset (Some 1) user_two.

Definition tracked_user (id : Z) (name : string) : identity_key * tracked :=
  (("User", [id]), mkTracked {["id" := VInt id; "name" := VStr name]} ∅).

(** [session.query(func.now())]: a query on a column expression that
    belongs to no table, whose statement has no FROM *)
Definition columns_state : state :=
  mkState [CParams ∅; CAttributes ∅;
           CEntities [ColumnEntity (Other "function") []];
           CAdapters ∅; CTables ∅]
          (mkSession two_users [tracked_user 1 "ed"; tracked_user 2 "jack"] []).

(** [query(User).from_statement("SELECT * FROM users")] *)
Definition raw_users : Query :=
  set_statement (Some "SELECT * FROM users") (set_joined_tables true new_query).

(** [query(Person)], and the heap after
    [query(Person).with_polymorphic(Engineer)] *)
Definition polymorphic_heap : heap :=
  snd (with_polymorphic (Some (["Engineer"], "people_join_engineers"))
                        new_query (new_heap Person)).

(** A join to a target that is loaded polymorphically *)
Definition engineer_mapper : mapper :=
  mkMapper "Engineer" true ["Engineer"] ["engineers"; "people"] "engineers"
           ["engineers"; "people"].
Definition to_engineers : join_key :=
  mkJoinKey None (Some engineer_mapper) "Engineer" false false true false
            (Some "people").

(** A mapped class with two deferred columns in the group [text]: the
    table [documents] holds one row, whose primary key is 0. *)
Definition body_prop : Strategies.ColumnProperty :=
  Strategies.mkColumnProperty "body" "documents_body" (Some "text") true.
Definition summary_prop : Strategies.ColumnProperty :=
  Strategies.mkColumnProperty "summary" "documents_summary" (Some "text") true.
Definition document_mapper : Strategies.Mapper :=
  Strategies.mkMapper
    [Strategies.mkColumnProperty "id" "documents_id" None false;
     body_prop; summary_prop]
    ["id"].
Definition document_row (id : Z) : gmap string value :=
  {["documents_id" := VInt id; "documents_body" := VStr "text of the body";
    "documents_summary" := VStr "short"]}.
Definition documents (id : Z) : Strategies.env :=
  Strategies.mkEnv true true
    (fun pk => match pk with
               | [VInt n] => if n =? id then Some (document_row id) else None
               | _ => None
               end)
    [].

(** The instance loaded from the row with primary key [id], its two
    deferred columns left to their lazy slots *)
Definition document (id : Z)
  : Attributes.world Strategies.lazyload Strategies.env :=
  Strategies.install_deferred document_mapper summary_prop
    (Strategies.install_deferred document_mapper body_prop
       (Attributes.mkWorld (Attributes.mkInstance {["id" := VInt id]} None)
                           (documents id) [])).

(** The same two columns deferred without a group, and the instance
    loaded from the row [id] of a table that holds the row [stored], in a
    session or detached *)
Definition plain_body : Strategies.ColumnProperty :=
  Strategies.mkColumnProperty "body" "documents_body" None true.
Definition plain_summary : Strategies.ColumnProperty :=
  Strategies.mkColumnProperty "summary" "documents_summary" None true.
Definition memo_mapper : Strategies.Mapper :=
  Strategies.mkMapper
    [Strategies.mkColumnProperty "id" "documents_id" None false;
     plain_body; plain_summary]
    ["id"].
Definition instance_of (m : Strategies.Mapper)
    (deferred : list Strategies.ColumnProperty) (id stored : Z) (in_session : bool)
  : Attributes.world Strategies.lazyload Strategies.env :=
  foldl (fun w p => Strategies.install_deferred m p w)
        (Attributes.mkWorld (Attributes.mkInstance {["id" := VInt id]} None)
           (Strategies.mkEnv true in_session
              (Strategies.table_row (documents stored)) [])
           [])
        deferred.

(** An instance that holds 1 under [x], tracked by a clean tracker *)
Definition tracked_x : Attributes.world Attributes.probe unit :=
  Attributes.mkWorld (Attributes.mkInstance {["x" := VInt 1]}
                      (Some {["x" := Attributes.HProp (Attributes.PropHistory_init "x")]})) tt [].

(** The same instance with [x] behind a lazy slot and no value loaded *)
Definition lazy_x : Attributes.world Attributes.probe unit :=
  Attributes.mkWorld (Attributes.mkInstance ∅
             (Some {["x" := Attributes.HCallable (Attributes.mkCallableProp "x" (Attributes.Probe (VInt 7)))]}))
          tt [].

End Examples.

(* ===================================================================== *)
(** * Notions used in the statements                                      *)
(* ===================================================================== *)

Module Sync.

Import Evaluator Query.

Section Sync.
Context `{database : Database}.





(** [d.update(lits)] *)
Definition dict_update (lits : list (string * value)) (d : gmap string value)
  : gmap string value :=
  foldl (fun d kv => <[fst kv := snd kv]> d) d lits.





End Sync.

End Sync.

(* ===================================================================== *)
(** * Predicates and induction principles of the proofs                 *)
(* ===================================================================== *)

Module Notions.

Import Attributes Evaluator Query.

(** A value that a scalar slot accepts *)
Definition scalar (v : value) : Prop := isinstance_list v = false.

(** An instance whose dictionary is [d], with no trackers yet. *)
Definition fresh_world (d : gmap string value) : world probe unit :=
  mkWorld (mkInstance d None) tt [].

(** The number of times the probe has been invoked *)
Definition call_count (w : world probe unit) : nat := length (invoked w).

(** Every tracker of the side table is stored under its own key, as
    [get_history] and [CallableProp.getattr] store them. *)
Definition well_keyed {C : Type} (attrs : gmap string (hist C)) : Prop :=
  forall k p, attrs !! k = Some (HProp p) -> key p = k.

(** What [rollback] leaves under a key of the dictionary, and what
    [rollback] and [commit] leave under a key of the side table *)
Definition rolled_back {C : Type} (d : gmap string value)
    (attrs : gmap string (hist C))
    (k : string) : option value :=
  match attrs !! k with
  | Some (HProp p) =>
      match orig p with
      | Orig x => Some x
      | NONE => d !! k
      end
  | _ => d !! k
  end.

Definition cleaned {C : Type} (attrs : gmap string (hist C)) (k : string)
  : option (hist C) :=
  match attrs !! k with
  | Some (HProp p) => Some (HProp (PropHistory_init k))
  | other => other
  end.

(** The evaluator returns a true value on the object *)
Definition returns_true (o : object) (ev : evaluator) : Prop :=
  exists v, ev o = Ok v /\ truthy v = true.

(** The clauses that the compiler has a complete method for: groupings,
    NULL, columns, bound values, conjunctions and disjunctions, IS NOT and
    the straight operators between two operands, and NOT. *)
Fixpoint supported (c : clause) : bool :=
  match c with
  | Grouping e => supported e
  | Null | Column _ _ | Bindparam _ => true
  | ClauseList op cs =>
      (bool_decide (op = operators.and_) || bool_decide (op = operators.or_))
      && forallb supported cs
  | Binary l op r =>
      supported l && supported r
      && (bool_decide (op = operators.isnot) || in_straight_ops op)
  | Unary op e => bool_decide (op = operators.inv) && supported e
  | Other _ => false
  end.

(** The truth value of a disjunction in SQL from the values of its
    operands: true when one is true, else NULL when one is NULL, else
    false *)
Definition sql_or (vs : list value) : value :=
  if existsb truthy vs then VBool true
  else if existsb is_None vs then VNone
  else VBool false.

Section ClauseInduction.
Import Evaluator.

Variable P : clause -> Prop.
Hypothesis HGrouping : forall e, P e -> P (Grouping e).
Hypothesis HNull : P Null.
Hypothesis HColumn : forall pk k, P (Column pk k).
Hypothesis HClauseList : forall op cs, Forall P cs -> P (ClauseList op cs).
Hypothesis HBinary : forall l op r, P l -> P r -> P (Binary l op r).
Hypothesis HUnary : forall op e, P e -> P (Unary op e).
Hypothesis HBindparam : forall v, P (Bindparam v).
Hypothesis HOther : forall n, P (Other n).

(** Induction on clauses that reaches the operands of a clause list *)
Fixpoint clause_rect' (c : clause) : P c :=
  match c with
  | Grouping e => HGrouping e (clause_rect' e)
  | Null => HNull
  | Column pk k => HColumn pk k
  | ClauseList op cs =>
      HClauseList op cs
        ((fix all (cs : list clause) : Forall P cs :=
            match cs with
            | [] => List.Forall_nil P
            | c' :: cs' => @List.Forall_cons _ P c' cs' (clause_rect' c') (all cs')
            end) cs)
  | Binary l op r => HBinary l op r (clause_rect' l) (clause_rect' r)
  | Unary op e => HUnary op e (clause_rect' e)
  | Bindparam v => HBindparam v
  | Other n => HOther n
  end.

End ClauseInduction.

(** The chainable calls that add to the criteria of the statement, and
    the ones that set its row window or DISTINCT *)
Definition adds_criteria (b : builder_call) : bool :=
  match b with
  | Filter _ | Having _ | OrderBy _ | GroupBy _ | Join _ _ _ | Outerjoin _ _ _ => true
  | _ => false
  end.

Definition sets_window (b : builder_call) : bool :=
  match b with
  | Slice _ _ | Limit _ | Offset _ | Distinct => true
  | _ => false
  end.

Section Builder.
Context `{sql : SqlLayer}.
Implicit Types (q self : Query) (h : heap).

(** Nothing rewrites the clauses given to the query: no alias for
    filtering, no polymorphic adapter, no alias of the FROM clause *)
Definition no_adapters h q : Prop :=
  _filter_aliases q = None /\
  read_adapters h (_polymorphic_adapters q) = ∅ /\
  _from_obj_alias q = None.

(** [keeps_heap]: the heap after the call extends the heap before it, and
    the query returned, if any, is allocated in it. *)
Definition keeps_heap (m : Query -> M heap Query) : Prop :=
  forall q h,
    allocated h q ->
    h `prefix_of` snd (m q h) /\
    forall q', fst (m q h) = Ok q' -> allocated (snd (m q h)) q'.

(** A guard condition: it raises or returns a query with the same
    collections, and does not touch the heap. *)
Definition is_guard (a : Query -> M heap Query) : Prop :=
  forall q h,
    snd (a q h) = h /\
    forall q', fst (a q h) = Ok q' -> forall h', allocated h' q -> allocated h' q'.

(** The locations of the two copies that [__join] makes *)
Definition join_locs h self : Prop :=
  __currenttables self = length h /\
  _polymorphic_adapters self = S (length h).

Definition same_collections (self self' : Query) : Prop :=
  _params self' = _params self /\
  _attributes self' = _attributes self /\
  _entities self' = _entities self /\
  _polymorphic_adapters self' = _polymorphic_adapters self /\
  __currenttables self' = __currenttables self.

(** What a turn of the loop leaves behind: the two copies, possibly
    edited, on top of the heap found; and the query it goes on with has
    the collections of the query it started from. *)
Definition turn_on_copies h (self : Query)
    (res : result (Query * option selectable) * heap) : Prop :=
  exists t' d',
    snd res = h ++ [CTables t'; CAdapters d'] /\
    forall self' clause', fst res = Ok (self', clause') -> same_collections self self'.

(** The query that the loop of [__join] starts from *)
Definition join_clone (from_joinpoint : bool) (q : Query) (h : heap) : Query :=
  let self := set_polymorphic_adapters (S (length h))
                (set_currenttables (length h) q) in
  set_joinpoint None (if from_joinpoint then self else __reset_joinpoint self).

(** No criterion, statement, FROM, LIMIT, OFFSET, GROUP BY or ORDER BY yet:
    the guards of [with_polymorphic] let the call through. *)
Definition bare (q : Query) : Prop :=
  _criterion q = None /\ _statement q = None /\ _from_obj q = None /\
  _limit q = None /\ _offset q = None /\
  criteria_truth (_group_by q) = false /\ criteria_truth (_order_by q) = false.

(** What [__no_criterion_condition] resets on the clone *)
Definition cleared (q : Query) : Query :=
  set_joined_tables true
    (set_distinct false (set_group_by None (set_order_by None
       (set_from_obj None (set_criterion None (set_statement None q)))))).

End Builder.

(** What the loop of [lazyload] over the group does to the instance for
    one property, given the row fetched *)
Definition load_column (r : gmap string value) (inst : instance Strategies.lazyload)
    (p : Strategies.ColumnProperty) : instance Strategies.lazyload :=
  Strategies.instance_setitem (Strategies.key p)
    (Strategies.row_get r (Strategies.column p))
    (Strategies.init_instance_attribute (Strategies.key p) inst).

(** The attribute of property [p] has the lazy slot that [setup_loader]
    makes for it. *)
Definition installed (m : Strategies.Mapper) (p : Strategies.ColumnProperty)
    (w : world Strategies.lazyload Strategies.env) : Prop :=
  exists attrs,
    _managed_attributes (obj w) = Some attrs /\
    attrs !! Strategies.key p =
      Some (HCallable
              (mkCallableProp (Strategies.key p)
                 (Strategies.mkLazyload (Strategies.key p) (Strategies.column p)
                                        (Strategies.group p) m))).

(** The query that [self[0:1]] runs: the OFFSET kept, the LIMIT set to 1 *)
Definition first_one (q : Query) : Query :=
  set_limit (Some (1 - 0)) (set_offset (Some (default 0 (_offset q) + 0)) q).

End Notions.
Import Notions.

(* ===================================================================== *)
(** * Properties of attributes.py                                         *)
(* ===================================================================== *)

Section PropHistoryProperties.
Import Attributes.

Implicit Types (self : PropHistory) (d : gmap string value) (v w u : value).


Lemma setattr_scalar self d v :
  scalar v ->
  setattr self d v =
    Ok ({| key := key self; orig := Orig (dict_get d (key self)) |},
        <[key self := v]> d).
Proof. unfold scalar, setattr. intros ->. reflexivity. Qed.

Lemma setattr_list self d v :
  isinstance_list v = true -> exists e, setattr self d v = Raise e.
Proof. unfold setattr. intros ->. eauto. Qed.

Lemma setattr_key self d v s' d' :
  setattr self d v = Ok (s', d') -> key s' = key self.
Proof.
  unfold setattr. destruct (isinstance_list v); [discriminate|].
  intros [= <- <-]. reflexivity.
Qed.

Lemma dict_get_insert d k v : dict_get (<[k := v]> d) k = v.
Proof. unfold dict_get. by rewrite lookup_insert_eq. Qed.

Lemma dict_get_Some d k v : d !! k = Some v -> dict_get d k = v.
Proof. unfold dict_get. by intros ->. Qed.

(** After any run of scalar assignments that ends with [w], the dictionary
    holds [w] and [orig] holds the value that was stored just before the
    last assignment. *)
Lemma setattr_seq_snoc self d vs w :
  Forall scalar vs -> scalar w ->
  exists s' d',
    setattr_seq self d (vs ++ [w]) = Ok (s', d') /\
    key s' = key self /\
    d' !! key self = Some w /\
    orig s' = Orig (default (dict_get d (key self)) (last vs)).
Proof.
  intros Hvs Hw. revert self d.
  induction Hvs as [|v vs Hv Hvs IH]; intros self d.
  - simpl. rewrite (setattr_scalar _ _ _ Hw). eexists _, _.
    repeat split; simpl; auto. by rewrite lookup_insert_eq.
  - simpl. rewrite (setattr_scalar _ _ _ Hv).
    destruct (IH {| key := key self; orig := Orig (dict_get d (key self)) |}
                 (<[key self := v]> d)) as (s' & d' & Hrun & Hk & Hd & Ho).
    simpl in *. exists s', d'. repeat split; auto.
    rewrite Ho, dict_get_insert. f_equal.
    destruct vs as [|x vs']; [reflexivity|].
    rewrite last_cons_cons.
    destruct (last (x :: vs')) eqn:Hl; [reflexivity|].
    apply last_None in Hl. discriminate.
Qed.

(** C1, as the code has it: on a clean tracker ([orig] is the NONE
    sentinel) the first [setattr] stores the pre-change value into [orig];
    every later [setattr] before a commit or rollback stores into [orig]
    the value assigned by the [setattr] just before it, so [orig] follows
    the assignments instead of keeping the first capture. *)
Theorem C1_setattr_recaptures_on_every_set :
  forall self d v vs w x,
    orig self = NONE ->
    scalar v -> Forall scalar vs -> scalar w ->
    last (v :: vs) = Some x ->
    (exists s1 d1,
        setattr self d v = Ok (s1, d1) /\
        orig s1 = Orig (dict_get d (key self)) /\
        d1 !! key self = Some v) /\
    (exists s2 d2,
        setattr_seq self d (v :: vs ++ [w]) = Ok (s2, d2) /\
        orig s2 = Orig x /\
        d2 !! key self = Some w).
Proof.
  intros self d v vs w x _ Hv Hvs Hw Hlast. split.
  - rewrite (setattr_scalar _ _ _ Hv). eexists _, _. repeat split; simpl.
    by rewrite lookup_insert_eq.
  - destruct (setattr_seq_snoc self d (v :: vs) w) as (s' & d' & Hrun & _ & Hd & Ho);
      [by constructor | done |].
    exists s', d'. repeat split; auto.
    rewrite Ho, Hlast. reflexivity.
Qed.

Lemma C1_setattr_recaptures_witness :
  exists s2 d2,
    setattr_seq (PropHistory_init "x") {["x" := VInt 1]}
                [VInt 2; VInt 3; VInt 4] = Ok (s2, d2) /\
    orig s2 = Orig (VInt 3) /\ d2 !! "x"%string = Some (VInt 4).
Proof.
  refine (proj2 (C1_setattr_recaptures_on_every_set
                   (PropHistory_init "x") {["x" := VInt 1]}
                   (VInt 2) [VInt 3] (VInt 4) (VInt 3) _ _ _ _ _));
    try reflexivity.
  repeat constructor.
Defined.

(** C1 as stated fails: with the attribute holding 1, [setattr(2)] captures
    1, but the following [setattr(3)] replaces the capture by 2. *)
Lemma C1_counterexample :
  exists s1 d1 s2 d2,
    orig (PropHistory_init "x") = NONE /\
    setattr (PropHistory_init "x") {["x" := VInt 1]} (VInt 2) = Ok (s1, d1) /\
    orig s1 = Orig (VInt 1) /\
    setattr s1 d1 (VInt 3) = Ok (s2, d2) /\
    orig s2 = Orig (VInt 2) /\
    orig s2 <> orig s1.
Proof.
  eexists _, _, _, _. repeat split; try reflexivity.
  simpl. rewrite dict_get_insert. discriminate.
Qed.

(** C2: when the attribute holds [u], [setattr(v)] followed by [rollback()]
    puts the dictionary back to what it was, [u] included, and resets
    [orig] to NONE; a second [rollback()] changes nothing. *)
Theorem C2_rollback_restores_and_is_idempotent :
  forall self d u v,
    d !! key self = Some u ->
    scalar v ->
    exists s1 d1,
      setattr self d v = Ok (s1, d1) /\
      d1 !! key self = Some v /\
      let s2 := fst (rollback s1 d1) in
      let d2 := snd (rollback s1 d1) in
      d2 !! key self = Some u /\ d2 = d /\ orig s2 = NONE /\
      rollback s2 d2 = (s2, d2).
Proof.
  intros self d u v Hu Hv.
  rewrite (setattr_scalar _ _ _ Hv). eexists _, _. split; [reflexivity|].
  split; [by rewrite lookup_insert_eq|].
  unfold rollback; simpl. rewrite (dict_get_Some _ _ _ Hu).
  rewrite insert_insert_eq, (insert_id _ _ _ Hu).
  repeat split; auto.
Qed.

Lemma C2_rollback_witness :
  exists s1 d1,
    setattr {| key := "x"; orig := Orig (VInt 0) |} {["x" := VInt 1]} (VInt 2)
      = Ok (s1, d1) /\
    d1 !! "x"%string = Some (VInt 2) /\
    let s2 := fst (rollback s1 d1) in
    let d2 := snd (rollback s1 d1) in
    d2 !! "x"%string = Some (VInt 1) /\ d2 = {["x" := VInt 1]} /\
    orig s2 = NONE /\ rollback s2 d2 = (s2, d2).
Proof.
  exact (C2_rollback_restores_and_is_idempotent
           {| key := "x"; orig := Orig (VInt 0) |} {["x" := VInt 1]}
           (VInt 1) (VInt 2) eq_refl eq_refl).
Defined.

End PropHistoryProperties.

Section ManagerProperties.
Import Attributes.
Context {C E : Type} `{sem : CallableSem C E}.

Implicit Types (w : world C E) (k : string) (c : C).

Ltac run :=
  unfold get_attribute, get_history, hist_getattr, gethistory,
    CallableProp_getattr, history_getitem, history_setitem, attribute_history,
    dict_setitem, invoke, try_KeyError, modify, get, put, raise,
    mbind, M_bind, bind, mret, M_ret, ret; simpl.

(** Reading an attribute whose tracker is a plain [PropHistory] returns the
    stored value and leaves the whole store as it is. *)
Lemma get_attribute_tracked w k attr p v :
  _managed_attributes (obj w) = Some attr ->
  attr !! k = Some (HProp p) ->
  key p = k ->
  __dict__ (obj w) !! k = Some v ->
  get_attribute k w = (Ok (Value v), w).
Proof.
  intros Hm Ha Hk Hd. run. rewrite Hm. simpl. rewrite Ha. simpl.
  unfold getattr. rewrite Hk, Hd. reflexivity.
Qed.

Lemma read_times_tracked n w k attr p v :
  _managed_attributes (obj w) = Some attr ->
  attr !! k = Some (HProp p) ->
  key p = k ->
  __dict__ (obj w) !! k = Some v ->
  read_times n k w = w.
Proof.
  intros Hm Ha Hk Hd. induction n as [|n IH]; [reflexivity|].
  simpl. rewrite (get_attribute_tracked _ _ _ _ _ Hm Ha Hk Hd). exact IH.
Qed.

(** The first read through an unresolved slot whose dictionary entry is
    missing or [None]. *)
Lemma get_attribute_resolves w k c attr v o' e' :
  _managed_attributes (obj w) = Some attr ->
  attr !! k = Some (HCallable (mkCallableProp k c)) ->
  dict_get (__dict__ (obj w)) k = VNone ->
  run_callable c (obj w) (ext w) = (Ok v, o', e') ->
  get_attribute k w =
    (Ok (Value v),
     mkWorld (mkInstance (<[k := v]> (__dict__ o'))
                (Some (<[k := HProp (PropHistory_init k)]>
                         (default ∅ (_managed_attributes o')))))
             e' (invoked w ++ [c])).
Proof.
  intros Hm Ha Hd Hrun. run. rewrite Hm. simpl. rewrite Ha. simpl.
  rewrite Hd. simpl. rewrite Hrun. simpl.
  destruct (_managed_attributes o') as [attr'|]; simpl;
    rewrite lookup_insert_eq; simpl; unfold getattr; simpl;
    rewrite lookup_insert_eq; reflexivity.
Qed.

(** The first read through a slot whose dictionary entry already holds a
    value other than [None]: the callable is skipped. *)
Lemma get_attribute_skips w k c attr u :
  _managed_attributes (obj w) = Some attr ->
  attr !! k = Some (HCallable (mkCallableProp k c)) ->
  __dict__ (obj w) !! k = Some u ->
  is_None u = false ->
  get_attribute k w =
    (Ok (Value u),
     mkWorld (mkInstance (__dict__ (obj w))
                (Some (<[k := HProp (PropHistory_init k)]> attr)))
             (ext w) (invoked w)).
Proof.
  intros Hm Ha Hd Hu. run. rewrite Hm. simpl. rewrite Ha. simpl.
  rewrite (dict_get_Some _ _ _ Hd), Hu. simpl. rewrite Hm. simpl.
  rewrite lookup_insert_eq. simpl. unfold getattr. simpl. rewrite Hd.
  reflexivity.
Qed.

Lemma set_callable_installs w0 k c :
  exists attr,
    snd (set_callable k c w0) =
      mkWorld (mkInstance (__dict__ (obj w0)) (Some attr)) (ext w0) (invoked w0) /\
    attr !! k = Some (HCallable (mkCallableProp k c)).
Proof.
  unfold set_callable. run.
  destruct (_managed_attributes (obj w0)) as [attr0|]; simpl;
    eexists; (split; [reflexivity|]); by rewrite lookup_insert_eq.
Qed.

(** C3, as the code has it.  Let a scalar lazy slot be installed with
    [set_callable] for attribute [k].
    - If the instance dictionary has no entry for [k], or holds [None], and
      the callable returns [v]: the first read invokes the callable exactly
      once, stores [v] in the dictionary, registers a clean [PropHistory]
      in place of the slot, and returns [v]; every later read returns [v]
      and leaves the store, hence the call log, as it is.
    - If the dictionary already holds a value [u] other than [None]: the
      first read returns [u] without invoking the callable, and still
      replaces the slot by a clean [PropHistory]; later reads invoke
      nothing either. *)
Theorem C3_lazy_slot_resolution :
  forall w0 k c,
    let w := snd (set_callable k c w0) in
    (forall v o' e',
        dict_get (__dict__ (obj w0)) k = VNone ->
        run_callable c (obj w) (ext w) = (Ok v, o', e') ->
        exists w1 attr1,
          get_attribute k w = (Ok (Value v), w1) /\
          invoked w1 = invoked w0 ++ [c] /\
          __dict__ (obj w1) !! k = Some v /\
          _managed_attributes (obj w1) = Some attr1 /\
          attr1 !! k = Some (HProp (PropHistory_init k)) /\
          forall n,
            read_times n k w1 = w1 /\
            get_attribute k (read_times n k w1) = (Ok (Value v), w1))
    /\
    (forall u,
        __dict__ (obj w0) !! k = Some u ->
        is_None u = false ->
        exists w1 attr1,
          get_attribute k w = (Ok (Value u), w1) /\
          invoked w1 = invoked w0 /\
          __dict__ (obj w1) !! k = Some u /\
          _managed_attributes (obj w1) = Some attr1 /\
          attr1 !! k = Some (HProp (PropHistory_init k)) /\
          forall n,
            read_times n k w1 = w1 /\
            get_attribute k (read_times n k w1) = (Ok (Value u), w1)).
Proof.
  intros w0 k c w.
  destruct (set_callable_installs w0 k c) as (attr & Hw & Hattr).
  fold w in Hw.
  assert (Hm : _managed_attributes (obj w) = Some attr) by (rewrite Hw; reflexivity).
  assert (Hdw : __dict__ (obj w) = __dict__ (obj w0)) by (rewrite Hw; reflexivity).
  assert (Hi : invoked w = invoked w0) by (rewrite Hw; reflexivity).
  clearbody w. clear Hw. split.
  - intros v o' e' Hd Hrun. rewrite <- Hdw in Hd.
    rewrite (get_attribute_resolves w k c attr v o' e' Hm Hattr Hd Hrun).
    eexists _, _. split; [reflexivity|]. simpl.
    assert (Hk : (<[k := HProp (PropHistory_init k)]>
                    (default ∅ (_managed_attributes o'))
                  : gmap string (hist C)) !! k = Some (HProp (PropHistory_init k)))
      by apply lookup_insert_eq.
    rewrite Hi.
    repeat split; try apply lookup_insert_eq.
    + eapply read_times_tracked; simpl; eauto. apply lookup_insert_eq.
    + erewrite read_times_tracked; simpl; eauto; try apply lookup_insert_eq.
      eapply get_attribute_tracked; simpl; eauto. apply lookup_insert_eq.
  - intros u Hd Hu. rewrite <- Hdw in Hd.
    rewrite (get_attribute_skips w k c attr u Hm Hattr Hd Hu).
    eexists _, _. split; [reflexivity|]. simpl.
    assert (Hk : (<[k := HProp (PropHistory_init k)]> attr
                  : gmap string (hist C)) !! k = Some (HProp (PropHistory_init k)))
      by apply lookup_insert_eq.
    repeat split; auto.
    + eapply read_times_tracked; simpl; eauto.
    + erewrite read_times_tracked; simpl; eauto.
      eapply get_attribute_tracked; simpl; eauto.
Qed.

End ManagerProperties.

Section ProbeExamples.
Import Attributes.


Lemma C3_lazy_slot_resolution_witness :
  (exists w1 attr1,
      get_attribute "x"
        (snd (set_callable "x" (Probe (VInt 7)) (fresh_world ∅)))
        = (Ok (Value (VInt 7)), w1) /\
      invoked w1 = [] ++ [Probe (VInt 7)] /\
      __dict__ (obj w1) !! "x"%string = Some (VInt 7) /\
      _managed_attributes (obj w1) = Some attr1 /\
      attr1 !! "x"%string = Some (HProp (PropHistory_init "x")) /\
      forall n,
        read_times n "x" w1 = w1 /\
        get_attribute "x" (read_times n "x" w1) = (Ok (Value (VInt 7)), w1))
  /\
  (exists w1 attr1,
      get_attribute "x"
        (snd (set_callable "x" (Probe (VInt 7)) (fresh_world {["x" := VInt 5]})))
        = (Ok (Value (VInt 5)), w1) /\
      invoked w1 = [] /\
      __dict__ (obj w1) !! "x"%string = Some (VInt 5) /\
      _managed_attributes (obj w1) = Some attr1 /\
      attr1 !! "x"%string = Some (HProp (PropHistory_init "x")) /\
      forall n,
        read_times n "x" w1 = w1 /\
        get_attribute "x" (read_times n "x" w1) = (Ok (Value (VInt 5)), w1)).
Proof.
  split.
  - exact (proj1 (C3_lazy_slot_resolution (fresh_world ∅) "x" (Probe (VInt 7)))
             (VInt 7) _ _ eq_refl eq_refl).
  - exact (proj2 (C3_lazy_slot_resolution (fresh_world {["x" := VInt 5]}) "x"
                    (Probe (VInt 7)))
             (VInt 5) eq_refl eq_refl).
Defined.

(** C3 as stated fails: a slot installed on an instance whose dictionary
    already holds 5 for the attribute is resolved without a single call of
    its callable, so two reads in sequence cost no fetch at all. *)
Lemma C3_counterexample :
  let w := snd (set_callable "x" (Probe (VInt 7)) (fresh_world {["x" := VInt 5]})) in
  fst (get_attribute "x" w) = Ok (Value (VInt 5)) /\
  call_count (snd (get_attribute "x" w)) = 0%nat /\
  call_count (read_times 2 "x" w) = 0%nat /\
  call_count (read_times 2 "x" w) <> 1%nat.
Proof. vm_compute. repeat split; discriminate. Qed.

End ProbeExamples.

(* ===================================================================== *)
(** * Properties of orm/evaluator.py                                      *)
(* ===================================================================== *)


Section EvaluatorProperties.
Import Evaluator.
Context `{ops : Operators}.

Implicit Types (c l r e : clause) (op : operators.t) (o : object).

(** *** The equations of [process] *)

Lemma process_Grouping e : process (Grouping e) = process e.
Proof. reflexivity. Qed.



Lemma process_ClauseList op cs :
  process (ClauseList op cs) =
    match rmap process cs with
    | Ok evaluators => visit_clauselist_body op evaluators
    | Raise ex => Raise ex
    end.
Proof. reflexivity. Qed.

Lemma process_Binary l op r :
  process (Binary l op r) =
    match process l with
    | Raise ex => Raise ex
    | Ok eval_left =>
        match process r with
        | Raise ex => Raise ex
        | Ok eval_right => visit_binary_body op eval_left eval_right
        end
    end.
Proof. reflexivity. Qed.

Lemma process_Unary op e :
  process (Unary op e) =
    match process e with
    | Ok eval_inner => visit_unary_body op eval_inner
    | Raise ex => Raise ex
    end.
Proof. reflexivity. Qed.

Lemma process_Other n :
  process (Other n) =
    if bool_decide (n ∈ visit_methods) then Raise (AttributeError n)
    else Raise UnevaluatableError.
Proof. simpl. destruct (bool_decide (n ∈ visit_methods)); reflexivity. Qed.

(** *** [visit_binary] *)


Lemma visit_binary_isnot el er :
  visit_binary_body operators.isnot el er = Ok (isnot_evaluate el er).
Proof. reflexivity. Qed.

Lemma visit_binary_straight op el er :
  op ∈ _straight_ops ->
  visit_binary_body op el er = Ok (straight_evaluate op el er).
Proof.
  intros Hop. unfold visit_binary_body.
  assert (Hne : op <> operators.isnot).
  { intros ->. revert Hop. unfold _straight_ops.
    rewrite !elem_of_cons, elem_of_nil. intuition discriminate. }
  rewrite (bool_decide_eq_false_2 _ Hne).
  unfold in_straight_ops. rewrite (bool_decide_eq_true_2 _ Hop). reflexivity.
Qed.

(** *** Errors of [process] *)






End EvaluatorProperties.

Section IsOperator.
Import Evaluator Query.
Context `{ops : Operators} `{sql : SqlLayer}.





(** What the evaluators of IS NOT and of a straight operator compute *)
Lemma isnot_evaluate_spec el er o a b :
  el o = Ok a -> er o = Ok b ->
  isnot_evaluate el er o = Ok (VBool (negb (py_eq a b))).
Proof. unfold isnot_evaluate. by intros -> ->. Qed.

Lemma straight_evaluate_spec op el er o a b :
  el o = Ok a -> er o = Ok b ->
  straight_evaluate op el er o =
    if is_None a || is_None b then Ok VNone else apply_operator op a b.
Proof. unfold straight_evaluate. intros -> ->. by destruct (is_None a || is_None b). Qed.

End IsOperator.

Section IsOperatorExamples.
Import Evaluator Query Examples.


End IsOperatorExamples.

Section AndClauseList.
Import Evaluator.
Context `{ops : Operators}.


(** The conjunction evaluator stops at the first operand that is not
    true: [None] there gives [None], another false value gives [False];
    the operands after it are not looked at. *)
Lemma and_evaluate_stops (pre post : list evaluator) (c : evaluator) o v :
  Forall (returns_true o) pre ->
  c o = Ok v -> truthy v = false ->
  and_evaluate (pre ++ c :: post) o =
    if is_None v then Ok VNone else Ok (VBool false).
Proof.
  intros Hpre Hc Hv. induction Hpre as [|ev pre (x & Hx & Hxt) _ IH]; simpl.
  - rewrite Hc, Hv. reflexivity.
  - rewrite Hx, Hxt. exact IH.
Qed.

Lemma and_evaluate_all_true (evs : list evaluator) o :
  Forall (returns_true o) evs -> and_evaluate evs o = Ok (VBool true).
Proof.
  induction 1 as [|ev evs (x & Hx & Hxt) _ IH]; simpl; [reflexivity|].
  rewrite Hx, Hxt. exact IH.
Qed.

(** C9: the evaluator compiled for an AND clause list is [and_evaluate] on
    the compiled operands; it scans them from the left and, at the first
    operand that is not true, returns [None] when that operand evaluates
    to [None] and [False] otherwise, whatever the later operands are.  So
    [NULL, FALSE] evaluates to [None] and [FALSE, NULL] to [False], while
    SQL's three-valued AND gives FALSE for both. *)
Theorem C9_and_evaluator_depends_on_order :
  (forall cs evs,
      rmap process cs = Ok evs ->
      process (ClauseList operators.and_ cs) = Ok (and_evaluate evs)) /\
  (forall (pre post : list evaluator) (c : evaluator) o,
      Forall (returns_true o) pre ->
      c o = Ok VNone ->
      and_evaluate (pre ++ c :: post) o = Ok VNone) /\
  (forall (pre post : list evaluator) (c : evaluator) o v,
      Forall (returns_true o) pre ->
      c o = Ok v -> truthy v = false -> is_None v = false ->
      and_evaluate (pre ++ c :: post) o = Ok (VBool false)) /\
  (exists ev_null_false ev_false_null,
      process (ClauseList operators.and_ [Null; Bindparam (VBool false)])
        = Ok ev_null_false /\
      process (ClauseList operators.and_ [Bindparam (VBool false); Null])
        = Ok ev_false_null /\
      forall o,
        ev_null_false o = Ok VNone /\
        ev_false_null o = Ok (VBool false) /\
        ev_null_false o <> ev_false_null o) /\
  of_truth (sql_and3 None (Some false)) = VBool false /\
  of_truth (sql_and3 (Some false) None) = VBool false.
Proof.
  split; [|split; [|split; [|split]]].
  - intros cs evs Hcs. rewrite process_ClauseList, Hcs. reflexivity.
  - intros pre post c o Hpre Hc.
    by rewrite (and_evaluate_stops pre post c o VNone Hpre Hc).
  - intros pre post c o v Hpre Hc Hv Hn.
    by rewrite (and_evaluate_stops pre post c o v Hpre Hc Hv), Hn.
  - eexists _, _. split; [reflexivity|]. split; [reflexivity|].
    intros o. repeat split. discriminate.
  - split; reflexivity.
Qed.

End AndClauseList.

(* ===================================================================== *)
(** * Properties of orm/query.py                                          *)
(* ===================================================================== *)

Section OneProperties.
Import Evaluator Query.
Context `{sql : SqlLayer} `{database : Database}.

Implicit Types (q : Query) (st : state) (h : heap).

Ltac run :=
  unfold one, first, getitem_slice, list_query, on_heap, slice, limit, offset,
    from_statement, _generative, _clone, run_assertions, slice_body,
    __no_statement_condition, __no_criterion_condition, global_name,
    log_statement, set_db, modify, get, put, raise,
    mbind, M_bind, bind, mret, M_ret, ret; simpl.

(** *** Rows and instances *)

Lemma filter_not_pk (rows : list row) pk :
  pk ∉ map r_pk rows ->
  List.filter (fun r' => negb (bool_decide (r_pk r' = pk))) rows = rows.
Proof.
  induction rows as [|r rows IH]; simpl; [done|].
  rewrite not_elem_of_cons. intros [Hne Hnot].
  rewrite bool_decide_eq_false_2 by done. simpl. by rewrite IH.
Qed.

Lemma unique_instances_NoDup (rows : list row) :
  NoDup (map r_pk rows) -> unique_instances rows = rows.
Proof.
  induction rows as [|r rows IH]; simpl; [done|].
  rewrite NoDup_cons. intros [Hnot Hnd].
  rewrite IH by done. by rewrite filter_not_pk.
Qed.

Lemma NoDup_pk_sublist (l k : list row) :
  sublist l k -> NoDup (map r_pk k) -> NoDup (map r_pk l).
Proof.
  intros Hs Hnd. apply (sublist_NoDup _ (r_pk <$> k)); [exact Hnd|].
  by apply fmap_sublist.
Qed.

Lemma sublist_List_filter {A} (f : A -> bool) (l : list A) :
  sublist (List.filter f l) l.
Proof.
  induction l as [|x l IH]; simpl; [constructor|].
  destruct (f x); by constructor.
Qed.

Lemma fetch_batches_all (turns n : nat) (rows : list row) :
  (0 < n)%nat -> (length rows < turns)%nat ->
  NoDup (map r_pk rows) ->
  concat (map unique_instances (fetch_batches turns n rows)) = rows.
Proof.
  intros Hn. revert rows.
  induction turns as [|turns IH]; intros rows Hlen Hnd; [lia|].
  change (fetch_batches (S turns) n rows)
    with (match take n rows with
          | [] => []
          | fetch => fetch :: fetch_batches turns n (drop n rows)
          end).
  destruct (take n rows) as [|r batch] eqn:Htake.
  - destruct rows as [|r rows]; [done|].
    destruct n; [lia | discriminate].
  - assert (Hrows : (r :: batch) ++ drop n rows = rows)
      by (rewrite <- Htake; apply take_drop).
    assert (Hlt : (length (drop n rows) < turns)%nat).
    { rewrite length_drop. destruct rows as [|? rows]; [discriminate|].
      simpl in *. lia. }
    assert (Hb : NoDup (map r_pk (r :: batch))).
    { rewrite <- Htake. eapply NoDup_pk_sublist; [apply sublist_take | done]. }
    change (concat (map unique_instances
                        ((r :: batch) :: fetch_batches turns n (drop n rows))))
      with (unique_instances (r :: batch)
              ++ concat (map unique_instances
                             (fetch_batches turns n (drop n rows)))).
    rewrite (unique_instances_NoDup _ Hb), IH; [exact Hrows | exact Hlt |].
    eapply NoDup_pk_sublist; [apply sublist_drop | done].
Qed.

Lemma iterate_instances_NoDup q (rows : list row) :
  yield_per_positive q -> NoDup (map r_pk rows) ->
  iterate_instances q rows = rows.
Proof.
  unfold yield_per_positive, iterate_instances. intros Hy Hnd.
  destruct (_yield_per q) as [n|]; [|by apply unique_instances_NoDup].
  destruct (Z.eqb_spec n 0); [lia|].
  apply fetch_batches_all; [lia | lia | done].
Qed.

(** *** [_compile_context] *)

Local Arguments _compile_context : simpl never.

Lemma compile_context_passes q st :
  _statement q <> None \/ known_lockmode q = true ->
  _compile_context q st = (Ok tt, st).
Proof.
  unfold _compile_context. intros [Hs|Hk].
  - by destruct (_statement q).
  - rewrite Hk. by destruct (not_None (_statement q)).
Qed.

Lemma compile_context_refuses q st :
  _statement q = None -> known_lockmode q = false ->
  _compile_context q st = (Raise ArgumentError, st).
Proof. unfold _compile_context. by intros -> ->. Qed.

(** *** [one] *)

Lemma select_rows_first_two (d : DB) q :
  select_rows d (first_two q) = take 2 (matching_rows d q).
Proof.
  unfold select_rows, matching_rows, first_two. simpl.
  destruct (_offset q) as [n|]; simpl; [|reflexivity].
  by rewrite Z.add_0_r.
Qed.

Lemma matching_rows_sublist (d : DB) q :
  sublist (matching_rows d q) (table_rows d).
Proof.
  unfold matching_rows.
  destruct (_offset q);
    [etrans; [apply sublist_drop|] |]; apply sublist_List_filter.
Qed.

Lemma one_no_statement q st :
  _statement q = None ->
  known_lockmode q = true ->
  one q st =
    (let d := database_seen (db (st_session st)) q in
     match iterate_instances (first_two q) (select_rows d (first_two q)) with
     | [] => Raise NoResultFound
     | [r] => Ok r
     | _ => Raise MultipleResultsFound
     end,
     mkState (st_heap st)
       (mkSession (database_seen (db (st_session st)) q)
          (identity_map (st_session st))
          (executed (st_session st)
             ++ [SelectRows (snapshot (st_heap st) (first_two q))]))).
Proof.
  intros Hs Hk. run. repeat (rewrite Hs; simpl).
  rewrite compile_context_passes by (right; exact Hk).
  unfold database_seen. fold (first_two q).
  destruct (_autoflush q && negb (_populate_existing q)); simpl;
    repeat (rewrite Hs; simpl);
    destruct (iterate_instances _ _) as [|r [|r' rows]]; reflexivity.
Qed.

Lemma one_unknown_lockmode q st :
  _statement q = None ->
  known_lockmode q = false ->
  one q st = (Raise ArgumentError, st).
Proof.
  intros Hs Hk. run. repeat (rewrite Hs; simpl).
  rewrite compile_context_refuses; [by destruct st | exact Hs | exact Hk].
Qed.

Lemma list_query_no_statement q st :
  _statement q = None ->
  known_lockmode q = true ->
  list_query q st =
    (Ok (iterate_instances q (select_rows (database_seen (db (st_session st)) q) q)),
     mkState (st_heap st)
       (mkSession (database_seen (db (st_session st)) q)
          (identity_map (st_session st))
          (executed (st_session st) ++ [SelectRows (snapshot (st_heap st) q)]))).
Proof.
  intros Hs Hk. run. rewrite compile_context_passes by (right; exact Hk).
  unfold database_seen.
  destruct (_autoflush q && negb (_populate_existing q)); simpl;
    rewrite Hs; reflexivity.
Qed.

(** C5, as the code has it.  Let the query have no raw statement.  With
    a lock mode that [_compile_context] does not know, [one] raises
    [ArgumentError] and executes nothing.  Otherwise [one] executes one
    SELECT, which carries the query's OFFSET and LIMIT 2 in place of the
    query's own LIMIT, so it fetches at most two rows.  When [yield_per]
    is unset or positive and the rows of the table have different primary
    keys, the outcome follows the rows that the query matches past its
    OFFSET, its own LIMIT left aside: none, [NoResultFound]; exactly one,
    that row's object; two or more, [MultipleResultsFound].  For a query
    without LIMIT these are the rows that the query itself returns. *)
Theorem C5_one_classifies_rows_past_offset :
  forall q st,
    _statement q = None ->
    let d := database_seen (db (st_session st)) q in
    let outcome := fst (one q st) in
    (known_lockmode q = false -> one q st = (Raise ArgumentError, st)) /\
    (known_lockmode q = true ->
     executed (st_session (snd (one q st))) =
       executed (st_session st) ++ [SelectRows (snapshot (st_heap st) (first_two q))] /\
     _limit (first_two q) = Some 2 /\
     _offset (first_two q) = Some (default 0 (_offset q)) /\
     (length (select_rows d (first_two q)) <= 2)%nat /\
     (yield_per_positive q ->
      NoDup (map r_pk (table_rows d)) ->
      match matching_rows d q with
      | [] => outcome = Raise NoResultFound
      | [r] => outcome = Ok r
      | _ :: _ :: _ => outcome = Raise MultipleResultsFound
      end /\
      (_limit q = None -> fst (list_query q st) = Ok (matching_rows d q)))).
Proof.
  intros q st Hs d outcome. subst outcome.
  split; [by apply one_unknown_lockmode|]. intros Hk.
  rewrite (one_no_statement q st Hs Hk). simpl. fold d.
  split; [reflexivity|]. split; [reflexivity|].
  split; [by rewrite Z.add_0_r|].
  rewrite select_rows_first_two.
  split; [rewrite length_take; lia|].
  intros Hy Hnd.
  assert (Hm : NoDup (map r_pk (matching_rows d q)))
    by (eapply NoDup_pk_sublist; [apply matching_rows_sublist | done]).
  split.
  - rewrite iterate_instances_NoDup.
    + by destruct (matching_rows d q) as [|r [|r' rows]].
    + exact Hy.
    + eapply NoDup_pk_sublist; [apply sublist_take | done].
  - intros Hl. rewrite (list_query_no_statement q st Hs Hk). simpl. fold d.
    assert (Hsel : select_rows d q = matching_rows d q)
      by (unfold select_rows, matching_rows; by rewrite Hl).
    rewrite Hsel, iterate_instances_NoDup; done.
Qed.

(** C10: once [from_statement] has set a raw statement, [one] does not
    reach the database.  The branch meant to refuse the call evaluates
    [exceptions.InvalidRequestError], and [exceptions] is no global of the
    module: the call raises [NameError], which is neither [NoResultFound]
    nor [MultipleResultsFound], and leaves the session as it was. *)
Theorem C10_one_after_from_statement_raises_NameError :
  forall q0 stmt q h h' (sess : session),
    from_statement stmt q0 h = (Ok q, h') ->
    let st := mkState h' sess in
    _statement q = Some stmt /\
    one q st = (Raise (NameError "exceptions"), st) /\
    (forall r, fst (one q st) <> Ok r) /\
    fst (one q st) <> Raise NoResultFound /\
    fst (one q st) <> Raise MultipleResultsFound /\
    executed (st_session (snd (one q st))) = executed sess.
Proof.
  intros q0 stmt q h h' sess Hfrom st.
  assert (Hs : _statement q = Some stmt).
  { revert Hfrom. run.
    destruct (not_None (_criterion q0) || not_None (_statement q0)
              || not_None (_from_obj q0) || not_None (_limit q0)
              || not_None (_offset q0) || criteria_truth (_group_by q0)
              || criteria_truth (_order_by q0)); simpl; [discriminate|].
    by intros [= <- <-]. }
  assert (Hone : one q st = (Raise (NameError "exceptions"), st))
    by (run; rewrite Hs; reflexivity).
  rewrite Hone. simpl. repeat split; try discriminate; done.
Qed.

End OneProperties.

Section OneExamples.
Import Evaluator Query Examples.

Lemma new_query_init :
  Query_init [User] [] = (Ok new_query, new_heap User) /\
  Query_init [Person] [] = (Ok new_query, new_heap Person).
Proof. split; reflexivity. Qed.

Lemma first_user_built :
  limit (Some 1) new_query (new_heap User) = (Ok first_user, new_heap User).
Proof. reflexivity. Qed.

Lemma user_two_built :
  filter (ArgClause (id_eq 2)) new_query (new_heap User) = (Ok user_two, new_heap User).
Proof. vm_compute. reflexivity. Qed.

Lemma after_user_two_built :
  offset (Some 1) user_two (new_heap User) = (Ok after_user_two, new_heap User).
Proof. reflexivity. Qed.

Lemma C5_one_classifies_witness :
  fst (one user_two users_state) = Ok (user_row 2 "jack") /\
  (length (select_rows two_users (first_two user_two)) <= 2)%nat /\
  one (set_lockmode (Some "exclusive") user_two) users_state
    = (Raise ArgumentError, users_state).
Proof.
  assert (Hk : known_lockmode user_two = true) by reflexivity.
  assert (Hu : known_lockmode (set_lockmode (Some "exclusive") user_two) = false)
    by reflexivity.
  destruct (proj2 (C5_one_classifies_rows_past_offset user_two users_state eq_refl) Hk)
    as (_ & _ & _ & Hlen & Hrows).
  split; [|split; [exact Hlen|]];
    [|exact (proj1 (C5_one_classifies_rows_past_offset
                      (set_lockmode (Some "exclusive") user_two) users_state
                      eq_refl) Hu)].
  assert (Hnd : NoDup (map r_pk (table_rows
                  (database_seen (db (st_session users_state)) user_two)))).
  { refine (bool_decide_unpack _ _). vm_compute. exact I. }
  destruct (Hrows I Hnd) as [Hout _].
  vm_compute in Hout. vm_compute. exact Hout.
Defined.

Lemma C10_one_after_from_statement_witness :
  from_statement "SELECT * FROM users" new_query (new_heap User)
    = (Ok raw_users, new_heap User) /\
  one raw_users users_state = (Raise (NameError "exceptions"), users_state).
Proof.
  split; [reflexivity|].
  exact (proj1 (proj2 (C10_one_after_from_statement_raises_NameError
                         new_query "SELECT * FROM users" raw_users
                         (new_heap User) (new_heap User)
                         (fresh_session two_users) eq_refl))).
Defined.

(** C5 as stated fails on queries that carry a LIMIT or an OFFSET.  With
    two users in the table, [query(User).limit(1)] returns exactly one
    row, yet [one()] on it raises [MultipleResultsFound]; and exactly one
    row satisfies the criterion of
    [query(User).filter(id == 2).offset(1)], yet [one()] on it raises
    [NoResultFound]. *)
Lemma C5_counterexample :
  (_statement first_user = None /\
   fst (list_query first_user users_state) = Ok [user_row 1 "ed"] /\
   fst (one first_user users_state) = Raise MultipleResultsFound) /\
  (_statement after_user_two = None /\
   List.filter (where_holds (_criterion after_user_two)) two_users
     = [user_row 2 "jack"] /\
   fst (one after_user_two users_state) = Raise NoResultFound).
Proof. vm_compute. repeat split. Qed.

End OneExamples.

Section BuilderProperties.
Import Evaluator Query.
Context `{sql : SqlLayer}.

Implicit Types (q self : Query) (h : heap).

Ltac run :=
  unfold _generative, _clone, __no_statement_condition, __no_limit_offset,
    __no_criterion_condition, __no_from_condition, as_criterion, _adapt_clause,
    alloc, write, modify, get, put, raise,
    mbind, M_bind, bind, mret, M_ret, ret; simpl.

Ltac run0 :=
  unfold as_criterion, raise, mbind, M_bind, bind, mret, M_ret, ret; simpl.

Lemma bind_eq {S A B : Type} (m : M S A) (k : A -> M S B) (s : S) :
  (m ≫= k) s =
    match m s with
    | (Ok a, s') => k a s'
    | (Raise ex, s') => (Raise ex, s')
    end.
Proof. reflexivity. Qed.

Lemma ret_eq {S A : Type} (a : A) (s : S) : (ret a : M S A) s = (Ok a, s).
Proof. reflexivity. Qed.

(** *** Heap extension *)

Lemma read_prefix h h' (l : loc) :
  (l < length h)%nat -> h `prefix_of` h' -> h' !! l = h !! l.
Proof. intros Hl Hp. symmetry. by apply prefix_lookup_lt. Qed.

(** Extending the heap leaves what an allocated query denotes, and the
    statement compiled from it, as they are. *)
Lemma snapshot_prefix h h' q :
  allocated h q -> h `prefix_of` h' -> snapshot h' q = snapshot h q.
Proof.
  intros (Hp & Ha & He & Hd & Ht) Hpre.
  unfold snapshot, read_params, read_attributes, read_entities, read_adapters,
    read_tables.
  by rewrite !(read_prefix h h') by done.
Qed.

Lemma compiled_prefix h h' q :
  allocated h q -> h `prefix_of` h' -> compiled h' q = compiled h q.
Proof. intros Ha Hp. unfold compiled. by rewrite (snapshot_prefix h h'). Qed.

Lemma allocated_prefix h h' q :
  allocated h q -> h `prefix_of` h' -> allocated h' q.
Proof.
  intros (Hp & Ha & He & Hd & Ht) Hpre. apply prefix_length in Hpre.
  unfold allocated. repeat split; lia.
Qed.

Lemma insert_new h (c c' : cell) (rest : list cell) :
  <[length h := c']> (h ++ c :: rest) = h ++ c' :: rest.
Proof.
  rewrite insert_app_r_alt by lia. by rewrite Nat.sub_diag.
Qed.

Lemma insert_new_next h (c0 c c' : cell) (rest : list cell) :
  <[S (length h) := c']> (h ++ c0 :: c :: rest) = h ++ c0 :: c' :: rest.
Proof.
  rewrite insert_app_r_alt by lia.
  by replace (S (length h) - length h)%nat with 1%nat by lia.
Qed.

Lemma lookup_new h (c : cell) (rest : list cell) :
  (h ++ c :: rest) !! length h = Some c.
Proof. by apply list_lookup_middle. Qed.

Lemma lookup_new_next h (c0 c : cell) (rest : list cell) :
  (h ++ c0 :: c :: rest) !! S (length h) = Some c.
Proof.
  rewrite lookup_app_r by lia.
  by replace (S (length h) - length h)%nat with 1%nat by lia.
Qed.

(** *** Methods that keep to the clone *)


Lemma guard_no_statement : is_guard __no_statement_condition.
Proof.
  intros q h. run. destruct (not_None (_statement q)); simpl; split; auto;
    try discriminate. by intros q' [= <-].
Qed.

Lemma guard_no_limit_offset : is_guard __no_limit_offset.
Proof.
  intros q h. run.
  destruct (not_None (_limit q) || not_None (_offset q)); simpl; split; auto;
    try discriminate. by intros q' [= <-].
Qed.

Lemma guard_no_from : is_guard __no_from_condition.
Proof.
  intros q h. run. destruct (not_None (_from_obj q)); simpl; split; auto;
    try discriminate. by intros q' [= <-].
Qed.

Lemma guard_no_criterion : is_guard __no_criterion_condition.
Proof.
  intros q h. run.
  destruct (_ || _); simpl; split; auto; try discriminate.
  by intros q' [= <-].
Qed.

Lemma run_assertions_guard (assertions : list (Query -> M heap Query)) :
  Forall is_guard assertions -> is_guard (run_assertions assertions).
Proof.
  induction 1 as [|a rest Ha _ IH]; intros q h; simpl.
  - run. split; auto. by intros q' [= <-].
  - unfold mbind, M_bind, bind.
    destruct (Ha q h) as [Hh Hq]. destruct (a q h) as [[q1|ex] h1]; simpl in *.
    + subst h1. destruct (IH q1 h) as [Hh' Hq']. split; [done|].
      intros q' Hr h' Hal. apply (Hq' q' Hr). by apply (Hq q1).
    + split; [done | discriminate].
Qed.

Lemma generative_keeps_heap (assertions : list (Query -> M heap Query))
    (fn : Query -> M heap Query) :
  Forall is_guard assertions -> keeps_heap fn ->
  keeps_heap (_generative assertions fn).
Proof.
  intros Hg Hfn q h Hal. unfold _generative, _clone, mbind, M_bind, bind.
  destruct (run_assertions_guard assertions Hg q h) as [Hh Hq].
  destruct (run_assertions assertions q h) as [[q1|ex] h1]; simpl in *; subst h1.
  - apply Hfn. by apply (Hq q1).
  - split; [done | discriminate].
Qed.

(** A body that only rebinds attributes of the clone to values *)
Lemma rebinding_keeps_heap (f : Query -> Query) :
  (forall q h, allocated h q -> allocated h (f q)) ->
  keeps_heap (fun self => ret (f self)).
Proof.
  intros Hf q h Hal. run. split; [done|]. intros q' [= <-]. by apply Hf.
Qed.

Lemma adapt_clause_heap self c as_filter orm_only h :
  snd (_adapt_clause self c as_filter orm_only h) = h.
Proof.
  run. by destruct (_ ++ _).
Qed.

Lemma adapt_clause_ok self c as_filter orm_only h :
  exists c', _adapt_clause self c as_filter orm_only h = (Ok c', h).
Proof.
  run. destruct (_ ++ _); eauto.
Qed.

Lemma filter_body_keeps_heap c : keeps_heap (filter_body c).
Proof.
  intros q h Hal. unfold filter_body.
  destruct c; run0;
    try (split; [done | discriminate]);
    match goal with
    | |- context [_adapt_clause q ?c true true h] =>
        destruct (adapt_clause_ok q c true true h) as (c' & ->)
    end;
    destruct (_criterion q); simpl; (split; [done|]); by intros q' [= <-].
Qed.

Lemma having_body_keeps_heap c : keeps_heap (having_body c).
Proof.
  intros q h Hal. unfold having_body.
  destruct c; run0;
    try (split; [done | discriminate]);
    match goal with
    | |- context [_adapt_clause q ?c true true h] =>
        destruct (adapt_clause_ok q c true true h) as (c' & ->)
    end;
    destruct (_having q); simpl; (split; [done|]); by intros q' [= <-].
Qed.

Lemma mapM_adapt_heap self (f : clause -> clause) (cs : list clause) h :
  exists cs',
    mapM (fun o =>
            c ← _adapt_clause self (Some (f o)) true true;
            ret (default o c)) cs h = (Ok cs', h).
Proof.
  induction cs as [|c cs (cs' & IH)]; simpl.
  - eexists. reflexivity.
  - rewrite !bind_eq.
    destruct (adapt_clause_ok self (Some (f c)) true true h) as (c' & ->).
    rewrite ret_eq, bind_eq, IH. eexists. reflexivity.
Qed.

Lemma order_by_body_keeps_heap cs : keeps_heap (order_by_body cs).
Proof.
  intros q h Hal. unfold order_by_body. rewrite bind_eq.
  destruct (mapM_adapt_heap q _literal_as_text cs h) as (cs' & ->).
  destruct (_order_by q); run; (split; [done|]); by intros q' [= <-].
Qed.

Lemma group_by_body_keeps_heap cs : keeps_heap (group_by_body cs).
Proof.
  intros q h Hal. unfold group_by_body.
  destruct (_group_by q); run; (split; [done|]); by intros q' [= <-].
Qed.

Lemma slice_body_keeps_heap start stop : keeps_heap (slice_body start stop).
Proof.
  intros q h Hal. unfold slice_body.
  destruct start, stop; run; (split; [done|]); by intros q' [= <-].
Qed.

Lemma allocated_new_params h q c :
  allocated h q -> allocated (h ++ [c]) (set_params (length h) q).
Proof.
  intros (Hp & Ha & He & Hd & Ht). unfold allocated. simpl.
  rewrite length_app. simpl. repeat split; lia.
Qed.

Lemma allocated_new_attributes h q c :
  allocated h q -> allocated (h ++ [c]) (set_attributes (length h) q).
Proof.
  intros (Hp & Ha & He & Hd & Ht). unfold allocated. simpl.
  rewrite length_app. simpl. repeat split; lia.
Qed.

Lemma params_body_keeps_heap args kwargs : keeps_heap (params_body args kwargs).
Proof.
  intros q h Hal. unfold params_body, mbind, M_bind, bind.
  destruct args as [|a [|a' args]]; run;
    try (split; [done | discriminate]);
    rewrite (insert_new h _ _ []);
    (split; [by apply prefix_app_r|]); intros q' [= <-];
    by apply allocated_new_params.
Qed.

(** The options write to the dictionary that [options] has just bound
    [_attributes] to. *)
Lemma process_queries_new_attributes opts : forall self h d,
  _attributes self = length h ->
  exists self' d',
    process_queries opts self (h ++ [CAttributes d])
      = (Ok self', h ++ [CAttributes d']) /\
    _attributes self' = length h /\
    forall h', allocated h' self -> allocated h' self'.
Proof.
  induction opts as [|opt opts IH]; intros self h d Hl; simpl.
  - rewrite ret_eq. exists self, d. repeat (split; [done|]); auto.
  - rewrite bind_eq. destruct opt as [k v|a]; unfold process_query.
    + rewrite bind_eq. unfold get at 1. rewrite bind_eq.
      unfold write, modify. rewrite Hl, insert_new, ret_eq.
      destruct (IH self h (<[k := v]> (read_attributes (h ++ [CAttributes d])
                                                       (length h))) Hl)
        as (self' & d' & -> & Hl' & Hal').
      exists self', d'. repeat (split; [done|]); auto.
    + rewrite ret_eq.
      destruct (IH (set_from_obj_alias (Some a) self) h d Hl)
        as (self' & d' & -> & Hl' & Hal').
      exists self', d'. repeat (split; [done|]); auto.
Qed.

Lemma options_body_keeps_heap opts : keeps_heap (options_body opts).
Proof.
  intros q h Hal. unfold options_body, mbind, M_bind, bind. run.
  destruct (process_queries_new_attributes opts
              (set_with_options (_with_options q ++ opts)
                                (set_attributes (length h) q))
              h (read_attributes h (_attributes q)) eq_refl)
    as (self' & d' & -> & Hl' & Hal').
  simpl. split; [by apply prefix_app_r|].
  intros q' [= <-]. apply Hal'.
  replace (length (h ++ [CAttributes d'])) with
    (length (h ++ [CAttributes (read_attributes h (_attributes q))]))
    by (by rewrite !length_app).
  destruct Hal as (Hp & Ha & He & Hd & Ht). unfold allocated. simpl.
  rewrite !length_app. simpl. repeat split; lia.
Qed.

(** *** [__join]: the loop writes to the two copies made before it *)


Lemma loads_polymorphically_copy h self m a t d :
  join_locs h self ->
  exists d',
    __mapper_loads_polymorphically_with self m a (h ++ [CTables t; CAdapters d])
      = (Ok tt, h ++ [CTables t; CAdapters d']).
Proof.
  intros [Ht Hd]. unfold __mapper_loads_polymorphically_with. run.
  rewrite Hd, insert_new_next. eauto.
Qed.


Lemma same_collections_refl self : same_collections self self.
Proof. by repeat split. Qed.

Lemma join_onto_copies k outerjoin clause_ right_entity alias_criterion
    aliased_entity self h t d :
  join_locs h self ->
  turn_on_copies h self
    (join_onto k outerjoin clause_ right_entity alias_criterion aliased_entity
               self (h ++ [CTables t; CAdapters d])).
Proof.
  intros Hlocs. unfold join_onto, turn_on_copies.
  destruct alias_criterion.
  - rewrite bind_eq.
    destruct aliased_entity; [destruct (jk_right_mapper k) as [rm|]|].
    + destruct (loads_polymorphically_copy h
                  (set_filter_aliases
                     (Some (ORMAdapter right_entity (_filter_aliases self))) self)
                  rm (ORMAdapter right_entity None) t d Hlocs) as (d' & ->).
      rewrite ret_eq. exists t, d'. split; [done|].
      intros self' clause' [= <- <-]. by repeat split.
    + rewrite !ret_eq. exists t, d. split; [done|].
      intros self' clause' [= <- <-]. by repeat split.
    + rewrite !ret_eq. exists t, d. split; [done|].
      intros self' clause' [= <- <-]. by repeat split.
  - rewrite ret_eq. exists t, d. split; [done|].
    intros self' clause' [= <- <-]. by repeat split.
Qed.

Lemma join_along_copies k outerjoin clause_ prop self h t d :
  join_locs h self ->
  turn_on_copies h self
    (join_along k outerjoin clause_ prop self (h ++ [CTables t; CAdapters d])).
Proof.
  intros Hlocs. unfold join_along. rewrite bind_eq. unfold get at 1.
  destruct (bool_decide (prop_table prop ∈ _)).
  - destruct (prop_secondary prop) as [sec|];
      [destruct (bool_decide (sec ∈ _))|];
      try rewrite ret_eq; exists t, d; (split; [done|]);
      intros self' clause'; try discriminate;
      intros [= <- <-]; by repeat split.
  - rewrite bind_eq. unfold write, modify.
    destruct Hlocs as [Ht Hd]. rewrite Ht, insert_new.
    apply join_onto_copies. by split.
Qed.

Lemma join_step_copies outerjoin create_aliases k :
  forall self clause_ h t d,
    join_locs h self ->
    turn_on_copies h self
      (join_step outerjoin create_aliases k (self, clause_)
                 (h ++ [CTables t; CAdapters d])).
Proof.
  intros self clause_ h t d Hlocs. unfold join_step.
  destruct (match clause_ with Some c => Some c | None => jk_from k end)
    as [c|].
  - destruct (jk_right_mapper k) as [rm|]; [|by apply join_onto_copies].
    destruct (jk_right_is_aliased_class k); [by apply join_onto_copies|].
    destruct (jk_right_is_selectable k).
    { destruct (negb (jk_right_derived k)); [|by apply join_onto_copies].
      exists t, d. split; [done | discriminate]. }
    destruct (with_polymorphic_ rm || jk_mapped_table_is_join k);
      [by apply join_onto_copies|].
    destruct create_aliases; [by apply join_onto_copies|].
    destruct (jk_prop k) as [prop|];
      [by apply join_along_copies | by apply join_onto_copies].
  - exists t, d. split; [done | discriminate].
Qed.

Lemma same_collections_trans q1 q2 q3 :
  same_collections q1 q2 -> same_collections q2 q3 -> same_collections q1 q3.
Proof.
  intros (?&?&?&?&?) (?&?&?&?&?). unfold same_collections.
  repeat split; congruence.
Qed.

Lemma join_loop_cons outerjoin create_aliases k keys st h :
  join_loop outerjoin create_aliases (k :: keys) st h =
    match join_step outerjoin create_aliases k st h with
    | (Ok st', h') => join_loop outerjoin create_aliases keys st' h'
    | (Raise ex, h') => (Raise ex, h')
    end.
Proof. reflexivity. Qed.

Lemma join_loop_copies outerjoin create_aliases keys :
  forall self clause_ h t d,
    join_locs h self ->
    turn_on_copies h self
      (join_loop outerjoin create_aliases keys (self, clause_)
                 (h ++ [CTables t; CAdapters d])).
Proof.
  induction keys as [|k keys IH]; intros self clause_ h t d Hlocs.
  - simpl. rewrite ret_eq. exists t, d. split; [done|].
    intros self' clause' [= <- <-]. apply same_collections_refl.
  - rewrite join_loop_cons.
    destruct (join_step_copies outerjoin create_aliases k self clause_ h t d Hlocs)
      as (t1 & d1 & Hh & Hr).
    destruct (join_step _ _ _ _ _) as [[[self1 clause1]|ex] h1];
      simpl in Hh, Hr; subst h1.
    + assert (Hs1 := Hr self1 clause1 eq_refl).
      assert (Hlocs1 : join_locs h self1).
      { destruct Hlocs as [Ht Hd], Hs1 as (_&_&_&Hd1&Ht1).
        split; congruence. }
      destruct (IH self1 clause1 h t1 d1 Hlocs1) as (t' & d' & Hh' & Hr').
      exists t', d'. split; [exact Hh'|].
      intros self' clause' Hres. eapply same_collections_trans; [exact Hs1|].
      by apply (Hr' self' clause').
    + exists t1, d1. split; [reflexivity | discriminate].
Qed.


Lemma join_body_eq keys outerjoin create_aliases from_joinpoint q h :
  __join_body keys outerjoin create_aliases from_joinpoint q h =
    match join_loop outerjoin create_aliases keys
            (join_clone from_joinpoint q h, _from_obj q)
            (h ++ [CTables (read_tables h (__currenttables q));
                   CAdapters (read_adapters h (_polymorphic_adapters q))]) with
    | (Ok (self', clause_), h') => (Ok (set_from_obj clause_ self'), h')
    | (Raise ex, h') => (Raise ex, h')
    end.
Proof.
  unfold __join_body, join_clone. rewrite bind_eq. unfold get at 1.
  rewrite bind_eq. unfold alloc at 1. rewrite bind_eq. unfold alloc at 1.
  rewrite bind_eq, length_app, Nat.add_1_r, <- app_assoc. simpl.
  destruct from_joinpoint; simpl;
    destruct (join_loop _ _ _ _ _) as [[[self' clause']|ex] h']; reflexivity.
Qed.

Lemma join_body_keeps_heap keys outerjoin create_aliases from_joinpoint :
  keeps_heap (__join_body keys outerjoin create_aliases from_joinpoint).
Proof.
  intros q h Hal. rewrite join_body_eq.
  assert (Hlocs : join_locs h (join_clone from_joinpoint q h))
    by (unfold join_clone; by destruct from_joinpoint).
  destruct (join_loop_copies outerjoin create_aliases keys
              (join_clone from_joinpoint q h) (_from_obj q) h
              (read_tables h (__currenttables q))
              (read_adapters h (_polymorphic_adapters q)) Hlocs)
    as (t' & d' & Hh & Hr).
  destruct (join_loop _ _ _ _ _) as [[[self' clause']|ex] h'];
    simpl in Hh, Hr; subst h'; simpl.
  - split; [by apply prefix_app_r|]. intros q' [= <-].
    destruct (Hr self' clause' eq_refl) as (Hp & Ha & He & Hd & Ht).
    destruct Hal as (Hp0 & Ha0 & He0 & Hd0 & Ht0).
    unfold allocated. simpl. rewrite Hp, Ha, He, Hd, Ht.
    unfold join_clone. destruct from_joinpoint; simpl; rewrite length_app; simpl;
      repeat split; lia.
  - split; [by apply prefix_app_r | discriminate].
Qed.

Create HintDb guards.
Local Hint Resolve guard_no_statement guard_no_limit_offset guard_no_from
  guard_no_criterion : guards.

(** Every chainable call other than the three that set entities up keeps
    to the clone: whether it returns a query or raises, the heap it leaves
    extends the heap it found. *)
Lemma call_keeps_heap (b : builder_call) :
  edits_shared_adapters b = false -> keeps_heap (call b).
Proof.
  destruct b; simpl; try discriminate; intros _;
    unfold filter, having, order_by, group_by, join, outerjoin, __join, slice,
      limit, offset, distinct, params, options, from_statement, with_labels,
      yield_per, autoflush, populate_existing, with_lockmode, correlate,
      reset_joinpoint;
    (apply generative_keeps_heap;
     [repeat first [apply Forall_nil_2
                   | apply Forall_cons_2; [solve [auto with guards]|]]|]);
    auto using filter_body_keeps_heap, having_body_keeps_heap,
      order_by_body_keeps_heap, group_by_body_keeps_heap, slice_body_keeps_heap,
      params_body_keeps_heap, options_body_keeps_heap, join_body_keeps_heap;
    try (apply rebinding_keeps_heap; by intros q h).
Qed.

(** The part of C4 that the code keeps: for each of these calls on an
    allocated query [q1], what [q1] denotes (its attributes and the
    contents of its collections) and the statement compiled from it are the
    same after the call as before, and a returned query is a query of the
    new heap. *)
Lemma builder_call_leaves_original (b : builder_call) q1 h :
  edits_shared_adapters b = false ->
  allocated h q1 ->
  let h' := snd (call b q1 h) in
  snapshot h' q1 = snapshot h q1 /\
  compiled h' q1 = compiled h q1 /\
  forall q2, fst (call b q1 h) = Ok q2 -> allocated h' q2.
Proof.
  intros Hb Hal h'. destruct (call_keeps_heap b Hb q1 h Hal) as [Hpre Hq].
  split; [by apply snapshot_prefix|]. split; [by apply compiled_prefix | exact Hq].
Qed.

End BuilderProperties.
Section SharedAdapters.
Import Evaluator Query.
Context `{sql : SqlLayer}.
Implicit Types (q : Query) (h : heap).

Lemma foldl_insert_lookup (a : adapter) (ts : list table) :
  forall (d : gmap table adapter) t,
    t ∈ ts -> foldl (fun d t => <[t := a]> d) d ts !! t = Some a.
Proof.
  induction ts as [|t' ts IH]; intros d t Hin; [by apply elem_of_nil in Hin|].
  simpl. destruct (decide (t ∈ ts)) as [Hts|Hts]; [by apply IH|].
  apply elem_of_cons in Hin as [->|Hin]; [|done].
  clear IH. revert d. induction ts as [|t'' ts IH]; intros d; simpl.
  - apply lookup_insert_eq.
  - apply not_elem_of_cons in Hts as [Hne Hts].
    rewrite insert_insert_ne by done. by apply IH.
Qed.




Lemma guards_pass q h :
  bare q ->
  run_assertions [__no_from_condition; __no_criterion_condition] q h
    = (Ok (cleared q), h).
Proof.
  intros (Hc & Hs & Hf & Hl & Ho & Hg & Hob).
  unfold run_assertions. rewrite bind_eq.
  unfold __no_from_condition at 1. rewrite Hf.
  simpl (not_None None). cbv iota. rewrite ret_eq. cbv iota beta.
  rewrite bind_eq. unfold __no_criterion_condition.
  rewrite Hc, Hs, Hf, Hl, Ho, Hg, Hob. simpl (not_None None). simpl orb.
  cbv iota. reflexivity.
Qed.

Lemma with_polymorphic_body_eq q h m sel adp wp rest mappers from_obj :
  read_entities h (_entities q) = MapperEntity true m false sel adp wp :: rest ->
  with_polymorphic_body (Some (mappers, from_obj)) q h =
    (Ok (set_entities (length h) q),
     <[length h := CEntities (MapperEntity true m false from_obj None (Some mappers) :: rest)]>
       (<[_polymorphic_adapters q :=
            CAdapters (foldl (fun d t => <[t := from_obj]> d)
                         (read_adapters (h ++ [CEntities (MapperEntity true m false sel adp wp :: rest)])
                                        (_polymorphic_adapters q))
                         (polymorphic_tables m))]>
          (h ++ [CEntities (MapperEntity true m false sel adp wp :: rest)]))).
Proof.
  intros Hents. unfold with_polymorphic_body.
  rewrite bind_eq. unfold get at 1. cbv iota beta. rewrite Hents. simpl negb. cbv iota.
  reflexivity.
Qed.

Lemma with_polymorphic_eq q h m sel adp wp rest mappers from_obj :
  bare q ->
  read_entities h (_entities q) = MapperEntity true m false sel adp wp :: rest ->
  with_polymorphic (Some (mappers, from_obj)) q h =
    with_polymorphic_body (Some (mappers, from_obj)) (cleared q) h.
Proof.
  intros Hb Hents. unfold with_polymorphic, _generative, _clone.
  rewrite bind_eq, (guards_pass _ _ Hb). reflexivity.
Qed.

(** [with_polymorphic] on a query whose first entity is a primary,
    non-aliased mapper entity writes the new adapter into the dictionary
    that the original query refers to: the clone has [_polymorphic_adapters]
    bound to the same object. *)
Lemma with_polymorphic_edits_original q1 h m sel adp wp rest mappers from_obj t :
  bare q1 ->
  allocated h q1 ->
  read_entities h (_entities q1) = MapperEntity true m false sel adp wp :: rest ->
  t ∈ polymorphic_tables m ->
  exists q2 h',
    with_polymorphic (Some (mappers, from_obj)) q1 h = (Ok q2, h') /\
    _polymorphic_adapters q2 = _polymorphic_adapters q1 /\
    v_polymorphic_adapters (snapshot h' q1) !! t = Some from_obj.
Proof.
  intros Hb (Hp & Ha & He & Hd & Ht) Hents Hin.
  rewrite (with_polymorphic_eq _ _ _ _ _ _ _ _ _ Hb Hents).
  rewrite (with_polymorphic_body_eq (cleared q1) h m sel adp wp rest mappers
             from_obj Hents).
  eexists _, _. split; [reflexivity|]. split; [reflexivity|].
  unfold snapshot, v_polymorphic_adapters, read_adapters at 1.
  change (_polymorphic_adapters (cleared q1)) with (_polymorphic_adapters q1).
  unfold heap, loc in *.
  rewrite list_lookup_insert_ne by lia.
  rewrite list_lookup_insert_eq by (rewrite length_app; simpl; lia).
  by apply foldl_insert_lookup.
Qed.

End SharedAdapters.

Section SharedAdaptersExample.
Import Evaluator Query Examples.

(** C4 fails on [with_polymorphic]: after
    [q2 = q1.with_polymorphic(Engineer)] on [q1 = query(Person)], the call
    has returned a query [q2] bound to the same dictionary of polymorphic
    adapters as [q1]; that dictionary has gained an entry for the [people]
    table, the adapter chain of [q1]'s own entity has changed, and so has
    the statement compiled from [q1]. *)
Theorem C4_with_polymorphic_changes_original_query :
  let q1 := new_query in
  let h := new_heap Person in
  let call := with_polymorphic (Some (["Engineer"], "people_join_engineers")) in
  let h' := snd (call q1 h) in
  Query_init [Person] [] = (Ok q1, h) /\
  (exists q2, fst (call q1 h) = Ok q2 /\
              _polymorphic_adapters q2 = _polymorphic_adapters q1) /\
  v_polymorphic_adapters (snapshot h q1) = ∅ /\
  v_polymorphic_adapters (snapshot h' q1)
    = {["people" := "people_join_engineers"]} /\
  (forall ent,
      v_entities (snapshot h q1) !! 0%nat = Some ent ->
      _get_entity_clauses h q1 ent = [] /\
      _get_entity_clauses h' q1 ent = ["people_join_engineers"]) /\
  compiled h q1 = "SELECT * FROM people" /\
  compiled h' q1 = "SELECT * FROM people_join_engineers" /\
  snapshot h' q1 <> snapshot h q1.
Proof.
  intros q1 h call h'. subst q1 h call h'.
  split; [reflexivity|].
  split; [eexists; split; vm_compute; reflexivity|].
  split; [vm_compute; reflexivity|].
  split; [vm_compute; reflexivity|].
  split; [intros ent [= <-]; split; vm_compute; reflexivity|].
  split; [vm_compute; reflexivity|].
  split; [vm_compute; reflexivity|].
  intros Heq.
  assert (Hd : v_polymorphic_adapters
                 (snapshot (snd (with_polymorphic
                                   (Some (["Engineer"], "people_join_engineers"))
                                   new_query (new_heap Person))) new_query)
               !! "people"%string
             = v_polymorphic_adapters (snapshot (new_heap Person) new_query)
               !! "people"%string) by (by rewrite Heq).
  vm_compute in Hd. discriminate.
Qed.

(** The same write kept to a copy by [__join]: a join that loads its
    target polymorphically leaves [q1] as it was. *)
Example join_copies_adapters :
  let h' := snd (join [to_engineers] false false new_query (new_heap Person)) in
  snapshot h' new_query = snapshot (new_heap Person) new_query /\
  exists q2,
    fst (join [to_engineers] false false new_query (new_heap Person)) = Ok q2 /\
    _polymorphic_adapters q2 <> _polymorphic_adapters new_query /\
    v_polymorphic_adapters (snapshot h' q2)
      = {["engineers" := "Engineer_1"; "people" := "Engineer_1"]}.
Proof.
  split.
  - apply snapshot_prefix; [vm_compute; repeat split; lia|].
    apply (call_keeps_heap (Join [to_engineers] false false) eq_refl).
    vm_compute; repeat split; lia.
  - eexists. split; [vm_compute; reflexivity|].
    split; [vm_compute; discriminate | vm_compute; reflexivity].
Qed.

End SharedAdaptersExample.

Section UpdateProperties.
Import Evaluator Query Sync.
Context `{sql : SqlLayer} `{database : Database} `{ops : Operators}.

Implicit Types (q : Query) (st : state) (im : list (identity_key * tracked)).

(** *** The in-memory update *)



Lemma dict_update_lookup (lits : list (string * value)) :
  forall d k v,
    NoDup (map fst lits) -> (k, v) ∈ lits -> dict_update lits d !! k = Some v.
Proof.
  induction lits as [|[k' v'] lits IH]; intros d k v Hnd Hin;
    [by apply elem_of_nil in Hin|].
  simpl in *. apply NoDup_cons in Hnd as [Hnot Hnd].
  apply elem_of_cons in Hin as [[= -> ->]|Hin]; [|by apply IH].
  clear IH Hnd. revert d. induction lits as [|[k'' v''] lits IH]; intros d; simpl.
  - apply lookup_insert_eq.
  - simpl in Hnot. apply not_elem_of_cons in Hnot as [Hne Hnot].
    rewrite insert_insert_ne by done. by apply IH.
Qed.

Lemma dict_update_lookup_other (lits : list (string * value)) :
  forall d k, k ∉ map fst lits -> dict_update lits d !! k = d !! k.
Proof.
  induction lits as [|[k' v'] lits IH]; intros d k Hnot; simpl; [done|].
  simpl in Hnot. apply not_elem_of_cons in Hnot as [Hne Hnot].
  rewrite IH by done. by rewrite lookup_insert_ne.
Qed.


(** *** The re-fetch *)







(** *** [update] *)

Ltac run :=
  unfold update, _mapper_zero_class, log_statement, set_db, set_identity_map,
    modify, get, put, raise, mbind, M_bind, bind, mret, M_ret, ret; simpl.




End UpdateProperties.

Section UpdateExamples.
Import Evaluator Query Sync Examples.



End UpdateExamples.


(* ===================================================================== *)
(** * Properties of orm/strategies.py: deferred column groups             *)
(* ===================================================================== *)

Section DeferredProperties.
Import Attributes Strategies.

Implicit Types (m : Mapper) (p a b : ColumnProperty) (inst : instance lazyload)
  (e : env) (r : gmap string value) (w : world lazyload env).

Lemma populate_group_row r cols :
  forall inst,
    populate_group (Some r) cols inst = (Ok tt, foldl (load_column r) inst cols).
Proof.
  induction cols as [|p cols IH]; intros inst; simpl; [reflexivity|].
  by rewrite IH.
Qed.

Lemma loaded_dict_other r cols k :
  forall inst,
    k ∉ map key cols ->
    __dict__ (foldl (load_column r) inst cols) !! k = __dict__ inst !! k.
Proof.
  induction cols as [|p cols IH]; intros inst Hk; simpl; [reflexivity|].
  simpl in Hk. apply not_elem_of_cons in Hk as [Hne Hk].
  rewrite IH by done. simpl. by rewrite lookup_insert_ne.
Qed.

Lemma loaded_dict r cols p :
  forall inst,
    NoDup (map key cols) ->
    p ∈ cols ->
    __dict__ (foldl (load_column r) inst cols) !! key p
      = Some (row_get r (column p)).
Proof.
  induction cols as [|p' cols IH]; intros inst Hnd Hin;
    [by apply elem_of_nil in Hin|].
  simpl in *. apply NoDup_cons in Hnd as [Hnot Hnd].
  apply elem_of_cons in Hin as [->|Hin]; [|by apply IH].
  rewrite loaded_dict_other by done. simpl. apply lookup_insert_eq.
Qed.

Lemma loaded_tracker r cols p :
  forall inst,
    p ∈ cols ->
    exists attrs,
      _managed_attributes (foldl (load_column r) inst cols) = Some attrs /\
      attrs !! key p = Some (HProp (PropHistory_init (key p))).
Proof.
  induction cols as [|p' cols IH] using rev_ind; intros inst Hin;
    [by apply elem_of_nil in Hin|].
  rewrite foldl_app. simpl.
  apply elem_of_app in Hin as [Hin|Hin].
  - destruct (IH inst Hin) as (attrs & -> & Ha). simpl.
    eexists. split; [reflexivity|].
    destruct (decide (key p' = key p)) as [->|Hne].
    + apply lookup_insert_eq.
    + by rewrite lookup_insert_ne.
  - apply list_elem_of_singleton in Hin as ->.
    eexists. split; [reflexivity|]. apply lookup_insert_eq.
Qed.

Lemma groupcols_spec m g p :
  p ∈ groupcols m g <-> p ∈ props m /\ is_deferred p = true /\ group p = Some g.
Proof.
  unfold groupcols. rewrite list_elem_of_In, List.filter_In, <- list_elem_of_In.
  rewrite andb_true_iff, bool_decide_eq_true. tauto.
Qed.

Lemma groupcols_NoDup m g :
  NoDup (map key (props m)) -> NoDup (map key (groupcols m g)).
Proof.
  unfold groupcols. induction (props m) as [|p ps IH]; simpl; [done|].
  rewrite NoDup_cons. intros [Hnot Hnd].
  destruct (is_deferred p && bool_decide (group p = Some g)); simpl; [|by apply IH].
  apply NoDup_cons. split; [|by apply IH].
  intros Hin. apply Hnot. apply list_elem_of_In in Hin.
  apply List.in_map_iff in Hin as (q & Hq & Hin).
  apply List.filter_In in Hin as [Hin _].
  apply list_elem_of_In, List.in_map_iff. by exists q.
Qed.

(** The grouped load, when the primary key is complete, the instance is in
    a session and the row is there *)
Lemma run_lazyload_group m p g inst e pkv r :
  group p = Some g ->
  pk_clause inst (pk m) = Some pkv ->
  has_session e = true ->
  table_row e pkv = Some r ->
  run_lazyload (mkLazyload (key p) (column p) (group p) m) inst e =
    (Ok (row_get r (column p)),
     foldl (load_column r) inst (groupcols m g),
     mkEnv (has_mapper e) (has_session e) (table_row e)
           (fetches e ++ [mkFetch (map column (groupcols m g)) pkv])).
Proof.
  intros Hg Hpk Hs Hr. unfold run_lazyload. simpl.
  rewrite Hpk, Hs, Hg. simpl. rewrite Hr, populate_group_row. reflexivity.
Qed.

(** A primary key attribute that is false stops the load before any
    statement *)
Lemma run_lazyload_no_pk c inst e :
  pk_clause inst (pk (localparent c)) = None ->
  run_lazyload c inst e = (Ok VNone, inst, e).
Proof. intros Hpk. unfold run_lazyload. by rewrite Hpk. Qed.

Lemma find_by_key (ps : list ColumnProperty) p :
  NoDup (map key ps) -> p ∈ ps ->
  List.find (fun q => bool_decide (key q = key p)) ps = Some p.
Proof.
  induction ps as [|q ps IH]; intros Hnd Hin; [by apply elem_of_nil in Hin|].
  simpl in *. apply NoDup_cons in Hnd as [Hnot Hnd].
  apply elem_of_cons in Hin as [->|Hin].
  - by rewrite bool_decide_eq_true_2.
  - rewrite bool_decide_eq_false_2; [by apply IH|].
    intros Heq. apply Hnot. rewrite Heq. apply list_elem_of_In, List.in_map.
    by apply list_elem_of_In.
Qed.

(** [process_row] leaves the attribute with the slot of [setup_loader],
    and the slots of other attributes where they are *)
Lemma install_deferred_installed m p w :
  NoDup (map key (props m)) -> p ∈ props m ->
  has_mapper (ext w) = true ->
  installed m p (install_deferred m p w) /\
  ext (install_deferred m p w) = ext w /\
  __dict__ (obj (install_deferred m p w)) = __dict__ (obj w) /\
  forall q, key q <> key p -> installed m q w -> installed m q (install_deferred m p w).
Proof.
  intros Hnd Hin Hm. unfold install_deferred, setup_loader.
  rewrite Hm, (find_by_key _ _ Hnd Hin). simpl.
  unfold set_callable, history_setitem, attribute_history, modify, mbind, M_bind,
    bind. simpl.
  destruct (_managed_attributes (obj w)) as [attrs|] eqn:Ha; simpl.
  - split; [|split; [done|split; [done|]]].
    + eexists. split; [reflexivity|]. apply lookup_insert_eq.
    + intros q Hne (attrs' & Ha' & Hq). rewrite Ha in Ha'. injection Ha' as <-.
      eexists. split; [reflexivity|]. by rewrite lookup_insert_ne.
  - split; [|split; [done|split; [done|]]].
    + eexists. split; [reflexivity|]. apply lookup_insert_eq.
    + intros q Hne (attrs' & Ha' & Hq). rewrite Ha in Ha'. discriminate.
Qed.

(** The deferred-group law where the code keeps it.  Let [first] and
    [second] be two deferred columns of one group, with different attribute keys, both still behind
    the lazy slot that [setup_loader] made, on an instance whose primary
    key attributes are all true values, which is attached to a session and
    whose row is in the table; and let [first] have no loaded value yet.
    Reading [first] executes exactly one SELECT, of the columns of the
    whole group, by the primary key; it stores the value of every column
    of the group in the instance and returns the value of [first].
    Reading [second] afterwards returns its value from the instance and
    executes nothing. *)
Theorem deferred_group_costs_one_fetch :
  forall m g first second w pkv r,
    NoDup (map key (props m)) ->
    first ∈ groupcols m g ->
    second ∈ groupcols m g ->
    key first <> key second ->
    installed m first w ->
    installed m second w ->
    dict_get (__dict__ (obj w)) (key first) = VNone ->
    pk_clause (obj w) (pk m) = Some pkv ->
    has_session (ext w) = true ->
    table_row (ext w) pkv = Some r ->
    exists w1,
      get_attribute (key first) w = (Ok (Value (row_get r (column first))), w1) /\
      fetches (ext w1)
        = fetches (ext w) ++ [mkFetch (map column (groupcols m g)) pkv] /\
      (forall p, p ∈ groupcols m g ->
         __dict__ (obj w1) !! key p = Some (row_get r (column p))) /\
      get_attribute (key second) w1 = (Ok (Value (row_get r (column second))), w1) /\
      fetch_count (snd (get_attribute (key second) w1)) = S (fetch_count w).
Proof.
  intros m g a b w pkv r Hnd Ha Hb Hne (attrs & Hattrs & Hsa) (attrs' & Hattrs' & Hsb)
    Hd Hpk Hs Hr.
  rewrite Hattrs in Hattrs'. injection Hattrs' as <-.
  pose proof (proj1 (groupcols_spec m g a) Ha) as (Hina & Hda & Hga).
  pose proof (groupcols_NoDup m g Hnd) as Hndg.
  assert (Hrun : run_callable (mkLazyload (key a) (column a) (group a) m) (obj w) (ext w)
                 = (Ok (row_get r (column a)),
                    foldl (load_column r) (obj w) (groupcols m g),
                    mkEnv (has_mapper (ext w)) (has_session (ext w)) (table_row (ext w))
                          (fetches (ext w) ++ [mkFetch (map column (groupcols m g)) pkv])))
    by (by apply run_lazyload_group).
  rewrite (get_attribute_resolves w (key a) _ attrs _ _ _ Hattrs Hsa Hd Hrun).
  eexists. split; [reflexivity|]. simpl.
  assert (Hdict : forall p, p ∈ groupcols m g ->
            <[key a := row_get r (column a)]>
              (__dict__ (foldl (load_column r) (obj w) (groupcols m g))) !! key p
            = Some (row_get r (column p))).
  { intros p Hp. destruct (decide (key p = key a)) as [Heq|Hneq].
    - rewrite Heq, lookup_insert_eq.
      pose proof (loaded_dict r _ p (obj w) Hndg Hp) as H1.
      pose proof (loaded_dict r _ a (obj w) Hndg Ha) as H2.
      rewrite Heq, H2 in H1. by injection H1 as ->.
    - rewrite lookup_insert_ne by done. by apply loaded_dict. }
  destruct (loaded_tracker r (groupcols m g) b (obj w) Hb) as (attrs1 & Hm1 & Hb1).
  assert (Hread : get_attribute (key b)
            (mkWorld
               (mkInstance
                  (<[key a := row_get r (column a)]>
                     (__dict__ (foldl (load_column r) (obj w) (groupcols m g))))
                  (Some (<[key a := HProp (PropHistory_init (key a))]>
                           (default ∅ (_managed_attributes
                              (foldl (load_column r) (obj w) (groupcols m g)))))))
               (mkEnv (has_mapper (ext w)) (has_session (ext w)) (table_row (ext w))
                      (fetches (ext w) ++ [mkFetch (map column (groupcols m g)) pkv]))
               (invoked w ++ [mkLazyload (key a) (column a) (group a) m]))
          = (Ok (Value (row_get r (column b))),
             mkWorld
               (mkInstance
                  (<[key a := row_get r (column a)]>
                     (__dict__ (foldl (load_column r) (obj w) (groupcols m g))))
                  (Some (<[key a := HProp (PropHistory_init (key a))]>
                           (default ∅ (_managed_attributes
                              (foldl (load_column r) (obj w) (groupcols m g)))))))
               (mkEnv (has_mapper (ext w)) (has_session (ext w)) (table_row (ext w))
                      (fetches (ext w) ++ [mkFetch (map column (groupcols m g)) pkv]))
               (invoked w ++ [mkLazyload (key a) (column a) (group a) m]))).
  { eapply get_attribute_tracked; simpl.
    - reflexivity.
    - rewrite lookup_insert_ne by done. rewrite Hm1. simpl. exact Hb1.
    - reflexivity.
    - by apply Hdict. }
  split; [reflexivity|]. split; [exact Hdict|]. split; [exact Hread|].
  rewrite Hread. unfold fetch_count. simpl. rewrite length_app. simpl. lia.
Qed.

Lemma pk_clause_false (inst : instance lazyload) (pks : list string)
    (attr : string) :
  attr ∈ pks -> truthy (_getattrbycolumn inst attr) = false ->
  pk_clause inst pks = None.
Proof.
  induction pks as [|k pks IH]; intros Hin Hf; [by apply elem_of_nil in Hin|].
  simpl. apply elem_of_cons in Hin as [<-|Hin].
  - by rewrite Hf.
  - destruct (negb (truthy (_getattrbycolumn inst k))); [reflexivity|].
    by rewrite IH.
Qed.

(** C6 does not hold of the code as it is.  The primary key loop of
    [lazyload] tests [if not attr], which is true of [None] and also of a
    primary key value that is false without being [None], such as 0.  On
    an instance that has such a value in a primary key attribute, with two
    deferred columns of one group behind their lazy slots: reading the
    first executes no SELECT and returns [None], which is stored as the
    value of the attribute; reading the second does the same.  No fetch is
    made, and no column of the group is loaded, whatever the table
    holds. *)
Theorem C6_false_primary_key_skips_the_grouped_load :
  forall m g first second w (attr : string) v,
    first ∈ groupcols m g ->
    second ∈ groupcols m g ->
    key first <> key second ->
    installed m first w ->
    installed m second w ->
    dict_get (__dict__ (obj w)) (key first) = VNone ->
    dict_get (__dict__ (obj w)) (key second) = VNone ->
    attr ∈ pk m ->
    _getattrbycolumn (obj w) attr = v ->
    is_None v = false ->
    truthy v = false ->
    exists w1 w2,
      get_attribute (key first) w = (Ok (Value VNone), w1) /\
      __dict__ (obj w1) !! key first = Some VNone /\
      fetches (ext w1) = fetches (ext w) /\
      get_attribute (key second) w1 = (Ok (Value VNone), w2) /\
      __dict__ (obj w2) !! key second = Some VNone /\
      fetches (ext w2) = fetches (ext w) /\
      fetch_count w2 = fetch_count w.
Proof.
  intros m g first second w attr v Hf Hsn Hne (attrs & Hattrs & Hsa)
    (attrs' & Hattrs' & Hsb) Hd1 Hd2 Ha Hv Hnn Hfalse.
  rewrite Hattrs in Hattrs'. injection Hattrs' as <-.
  assert (Hpk : pk_clause (obj w) (pk m) = None).
  { apply (pk_clause_false _ _ attr Ha). by rewrite Hv. }
  assert (Hrun : run_callable (mkLazyload (key first) (column first) (group first) m)
                   (obj w) (ext w) = (Ok VNone, obj w, ext w))
    by (by apply run_lazyload_no_pk).
  rewrite (get_attribute_resolves w (key first) _ attrs _ _ _ Hattrs Hsa Hd1 Hrun).
  set (o1 := mkInstance (<[key first := VNone]> (__dict__ (obj w)))
               (Some (<[key first := HProp (PropHistory_init (key first))]>
                        (default ∅ (_managed_attributes (obj w)))))).
  set (w1 := mkWorld o1 (ext w)
               (invoked w ++ [mkLazyload (key first) (column first) (group first) m])).
  assert (Hpk1 : pk_clause o1 (pk m) = None).
  { apply (pk_clause_false _ _ attr Ha). unfold _getattrbycolumn, dict_get, o1. simpl.
    destruct (decide (key first = attr)) as [<-|Hka].
    - by rewrite lookup_insert_eq.
    - rewrite lookup_insert_ne by done.
      unfold _getattrbycolumn, dict_get in Hv. by rewrite Hv. }
  assert (Hrun1 : run_callable (mkLazyload (key second) (column second) (group second) m)
                    (obj w1) (ext w1) = (Ok VNone, o1, ext w))
    by (by apply run_lazyload_no_pk).
  assert (Hm1 : _managed_attributes (obj w1)
                = Some (<[key first := HProp (PropHistory_init (key first))]> attrs)).
  { unfold w1, o1. simpl. by rewrite Hattrs. }
  assert (Hs1 : <[key first := HProp (PropHistory_init (key first))]> attrs
                  !! key second
                = Some (HCallable (mkCallableProp (key second)
                          (mkLazyload (key second) (column second) (group second) m))))
    by (by rewrite lookup_insert_ne).
  assert (Hd21 : dict_get (__dict__ (obj w1)) (key second) = VNone).
  { unfold w1, o1, dict_get. simpl. rewrite lookup_insert_ne by done.
    exact Hd2. }
  eexists w1, _. split; [reflexivity|].
  split; [apply lookup_insert_eq|]. split; [reflexivity|].
  rewrite (get_attribute_resolves w1 (key second) _ _ _ _ _ Hm1 Hs1 Hd21 Hrun1).
  split; [reflexivity|]. simpl.
  split; [apply lookup_insert_eq|]. split; reflexivity.
Qed.

End DeferredProperties.

Section DeferredExamples.
Import Attributes Strategies Examples.

Lemma document_installed id :
  installed document_mapper body_prop (document id) /\
  installed document_mapper summary_prop (document id).
Proof.
  split; (eexists; split; [reflexivity|]); reflexivity.
Qed.

Lemma deferred_group_witness :
  let w1 := snd (get_attribute "body" (document 7)) in
  fst (get_attribute "body" (document 7)) = Ok (Value (VStr "text of the body")) /\
  fst (get_attribute "summary" w1) = Ok (Value (VStr "short")) /\
  fetch_count (snd (get_attribute "summary" w1)) = 1%nat.
Proof.
  cbv zeta.
  destruct (deferred_group_costs_one_fetch document_mapper "text" body_prop
              summary_prop (document 7) [VInt 7] (document_row 7))
    as (w1 & H1 & _ & _ & H2 & H3).
  - refine (bool_decide_unpack _ _). vm_compute. exact I.
  - apply groupcols_spec. repeat split. right. left.
  - apply groupcols_spec. repeat split. right. right. left.
  - discriminate.
  - apply document_installed.
  - apply document_installed.
  - reflexivity.
  - reflexivity.
  - reflexivity.
  - reflexivity.
  - change (key body_prop) with "body"%string in H1, H2, H3.
    change (key summary_prop) with "summary"%string in H2, H3.
    rewrite H1. cbn [fst snd]. rewrite H2. cbn [fst snd].
    split; [vm_compute; reflexivity|]. split; [vm_compute; reflexivity|].
    rewrite H2 in H3. exact H3.
Defined.

(** The instance that C6 fails on: a document with primary key 0, whose
    row is in the table with a body and a summary, both deferred in the
    group [text].  Neither read reaches the database, and both hand back
    [None] in place of the stored text. *)
Lemma C6_false_primary_key_witness :
  let w1 := snd (get_attribute "body" (document 0)) in
  body_prop ∈ groupcols document_mapper "text" /\
  summary_prop ∈ groupcols document_mapper "text" /\
  table_row (ext (document 0)) [VInt 0] = Some (document_row 0) /\
  row_get (document_row 0) (column body_prop) = VStr "text of the body" /\
  fst (get_attribute "body" (document 0)) = Ok (Value VNone) /\
  fetch_count w1 = 0%nat /\
  fst (get_attribute "summary" w1) = Ok (Value VNone) /\
  fetch_count (snd (get_attribute "summary" w1)) = 0%nat.
Proof.
  cbv zeta.
  assert (Hb : body_prop ∈ groupcols document_mapper "text")
    by (apply groupcols_spec; repeat split; right; left).
  assert (Hs : summary_prop ∈ groupcols document_mapper "text")
    by (apply groupcols_spec; repeat split; right; right; left).
  assert (Hne : key body_prop <> key summary_prop) by discriminate.
  assert (Hpk : "id"%string ∈ pk document_mapper) by left.
  destruct (C6_false_primary_key_skips_the_grouped_load document_mapper "text"
              body_prop summary_prop (document 0) "id" (VInt 0)
              Hb Hs Hne (proj1 (document_installed 0)) (proj2 (document_installed 0))
              eq_refl eq_refl Hpk eq_refl eq_refl eq_refl)
    as (w1 & w2 & H1 & _ & Hf1 & H2 & _ & _ & Hc2).
  change (key body_prop) with "body"%string in H1.
  change (key summary_prop) with "summary"%string in H2.
  rewrite H1. cbn [fst snd]. rewrite H2. cbn [fst snd].
  split; [exact Hb|]. split; [exact Hs|].
  split; [reflexivity|]. split; [reflexivity|]. split; [reflexivity|].
  split; [unfold fetch_count; by rewrite Hf1|].
  split; [reflexivity|]. rewrite Hc2. reflexivity.
Defined.

End DeferredExamples.

(* ===================================================================== *)
(** * orm/evaluator.py: what compiles, and what the evaluators compute    *)
(* ===================================================================== *)

Section CompilerCoverage.
Import Evaluator.
Context `{ops : Operators}.

Implicit Types (c l r e : clause) (op : operators.t) (o : object).

Lemma rmap_is_Ok {A B} (f : A -> result B) (g : A -> bool) (xs : list A) :
  Forall (fun x => is_Ok (f x) = g x) xs ->
  is_Ok (rmap f xs) = forallb g xs.
Proof.
  induction 1 as [|x xs Hx _ IH]; simpl; [reflexivity|].
  rewrite <- Hx, <- IH.
  destruct (f x); simpl; [|reflexivity]. by destruct (rmap f xs).
Qed.

(** [process] returns an evaluator exactly on the supported clauses; on
    any other clause it raises. *)
Theorem process_compiles_exactly_the_supported_clauses :
  forall c, is_Ok (process c) = supported c.
Proof.
  induction c as [e IH| |pk k|op cs IH|l op r IHl IHr|op e IH|v|n]
    using clause_rect'.
  - rewrite process_Grouping. exact IH.
  - reflexivity.
  - reflexivity.
  - rewrite process_ClauseList. simpl.
    rewrite <- (rmap_is_Ok process supported cs IH).
    destruct (rmap process cs) as [evs|ex]; simpl; [|by rewrite andb_false_r].
    rewrite andb_true_r. unfold visit_clauselist_body.
    destruct (bool_decide (op = operators.and_)); simpl; [reflexivity|].
    by destruct (bool_decide (op = operators.or_)).
  - rewrite process_Binary. simpl. rewrite <- IHl, <- IHr.
    destruct (process l) as [el|ex]; simpl; [|reflexivity].
    destruct (process r) as [er|ex]; simpl; [|reflexivity].
    unfold visit_binary_body.
    destruct (bool_decide (op = operators.isnot)); simpl; [reflexivity|].
    by destruct (in_straight_ops op).
  - rewrite process_Unary. simpl. rewrite <- IH.
    destruct (process e) as [ev|ex]; simpl; [|by rewrite andb_false_r].
    rewrite andb_true_r. unfold visit_unary_body.
    by destruct (bool_decide (op = operators.inv)).
  - reflexivity.
  - rewrite process_Other. by destruct (bool_decide (n ∈ visit_methods)).
Qed.

End CompilerCoverage.

Section Disjunction.
Import Evaluator.
Context `{ops : Operators}.

Lemma or_loop_values (evs : list evaluator) (vs : list value) o :
  Forall2 (fun ev v => ev o = Ok v) evs vs ->
  forall has_null,
    or_loop evs has_null o =
      Ok (if existsb truthy vs then VBool true
          else if has_null || existsb is_None vs then VNone
          else VBool false).
Proof.
  induction 1 as [|ev v evs vs Hev _ IH]; intros has_null; simpl.
  - rewrite orb_false_r. by destruct has_null.
  - rewrite Hev. destruct (truthy v); simpl; [reflexivity|].
    rewrite IH. by rewrite orb_assoc.
Qed.

Lemma existsb_Permutation {A} (f : A -> bool) (xs ys : list A) :
  xs ≡ₚ ys -> existsb f xs = existsb f ys.
Proof.
  induction 1 as [|x xs ys _ IH|x y xs|xs ys zs _ IH1 _ IH2]; simpl.
  - reflexivity.
  - by rewrite IH.
  - by rewrite !orb_assoc, (orb_comm (f y)).
  - by rewrite IH1.
Qed.

(** The evaluator compiled for an OR list computes the three-valued
    disjunction of its operands' values, whatever their order: true when
    some operand is true, otherwise [None] when some operand is [None],
    otherwise false. *)
Theorem or_evaluator_is_three_valued_and_order_independent :
  forall (cs : list clause) (evs : list evaluator) (vs : list value) (o : object),
    rmap process cs = Ok evs ->
    Forall2 (fun ev v => ev o = Ok v) evs vs ->
    process (ClauseList operators.or_ cs) = Ok (or_evaluate evs) /\
    or_evaluate evs o = Ok (sql_or vs) /\
    (forall evs', evs' ≡ₚ evs -> or_evaluate evs' o = or_evaluate evs o).
Proof.
  intros cs evs vs o Hcs Hvs. split; [|split].
  - rewrite process_ClauseList, Hcs. reflexivity.
  - unfold or_evaluate. by rewrite (or_loop_values evs vs o Hvs false).
  - intros evs' Hp.
    destruct (Permutation_Forall2 (symmetry Hp) Hvs) as (vs' & Hpv & Hvs').
    unfold or_evaluate.
    rewrite (or_loop_values evs vs o Hvs false),
            (or_loop_values evs' vs' o Hvs' false).
    by rewrite (existsb_Permutation truthy _ _ Hpv),
               (existsb_Permutation is_None _ _ Hpv).
Qed.

(** What the evaluators of comparisons and of NOT do with [None]: a
    straight operator applied to operands of which one evaluates to
    [None] gives [None] without calling the operator, and the operator's
    result otherwise; NOT of [None] is [None], and of another value the
    negation of its truth; IS NOT never gives [None], it is Python's
    inequality of the two values. *)
Theorem comparisons_and_not_on_None :
  forall (l r : clause) (el er : evaluator),
    process l = Ok el ->
    process r = Ok er ->
    (forall op, op ∈ _straight_ops ->
       exists ev,
         process (Binary l op r) = Ok ev /\
         forall o a b, el o = Ok a -> er o = Ok b ->
           ev o = if is_None a || is_None b then Ok VNone
                  else apply_operator op a b) /\
    (exists ev,
        process (Binary l operators.isnot r) = Ok ev /\
        forall o a b, el o = Ok a -> er o = Ok b ->
          ev o = Ok (VBool (negb (py_eq a b)))) /\
    (exists ev,
        process (Unary operators.inv l) = Ok ev /\
        forall o a, el o = Ok a ->
          ev o = Ok (if is_None a then VNone else VBool (negb (truthy a)))).
Proof.
  intros l r el er Hl Hr. split; [|split].
  - intros op Hop. exists (straight_evaluate op el er). split.
    + rewrite process_Binary, Hl, Hr. by apply visit_binary_straight.
    + intros o a b Ha Hb. by apply straight_evaluate_spec.
  - exists (isnot_evaluate el er). split.
    + by rewrite process_Binary, Hl, Hr.
    + intros o a b Ha Hb. by apply isnot_evaluate_spec.
  - exists (inv_evaluate el). split.
    + by rewrite process_Unary, Hl.
    + intros o a Ha. unfold inv_evaluate. rewrite Ha. by destruct (is_None a).
Qed.

End Disjunction.

Section DisjunctionExamples.
Import Evaluator Examples.

Lemma or_evaluator_witness :
  or_evaluate [fun _ => Ok VNone; fun _ => Ok (VBool true)] (∅ : object)
    = Ok (VBool true) /\
  or_evaluate [fun _ => Ok (VBool false); fun _ => Ok VNone] (∅ : object)
    = Ok VNone.
Proof.
  split.
  - refine (proj1 (proj2 (or_evaluator_is_three_valued_and_order_independent
                            [Null; Bindparam (VBool true)] _
                            [VNone; VBool true] ∅ eq_refl _))).
    repeat constructor.
  - refine (proj1 (proj2 (or_evaluator_is_three_valued_and_order_independent
                            [Bindparam (VBool false); Null] _
                            [VBool false; VNone] ∅ eq_refl _))).
    repeat constructor.
Defined.

Lemma comparisons_and_not_witness :
  exists ev,
    process (Binary (Column None "id") operators.eq Null) = Ok ev /\
    ev {["id" := VInt 1]} = Ok VNone.
Proof.
  destruct (comparisons_and_not_on_None (Column None "id") Null _ _ eq_refl eq_refl)
    as (Hstraight & _).
  assert (Hop : operators.eq ∈ _straight_ops).
  { unfold _straight_ops. rewrite !elem_of_cons. tauto. }
  destruct (Hstraight operators.eq Hop) as (ev & Hev & Hval).
  exists ev. split; [exact Hev|].
  exact (Hval {["id" := VInt 1]} (VInt 1) VNone eq_refl eq_refl).
Defined.

End DisjunctionExamples.

(* ===================================================================== *)
(** * attributes.py: histories, deletion, and the manager's sweep         *)
(* ===================================================================== *)

Section TrackerHistory.
Import Attributes.

Implicit Types (self : PropHistory) (d : gmap string value) (u v w : value).

(** An attribute that had no entry in the instance dictionary does not go
    back to having none: [setattr] captures [None] for it, and [rollback]
    then stores [None] under the key. *)
Theorem rollback_of_first_assignment_stores_None :
  forall self d v,
    d !! key self = None ->
    scalar v ->
    exists s1 d1,
      setattr self d v = Ok (s1, d1) /\
      snd (rollback s1 d1) = <[key self := VNone]> d /\
      snd (rollback s1 d1) !! key self = Some VNone /\
      snd (rollback s1 d1) <> d /\
      orig (fst (rollback s1 d1)) = NONE.
Proof.
  intros self d v Hd Hv. rewrite (setattr_scalar _ _ _ Hv).
  eexists _, _. split; [reflexivity|].
  unfold rollback, dict_get. simpl. rewrite Hd. simpl.
  rewrite insert_insert_eq.
  split; [reflexivity|]. split; [apply lookup_insert_eq|].
  split; [|reflexivity].
  intros Heq. assert (H : <[key self := VNone]> d !! key self = d !! key self)
    by (by rewrite Heq).
  rewrite lookup_insert_eq, Hd in H. discriminate.
Qed.

Lemma rollback_of_first_assignment_witness :
  snd (rollback {| key := "x"; orig := Orig VNone |} {["x" := VInt 1]})
    = {["x" := VNone]}.
Proof.
  destruct (rollback_of_first_assignment_stores_None (PropHistory_init "x") ∅
              (VInt 1) (lookup_empty _) eq_refl) as (s1 & d1 & Hset & Hd & _).
  injection Hset as <- <-. simpl in Hd.
  rewrite insert_empty in Hd. exact Hd.
Defined.

(** The three history lists of a tracker through an assignment: on a
    clean tracker whose attribute holds [u], [setattr(w)] makes [w] the
    one added item and [u] the one deleted item, unless [u] is [None],
    which is never reported as deleted; afterwards [commit] makes [w] the
    unchanged item, and [rollback] makes [u] the unchanged item. *)
Theorem history_lists_follow_set_commit_rollback :
  forall self d u w,
    orig self = NONE ->
    d !! key self = Some u ->
    scalar w ->
    unchanged_items self d = Ok [u] /\
    added_items self d = Ok [] /\
    deleted_items self = [] /\
    exists s1 d1,
      setattr self d w = Ok (s1, d1) /\
      added_items s1 d1 = Ok [w] /\
      deleted_items s1 = (if is_None u then [] else [u]) /\
      unchanged_items s1 d1 = Ok [] /\
      unchanged_items (commit s1) d1 = Ok [w] /\
      added_items (commit s1) d1 = Ok [] /\
      deleted_items (commit s1) = [] /\
      unchanged_items (fst (rollback s1 d1)) (snd (rollback s1 d1)) = Ok [u] /\
      added_items (fst (rollback s1 d1)) (snd (rollback s1 d1)) = Ok [] /\
      deleted_items (fst (rollback s1 d1)) = [].
Proof.
  intros self d u w Ho Hd Hw.
  unfold unchanged_items, added_items, deleted_items, getattr.
  rewrite Ho, Hd. simpl.
  split; [reflexivity|]. split; [reflexivity|]. split; [reflexivity|].
  rewrite (setattr_scalar _ _ _ Hw). eexists _, _. split; [reflexivity|].
  unfold rollback, commit. simpl.
  rewrite (dict_get_Some _ _ _ Hd), !lookup_insert_eq. simpl.
  repeat split; try reflexivity. by destruct u.
Qed.

Lemma history_lists_witness :
  deleted_items {| key := "x"; orig := Orig (VInt 1) |} = [VInt 1] /\
  added_items {| key := "x"; orig := Orig (VInt 1) |}
              (<["x" := VInt 2]> {["x" := VInt 1]})
    = Ok [VInt 2].
Proof.
  assert (Hx : ({["x" := VInt 1]} : gmap string value) !! "x"%string
               = Some (VInt 1)) by reflexivity.
  destruct (history_lists_follow_set_commit_rollback
              {| key := "x"; orig := NONE |}
              {["x" := VInt 1]} (VInt 1) (VInt 2) eq_refl Hx eq_refl)
    as (_ & _ & _ & s1 & d1 & Hset & Ha & Hdel & _).
  injection Hset as <- <-. simpl in Ha, Hdel.
  split; [exact Hdel | exact Ha].
Defined.

End TrackerHistory.

Section ManagerSweep.
Import Attributes.
Context {C E : Type} `{sem : CallableSem C E}.

Implicit Types (w : world C E) (k : string) (c : C) (attrs : gmap string (hist C)).

Ltac run :=
  unfold get_attribute, set_attribute, AttributeManager.delete_attribute,
    AttributeManager.hist_delattr, hist_setattr, get_history, hist_getattr,
    gethistory, CallableProp_getattr, history_getitem, history_setitem,
    attribute_history, dict_setitem, invoke, try_KeyError, modify, get, put,
    raise, mbind, M_bind, bind, mret, M_ret, ret; simpl.

(** Reading an attribute that has neither a tracker nor an entry in the
    instance dictionary raises [AttributeError] for the key, and is not
    without effect: a clean tracker has been registered for the attribute. *)
Theorem get_attribute_of_unknown_raises_and_registers :
  forall w k,
    default ∅ (_managed_attributes (obj w)) !! k = None ->
    __dict__ (obj w) !! k = None ->
    get_attribute k w =
      (Raise (AttributeError k),
       mkWorld (mkInstance (__dict__ (obj w))
                  (Some (<[k := HProp (PropHistory_init k)]>
                           (default ∅ (_managed_attributes (obj w))))))
               (ext w) (invoked w)).
Proof.
  intros w k Hm Hd.
  destruct (_managed_attributes (obj w)) as [attrs|] eqn:Ha; simpl in Hm; run;
    rewrite Ha; simpl; rewrite ?Hm, ?lookup_empty; simpl; rewrite ?Ha; simpl;
    unfold getattr; simpl; rewrite Hd; simpl; rewrite Hd; reflexivity.
Qed.

(** Assigning to an attribute that is still behind its lazy slot, and has
    no value in the dictionary, runs the callable first, once: the value
    it returns is what the tracker captures, and the assigned value is
    what the dictionary holds. *)
Theorem set_attribute_resolves_the_lazy_slot_first :
  forall w k c attrs u v o' e',
    _managed_attributes (obj w) = Some attrs ->
    attrs !! k = Some (HCallable (mkCallableProp k c)) ->
    dict_get (__dict__ (obj w)) k = VNone ->
    run_callable c (obj w) (ext w) = (Ok u, o', e') ->
    scalar v ->
    set_attribute k v w =
      (Ok tt,
       mkWorld (mkInstance (<[k := v]> (__dict__ o'))
                  (Some (<[k := HProp {| key := k; orig := Orig u |}]>
                           (default ∅ (_managed_attributes o')))))
               e' (invoked w ++ [c])).
Proof.
  intros w k c attrs u v o' e' Hm Ha Hd Hrun Hv. run.
  rewrite Hm. simpl. rewrite Ha. simpl. rewrite Hd. simpl. rewrite Hrun. simpl.
  unfold scalar in Hv.
  destruct (_managed_attributes o') as [attrs'|]; simpl;
    rewrite lookup_insert_eq; simpl; unfold setattr; simpl; rewrite Hv; simpl;
    unfold dict_get; rewrite lookup_insert_eq; simpl;
    rewrite !insert_insert_eq; reflexivity.
Qed.

(** Assigning a list to a tracked scalar attribute raises, and nothing
    has changed: neither the value, nor what the tracker has captured. *)
Theorem set_attribute_refuses_a_list :
  forall w k attrs p v,
    _managed_attributes (obj w) = Some attrs ->
    attrs !! k = Some (HProp p) ->
    isinstance_list v = true ->
    set_attribute k v w
      = (Raise (StringException "assigning a list to scalar property"), w).
Proof.
  intros w k attrs p v Hm Ha Hv. run. rewrite Hm. simpl. rewrite Ha. simpl.
  unfold setattr. rewrite Hv. reflexivity.
Qed.

(** [delete_attribute] on a tracked attribute that holds [u] does not
    remove it: the attribute reads as [None] afterwards, and the tracker
    has captured [u]. *)
Theorem delete_attribute_leaves_None :
  forall w k attrs p u,
    _managed_attributes (obj w) = Some attrs ->
    attrs !! k = Some (HProp p) ->
    key p = k ->
    __dict__ (obj w) !! k = Some u ->
    let w1 := snd (AttributeManager.delete_attribute k w) in
    fst (AttributeManager.delete_attribute k w) = Ok tt /\
    __dict__ (obj w1) = <[k := VNone]> (__dict__ (obj w)) /\
    _managed_attributes (obj w1)
      = Some (<[k := HProp {| key := k; orig := Orig u |}]> attrs) /\
    get_attribute k w1 = (Ok (Value VNone), w1).
Proof.
  intros w k attrs p u Hm Ha Hk Hd w1. subst w1.
  assert (Hdel : AttributeManager.delete_attribute k w =
            (Ok tt,
             mkWorld (mkInstance (<[k := VNone]> (__dict__ (obj w)))
                        (Some (<[k := HProp {| key := k; orig := Orig u |}]> attrs)))
                     (ext w) (invoked w))).
  { run. rewrite Hm. simpl. rewrite Ha. simpl. rewrite Hm. simpl.
    unfold dict_get. rewrite Hk, Hd. reflexivity. }
  rewrite Hdel. simpl. repeat split.
  eapply get_attribute_tracked; simpl.
  - reflexivity.
  - apply lookup_insert_eq.
  - reflexivity.
  - apply lookup_insert_eq.
Qed.

(** *** [rollback] and [commit] over the whole side table *)

Lemma clean_tracker p k : key p = k -> orig p = NONE -> p = PropHistory_init k.
Proof. destruct p as [k' o]. simpl. by intros -> ->. Qed.

Lemma sweep_rollback (l : list (string * hist C)) :
  NoDup l.*1 ->
  (forall k p, (k, HProp p) ∈ l -> key p = k) ->
  forall o attrs,
    _managed_attributes o = Some attrs ->
    (forall k h, (k, h) ∈ l -> attrs !! k = Some h) ->
    exists attrs',
      _managed_attributes (foldr AttributeManager.hist_rollback o l) = Some attrs' /\
      (forall k, k ∉ l.*1 ->
         __dict__ (foldr AttributeManager.hist_rollback o l) !! k = __dict__ o !! k /\
         attrs' !! k = attrs !! k) /\
      (forall k h, (k, h) ∈ l ->
         __dict__ (foldr AttributeManager.hist_rollback o l) !! k
           = rolled_back (__dict__ o) attrs k /\
         attrs' !! k = cleaned attrs k).
Proof.
  induction l as [|[k0 h0] l IH]; intros Hnd Hkey o attrs Hm Hl; simpl.
  - exists attrs. split; [done|]. split; [done|].
    intros k h Hin. by apply elem_of_nil in Hin.
  - simpl in Hnd. apply NoDup_cons in Hnd as [Hk0 Hnd].
    destruct (IH Hnd (fun k p H => Hkey k p (list_elem_of_further _ _ _ H))
                 o attrs Hm (fun k h H => Hl k h (list_elem_of_further _ _ _ H)))
      as (attrs1 & Hm1 & Hout & Hin).
    destruct (Hout k0 Hk0) as [Hd0 Ha0].
    pose proof (Hl k0 h0 (list_elem_of_here _ _)) as Hh0.
    remember (foldr AttributeManager.hist_rollback o l) as o1 eqn:Ho1.
    clear Ho1 IH. unfold AttributeManager.hist_rollback. simpl.
    destruct h0 as [p0|cp0].
    + pose proof (Hkey k0 p0 (list_elem_of_here _ _)) as Hkp.
      unfold rollback. rewrite Hm1. simpl.
      destruct (orig p0) as [|x] eqn:Ho; simpl.
      * eexists. split; [reflexivity|]. split.
        { intros k Hk. apply not_elem_of_cons in Hk as [Hne Hk]. apply not_eq_sym in Hne.
          destruct (Hout k Hk) as [Hd Ha]. split; [done|].
          by rewrite lookup_insert_ne. }
        intros k h Hkh. apply elem_of_cons in Hkh as [[= -> ->]|Hkh].
        { rewrite lookup_insert_eq. unfold rolled_back, cleaned.
          rewrite Hh0, Ho. split; [done|].
          by rewrite (clean_tracker p0 k0 Hkp Ho). }
        assert (Hne : k0 <> k).
        { intros <-. apply Hk0. apply list_elem_of_fmap. by exists (k0, h). }
        rewrite lookup_insert_ne by done. by apply (Hin k h).
      * eexists. split; [reflexivity|]. rewrite Hkp. split.
        { intros k Hk. apply not_elem_of_cons in Hk as [Hne Hk]. apply not_eq_sym in Hne.
          destruct (Hout k Hk) as [Hd Ha].
          rewrite !lookup_insert_ne by done. done. }
        intros k h Hkh. apply elem_of_cons in Hkh as [[= -> ->]|Hkh].
        { rewrite !lookup_insert_eq. unfold rolled_back, cleaned.
          by rewrite Hh0, Ho. }
        assert (Hne : k0 <> k).
        { intros <-. apply Hk0. apply list_elem_of_fmap. by exists (k0, h). }
        rewrite !lookup_insert_ne by done. by apply (Hin k h).
    + exists attrs1. split; [done|]. split.
      { intros k Hk. apply not_elem_of_cons in Hk as [Hne Hk]. apply not_eq_sym in Hne. by apply Hout. }
      intros k h Hkh. apply elem_of_cons in Hkh as [[= -> ->]|Hkh]; [|by apply (Hin k h)].
      unfold rolled_back, cleaned. rewrite Hh0. by rewrite Hd0, Ha0.
Qed.

Lemma sweep_commit (l : list (string * hist C)) :
  NoDup l.*1 ->
  forall o attrs,
    _managed_attributes o = Some attrs ->
    (forall k h, (k, h) ∈ l -> attrs !! k = Some h) ->
    __dict__ (foldr AttributeManager.hist_commit o l) = __dict__ o /\
    exists attrs',
      _managed_attributes (foldr AttributeManager.hist_commit o l) = Some attrs' /\
      (forall k, k ∉ l.*1 -> attrs' !! k = attrs !! k) /\
      (forall k h, (k, h) ∈ l ->
         attrs' !! k = match h with
                       | HProp p => Some (HProp (commit p))
                       | HCallable _ => Some h
                       end).
Proof.
  induction l as [|[k0 h0] l IH]; intros Hnd o attrs Hm Hl; simpl.
  - split; [done|]. exists attrs. split; [done|]. split; [done|].
    intros k h Hin. by apply elem_of_nil in Hin.
  - simpl in Hnd. apply NoDup_cons in Hnd as [Hk0 Hnd].
    destruct (IH Hnd o attrs Hm (fun k h H => Hl k h (list_elem_of_further _ _ _ H)))
      as (Hd1 & attrs1 & Hm1 & Hout & Hin).
    pose proof (Hl k0 h0 (list_elem_of_here _ _)) as Hh0.
    remember (foldr AttributeManager.hist_commit o l) as o1 eqn:Ho1.
    clear Ho1 IH. unfold AttributeManager.hist_commit. simpl.
    destruct h0 as [p0|cp0]; simpl.
    + split; [done|]. rewrite Hm1. simpl. eexists. split; [reflexivity|]. split.
      { intros k Hk. apply not_elem_of_cons in Hk as [Hne Hk]. apply not_eq_sym in Hne.
        rewrite lookup_insert_ne by done. by apply Hout. }
      intros k h Hkh. apply elem_of_cons in Hkh as [[= -> ->]|Hkh].
      { by rewrite lookup_insert_eq. }
      assert (Hne : k0 <> k).
      { intros <-. apply Hk0. apply list_elem_of_fmap. by exists (k0, h). }
      rewrite lookup_insert_ne by done. by apply (Hin k h).
    + split; [done|]. exists attrs1. split; [done|]. split.
      { intros k Hk. apply not_elem_of_cons in Hk as [Hne Hk]. apply not_eq_sym in Hne. by apply Hout. }
      intros k h Hkh. apply elem_of_cons in Hkh as [[= -> ->]|Hkh]; [|by apply (Hin k h)].
      rewrite (Hout k0 Hk0). exact Hh0.
Qed.

Lemma not_in_map_to_list attrs k :
  k ∉ (map_to_list attrs).*1 <-> attrs !! k = None.
Proof.
  rewrite list_elem_of_fmap. split.
  - intros Hn. destruct (attrs !! k) as [h|] eqn:Hk; [|done].
    exfalso. apply Hn. exists (k, h). split; [done|].
    by apply elem_of_map_to_list.
  - intros Hk ([k' h] & -> & Hin). apply elem_of_map_to_list in Hin.
    simpl in Hk. by rewrite Hk in Hin.
Qed.

(** The manager's [rollback] puts every tracked attribute whose tracker
    holds a captured value back to that value and leaves every other
    entry of the dictionary alone; [commit] changes no value.  Both leave
    every tracker clean and every lazy slot in place, and invoke no
    callable; after a [commit], a [rollback] changes no value. *)
Theorem manager_rollback_and_commit_sweep_every_tracker :
  forall w attrs,
    _managed_attributes (obj w) = Some attrs ->
    well_keyed attrs ->
    (exists w1 attrs1,
        AttributeManager.rollback w = (Ok tt, w1) /\
        ext w1 = ext w /\ invoked w1 = invoked w /\
        _managed_attributes (obj w1) = Some attrs1 /\
        forall k, __dict__ (obj w1) !! k = rolled_back (__dict__ (obj w)) attrs k /\
                  attrs1 !! k = cleaned attrs k) /\
    (exists w2 attrs2,
        AttributeManager.commit w = (Ok tt, w2) /\
        ext w2 = ext w /\ invoked w2 = invoked w /\
        __dict__ (obj w2) = __dict__ (obj w) /\
        _managed_attributes (obj w2) = Some attrs2 /\
        (forall k, attrs2 !! k = cleaned attrs k) /\
        forall k, __dict__ (obj (snd (AttributeManager.rollback w2))) !! k
                  = __dict__ (obj w) !! k).
Proof.
  intros w attrs Hm Hwk.
  assert (Hl : forall k h, (k, h) ∈ map_to_list attrs -> attrs !! k = Some h)
    by (intros k h; apply elem_of_map_to_list).
  assert (Hkey : forall k p, (k, HProp p) ∈ map_to_list attrs -> key p = k)
    by (intros k p Hin; apply Hwk; by apply elem_of_map_to_list).
  pose proof (NoDup_fst_map_to_list attrs) as Hnd.
  split.
  - destruct (sweep_rollback _ Hnd Hkey (obj w) attrs Hm Hl)
      as (attrs1 & Hm1 & Hout & Hin).
    unfold AttributeManager.rollback, attribute_history, modify, mbind, M_bind, bind.
    rewrite Hm. simpl. eexists _, attrs1. split; [reflexivity|]. simpl.
    split; [done|]. split; [done|]. split; [exact Hm1|].
    intros k. destruct (attrs !! k) as [h|] eqn:Hk.
    + apply (Hin k h). by apply elem_of_map_to_list.
    + destruct (Hout k (proj2 (not_in_map_to_list attrs k) Hk)) as [Hd Ha].
      unfold rolled_back, cleaned. by rewrite Hk, Hd, Ha.
  - destruct (sweep_commit _ Hnd (obj w) attrs Hm Hl)
      as (Hd2 & attrs2 & Hm2 & Hout & Hin).
    assert (Hclean : forall k, attrs2 !! k = cleaned attrs k).
    { intros k. unfold cleaned. destruct (attrs !! k) as [h|] eqn:Hk.
      - rewrite (Hin k h) by (by apply elem_of_map_to_list).
        destruct h as [p|c]; [|done].
        unfold commit. by rewrite (Hwk k p Hk).
      - rewrite (Hout k) by (by apply not_in_map_to_list). done. }
    unfold AttributeManager.commit, attribute_history, modify, mbind, M_bind, bind.
    rewrite Hm. simpl. eexists _, attrs2. split; [reflexivity|]. simpl.
    split; [done|]. split; [done|]. split; [exact Hd2|]. split; [exact Hm2|].
    split; [exact Hclean|].
    intros k.
    assert (Hl2 : forall k h, (k, h) ∈ map_to_list attrs2 -> attrs2 !! k = Some h)
      by (intros k' h; apply elem_of_map_to_list).
    assert (Hkey2 : forall k p, (k, HProp p) ∈ map_to_list attrs2 -> key p = k).
    { intros k' p Hin'. apply elem_of_map_to_list in Hin'.
      rewrite Hclean in Hin'. unfold cleaned in Hin'.
      destruct (attrs !! k') as [[p'|c']|]; try discriminate.
      by injection Hin' as <-. }
    destruct (sweep_rollback _ (NoDup_fst_map_to_list attrs2) Hkey2 _ attrs2 Hm2 Hl2)
      as (attrs3 & Hm3 & Hout3 & Hin3).
    unfold AttributeManager.rollback, attribute_history, modify, mbind, M_bind, bind.
    simpl. rewrite Hm2. simpl. rewrite <- Hd2.
    destruct (attrs2 !! k) as [h|] eqn:Hk.
    + rewrite (proj1 (Hin3 k h (proj2 (elem_of_map_to_list _ _ _) Hk))).
      unfold rolled_back. rewrite Hk. rewrite Hclean in Hk. unfold cleaned in Hk.
      destruct (attrs !! k) as [[p'|c']|]; try discriminate;
        injection Hk as <-; reflexivity.
    + by rewrite (proj1 (Hout3 k (proj2 (not_in_map_to_list attrs2 k) Hk))).
Qed.

End ManagerSweep.

Section ManagerExamples.
Import Attributes Examples.

Lemma get_attribute_of_unknown_witness :
  fst (get_attribute "y" tracked_x) = Raise (AttributeError "y") /\
  exists attrs,
    _managed_attributes (obj (snd (get_attribute "y" tracked_x))) = Some attrs /\
    attrs !! "y"%string = Some (HProp (PropHistory_init "y")).
Proof.
  assert (H1 : default ∅ (_managed_attributes (obj tracked_x)) !! "y"%string = None)
    by reflexivity.
  assert (H2 : __dict__ (obj tracked_x) !! "y"%string = None) by reflexivity.
  rewrite (get_attribute_of_unknown_raises_and_registers tracked_x "y" H1 H2).
  split; [reflexivity|]. eexists. split; [reflexivity|]. apply lookup_insert_eq.
Defined.

Lemma set_attribute_through_lazy_slot_witness :
  let w1 := snd (set_attribute "x" (VInt 9) lazy_x) in
  call_count w1 = 1%nat /\
  __dict__ (obj w1) !! "x"%string = Some (VInt 9) /\
  exists attrs,
    _managed_attributes (obj w1) = Some attrs /\
    attrs !! "x"%string = Some (HProp {| key := "x"; orig := Orig (VInt 7) |}).
Proof.
  cbv zeta.
  assert (Ha : ({["x" := HCallable (mkCallableProp "x" (Probe (VInt 7)))]}
                : gmap string (hist probe)) !! "x"%string
               = Some (HCallable (mkCallableProp "x" (Probe (VInt 7)))))
    by reflexivity.
  assert (Hd : dict_get (__dict__ (obj lazy_x)) "x" = VNone) by reflexivity.
  rewrite (set_attribute_resolves_the_lazy_slot_first lazy_x "x" (Probe (VInt 7))
             _ (VInt 7) (VInt 9) _ _ eq_refl Ha Hd eq_refl eq_refl).
  split; [reflexivity|]. split; [apply lookup_insert_eq|].
  eexists. split; [reflexivity|]. apply lookup_insert_eq.
Defined.

Lemma set_attribute_refuses_a_list_witness :
  set_attribute "x" (VList [VInt 1]) tracked_x
    = (Raise (StringException "assigning a list to scalar property"), tracked_x).
Proof.
  assert (Ha : ({["x" := HProp (PropHistory_init "x")]}
                : gmap string (hist probe)) !! "x"%string
               = Some (HProp (PropHistory_init "x"))) by reflexivity.
  exact (set_attribute_refuses_a_list tracked_x "x" _ _ (VList [VInt 1])
           eq_refl Ha eq_refl).
Defined.

Lemma delete_attribute_witness :
  fst (get_attribute "x" (snd (AttributeManager.delete_attribute "x" tracked_x)))
    = Ok (Value VNone).
Proof.
  assert (Ha : ({["x" := HProp (PropHistory_init "x")]}
                : gmap string (hist probe)) !! "x"%string
               = Some (HProp (PropHistory_init "x"))) by reflexivity.
  assert (Hd : __dict__ (obj tracked_x) !! "x"%string = Some (VInt 1))
    by reflexivity.
  destruct (delete_attribute_leaves_None tracked_x "x" _ _ (VInt 1)
              eq_refl Ha eq_refl Hd) as (_ & _ & _ & Hget).
  rewrite Hget. reflexivity.
Defined.

Lemma manager_sweep_witness :
  let changed := snd (set_attribute "x" (VInt 2) tracked_x) in
  __dict__ (obj changed) !! "x"%string = Some (VInt 2) /\
  __dict__ (obj (snd (AttributeManager.rollback changed))) !! "x"%string
    = Some (VInt 1) /\
  __dict__ (obj (snd (AttributeManager.rollback
                        (snd (AttributeManager.commit changed))))) !! "x"%string
    = Some (VInt 2).
Proof.
  cbv zeta.
  assert (Hm : _managed_attributes (obj (snd (set_attribute "x" (VInt 2) tracked_x)))
               = Some {["x" := HProp {| key := "x"; orig := Orig (VInt 1) |}]}).
  { vm_compute. reflexivity. }
  assert (Hwk : well_keyed
                  ({["x" := HProp {| key := "x"; orig := Orig (VInt 1) |}]}
                   : gmap string (hist probe))).
  { intros k p Hk. apply lookup_singleton_Some in Hk as [<- [= <-]].
    reflexivity. }
  destruct (manager_rollback_and_commit_sweep_every_tracker _ _ Hm Hwk)
    as ((w1 & attrs1 & Hr & _ & _ & _ & Hlook1)
        & (w2 & attrs2 & Hc & _ & _ & _ & _ & _ & Hlook2)).
  rewrite Hr, Hc. cbn [snd].
  split; [vm_compute; reflexivity|]. split.
  - rewrite (proj1 (Hlook1 "x"%string)). vm_compute. reflexivity.
  - rewrite (Hlook2 "x"%string). vm_compute. reflexivity.
Defined.

End ManagerExamples.

(* ===================================================================== *)
(** * attributes.py: a lazy slot installed over a tracker                 *)
(* ===================================================================== *)

Section ReplacedTracker.
Import Attributes.
Context {C E : Type} `{sem : CallableSem C E}.

Implicit Types (w : world C E) (attrs : gmap string (hist C)) (k : string).

Lemma rollback_lookup w attrs :
  _managed_attributes (obj w) = Some attrs ->
  well_keyed attrs ->
  fst (AttributeManager.rollback w) = Ok tt /\
  invoked (snd (AttributeManager.rollback w)) = invoked w /\
  forall k, __dict__ (obj (snd (AttributeManager.rollback w))) !! k
            = rolled_back (__dict__ (obj w)) attrs k.
Proof.
  intros Hm Hwk.
  assert (Hl : forall k h, (k, h) ∈ map_to_list attrs -> attrs !! k = Some h)
    by (intros k h; apply elem_of_map_to_list).
  assert (Hkey : forall k p, (k, HProp p) ∈ map_to_list attrs -> key p = k)
    by (intros k p Hin; apply Hwk; by apply elem_of_map_to_list).
  destruct (sweep_rollback _ (NoDup_fst_map_to_list attrs) Hkey (obj w) attrs Hm Hl)
    as (attrs1 & Hm1 & Hout & Hin).
  unfold AttributeManager.rollback, attribute_history, modify, mbind, M_bind, bind.
  rewrite Hm. simpl. split; [done|]. split; [done|].
  intros k. destruct (attrs !! k) as [h|] eqn:Hk.
  - apply (Hin k h). by apply elem_of_map_to_list.
  - destruct (Hout k (proj2 (not_in_map_to_list attrs k) Hk)) as [Hd Ha].
    unfold rolled_back. by rewrite Hk, Hd.
Qed.

(** [set_callable] on an attribute whose tracker holds a captured value
    throws the tracker away with what it had captured: the [rollback] of
    the object, which would have put the attribute back to the captured
    value, now leaves the assigned value in place, and invokes nothing. *)
Theorem set_callable_forgets_the_pending_change :
  forall w attrs k p u v (c : C),
    _managed_attributes (obj w) = Some attrs ->
    well_keyed attrs ->
    attrs !! k = Some (HProp p) ->
    orig p = Orig u ->
    __dict__ (obj w) !! k = Some v ->
    __dict__ (obj (snd (AttributeManager.rollback w))) !! k = Some u /\
    exists w1,
      set_callable k c w = (Ok tt, w1) /\
      __dict__ (obj w1) = __dict__ (obj w) /\
      _managed_attributes (obj w1)
        = Some (<[k := HCallable (mkCallableProp k c)]> attrs) /\
      __dict__ (obj (snd (AttributeManager.rollback w1))) !! k = Some v /\
      invoked (snd (AttributeManager.rollback w1)) = invoked w.
Proof.
  intros w attrs k p u v c Hm Hwk Hk Ho Hv. split.
  - destruct (rollback_lookup w attrs Hm Hwk) as (_ & _ & Hlook).
    rewrite Hlook. unfold rolled_back. by rewrite Hk, Ho.
  - unfold set_callable, history_setitem, attribute_history, modify, mbind,
      M_bind, bind.
    rewrite Hm. simpl. eexists. split; [reflexivity|]. simpl.
    split; [reflexivity|]. split; [reflexivity|].
    set (w1 := mkWorld
                 (mkInstance (__dict__ (obj w))
                    (Some (<[k := HCallable (mkCallableProp k c)]> attrs)))
                 (ext w) (invoked w)).
    assert (Hwk1 : well_keyed (<[k := HCallable (mkCallableProp k c)]> attrs)).
    { intros k' p' Hk'. destruct (decide (k = k')) as [<-|Hne].
      - rewrite lookup_insert_eq in Hk'. discriminate.
      - rewrite lookup_insert_ne in Hk' by done. by apply Hwk. }
    destruct (rollback_lookup w1 _ eq_refl Hwk1) as (_ & Hinv & Hlook).
    split; [|exact Hinv].
    rewrite Hlook. unfold rolled_back. rewrite lookup_insert_eq. exact Hv.
Qed.

End ReplacedTracker.

Section ReplacedTrackerExamples.
Import Attributes Examples.

Lemma set_callable_forgets_witness :
  let changed := snd (set_attribute "x" (VInt 2) tracked_x) in
  __dict__ (obj (snd (AttributeManager.rollback changed))) !! "x"%string
    = Some (VInt 1) /\
  __dict__ (obj (snd (AttributeManager.rollback
                        (snd (set_callable "x" (Probe (VInt 7)) changed)))))
    !! "x"%string = Some (VInt 2).
Proof.
  cbv zeta.
  assert (Hm : _managed_attributes (obj (snd (set_attribute "x" (VInt 2) tracked_x)))
               = Some {["x" := HProp {| key := "x"; orig := Orig (VInt 1) |}]}).
  { vm_compute. reflexivity. }
  assert (Hwk : well_keyed
                  ({["x" := HProp {| key := "x"; orig := Orig (VInt 1) |}]}
                   : gmap string (hist probe))).
  { intros k p Hk. apply lookup_singleton_Some in Hk as [<- [= <-]].
    reflexivity. }
  assert (Hk : ({["x" := HProp {| key := "x"; orig := Orig (VInt 1) |}]}
                : gmap string (hist probe)) !! "x"%string
               = Some (HProp {| key := "x"; orig := Orig (VInt 1) |}))
    by reflexivity.
  assert (Hv : __dict__ (obj (snd (set_attribute "x" (VInt 2) tracked_x)))
                 !! "x"%string = Some (VInt 2)).
  { vm_compute. reflexivity. }
  destruct (set_callable_forgets_the_pending_change _ _ "x" _ (VInt 1) (VInt 2)
              (Probe (VInt 7)) Hm Hwk Hk eq_refl Hv)
    as (Hbefore & w1 & Hset & _ & _ & Hafter & _).
  split; [exact Hbefore|]. rewrite Hset. exact Hafter.
Defined.

End ReplacedTrackerExamples.

(* ===================================================================== *)
(** * orm/query.py: guards, windows, parameters and accumulation          *)
(* ===================================================================== *)

Section BuilderGuards.
Import Evaluator Query.
Context `{sql : SqlLayer}.

Implicit Types (q : Query) (h : heap) (b : builder_call).

Lemma not_None_true {A} (x : option A) : x <> None -> not_None x = true.
Proof. by destruct x. Qed.

Lemma criteria_guards_refuse fn q h :
  _statement q <> None \/ _limit q <> None \/ _offset q <> None ->
  _generative [__no_statement_condition; __no_limit_offset] fn q h
    = (Raise InvalidRequestError, h).
Proof.
  intros Hq. unfold _generative, _clone, run_assertions,
    __no_statement_condition, __no_limit_offset, mbind, M_bind, bind, ret, raise.
  destruct (_statement q) as [s|] eqn:Hs; simpl; [reflexivity|].
  destruct Hq as [Hq|[Hq|Hq]]; [done| |].
  - by rewrite (not_None_true _ Hq).
  - rewrite (not_None_true _ Hq). by rewrite orb_true_r.
Qed.

Lemma statement_guard_refuses fn q h :
  _statement q <> None ->
  _generative [__no_statement_condition] fn q h = (Raise InvalidRequestError, h).
Proof.
  intros Hq. unfold _generative, _clone, run_assertions,
    __no_statement_condition, mbind, M_bind, bind, ret, raise.
  by rewrite (not_None_true _ Hq).
Qed.

(** The calls that add to the criteria of the statement ([filter],
    [having], [order_by], [group_by], [join], [outerjoin]) refuse a query
    that has a raw statement, a LIMIT or an OFFSET, a LIMIT of 0 included;
    [slice], [limit], [offset] and [distinct] refuse a query that has a
    raw statement; [from_statement] refuses a query that has a criterion,
    a statement, a FROM clause, a LIMIT, an OFFSET, or a non-empty GROUP
    BY or ORDER BY.  Each refusal is [InvalidRequestError], and nothing
    has been created or changed on the heap. *)
Theorem builder_calls_refuse_what_their_guards_exclude :
  forall b q h,
    (adds_criteria b = true ->
     _statement q <> None \/ _limit q <> None \/ _offset q <> None ->
     call b q h = (Raise InvalidRequestError, h)) /\
    (sets_window b = true ->
     _statement q <> None ->
     call b q h = (Raise InvalidRequestError, h)) /\
    (forall stmt,
        _criterion q <> None \/ _statement q <> None \/ _from_obj q <> None \/
        _limit q <> None \/ _offset q <> None \/
        criteria_truth (_group_by q) = true \/
        criteria_truth (_order_by q) = true ->
        call (FromStatement stmt) q h = (Raise InvalidRequestError, h)).
Proof.
  intros b q h. split; [|split].
  - intros Hb Hq. destruct b; try discriminate; simpl;
      by apply criteria_guards_refuse.
  - intros Hb Hq. destruct b; try discriminate; simpl;
      by apply statement_guard_refuses.
  - intros stmt Hq. simpl.
    unfold from_statement, _generative, _clone, run_assertions,
      __no_criterion_condition, mbind, M_bind, bind, ret, raise.
    assert (Ht : not_None (_criterion q) || not_None (_statement q)
                 || not_None (_from_obj q) || not_None (_limit q)
                 || not_None (_offset q) || criteria_truth (_group_by q)
                 || criteria_truth (_order_by q) = true).
    { rewrite !orb_true_iff.
      destruct Hq as [Hq|[Hq|[Hq|[Hq|[Hq|[Hq|Hq]]]]]];
        try apply not_None_true in Hq; tauto. }
    by rewrite Ht.
Qed.

(** *** Windows *)

(** [slice(a, b)] followed by [slice(c, d)] is [slice(a + c, a + d)]: the
    offsets add up, and the LIMIT is that of the second slice alone; the
    end [b] of the first window plays no part. *)
Theorem slice_of_a_slice_forgets_the_first_limit :
  forall q h (a b c d : Z),
    _statement q = None ->
    exists q1 q2,
      slice (Some a) (Some b) q h = (Ok q1, h) /\
      slice (Some c) (Some d) q1 h = (Ok q2, h) /\
      _offset q2 = Some (default 0 (_offset q) + a + c) /\
      _limit q2 = Some (d - c) /\
      slice (Some (a + c)) (Some (a + d)) q h = (Ok q2, h).
Proof.
  intros q h a b c d Hs.
  unfold slice, _generative, _clone, run_assertions, __no_statement_condition,
    slice_body, mbind, M_bind, bind, ret, raise.
  rewrite Hs. simpl.
  eexists _, _. split; [reflexivity|]. simpl. rewrite Hs. simpl.
  split; [reflexivity|].
  split; [reflexivity|]. split; [reflexivity|].
  unfold set_limit, set_offset. simpl.
  do 2 f_equal. f_equal; f_equal; lia.
Qed.

(** *** Parameters *)

(** [params] binds the clone to a new dictionary: the old entries, then
    the keyword arguments over them, the entries of the positional
    dictionary over those.  The dictionary of the original query is as it
    was.  More than one positional argument is an [ArgumentError]. *)
Theorem params_merge_into_a_copy :
  forall q h (args : list (gmap string value)) (kwargs : gmap string value),
    (_params q < length h)%nat ->
    (forall a0 a1 rest, args = a0 :: a1 :: rest ->
       params args kwargs q h = (Raise ArgumentError, h)) /\
    (forall given, given = match args with [a] => a ∪ kwargs | _ => kwargs end ->
       (length args <= 1)%nat ->
       exists q' h',
         params args kwargs q h = (Ok q', h') /\
         read_params h' (_params q') = given ∪ read_params h (_params q) /\
         read_params h' (_params q) = read_params h (_params q) /\
         _params q' <> _params q).
Proof.
  intros q h args kwargs Hal. split.
  - intros a0 a1 rest ->. reflexivity.
  - intros given -> Hlen.
    unfold params, _generative, _clone, run_assertions, params_body, alloc, write,
      modify, get, mbind, M_bind, bind, ret, raise.
    assert (Hnew : forall (c c' : cell),
              read_params (<[length h := c']> (h ++ [c])) (_params q)
                = read_params h (_params q)).
    { intros c c'. unfold read_params, heap, loc in *.
      rewrite list_lookup_insert_ne by lia. by rewrite lookup_app_l by lia. }
    assert (Hrd : forall d,
              read_params (h ++ [CParams d]) (length h) = d).
    { intros d. unfold read_params, heap, loc in *.
      by rewrite list_lookup_middle. }
    assert (Hwr : forall (c : cell) d,
              read_params (<[length h := CParams d]> (h ++ [c])) (length h) = d).
    { intros c d. unfold read_params, heap, loc in *.
      rewrite list_lookup_insert_eq by (rewrite length_app; simpl; lia). done. }
    destruct args as [|a0 [|a1 rest]]; simpl in Hlen; [| |lia]; simpl;
      (eexists _, _; split; [reflexivity|]; simpl;
       rewrite Hwr, Hrd, Hnew; repeat split; lia).
Qed.

(** *** Accumulation *)

Lemma adapt_clause_plain q c as_filter orm_only h :
  no_adapters h q ->
  _adapt_clause q c as_filter orm_only h = (Ok c, h).
Proof.
  intros (Hf & Hp & Ha). unfold _adapt_clause, get, mbind, M_bind, bind, ret.
  rewrite Hf, Hp, Ha. simpl. reflexivity.
Qed.

(** On a query whose clauses nothing rewrites, [filter] accumulates:
    the first criterion is taken as it is, and each later one is joined
    to what is there with AND, in the order of the calls. *)
Theorem filter_accumulates_a_conjunction :
  forall q h (a b : clause),
    no_adapters h q ->
    _statement q = None -> _limit q = None -> _offset q = None ->
    _criterion q = None ->
    exists q1 q2,
      filter (ArgClause a) q h = (Ok q1, h) /\
      _criterion q1 = Some a /\
      filter (ArgClause b) q1 h = (Ok q2, h) /\
      _criterion q2 = Some (clause_and a (Some b)).
Proof.
  intros q h a b Hna Hs Hl Ho Hc.
  assert (Hf : forall q0 x,
            no_adapters h q0 -> _statement q0 = None -> _limit q0 = None ->
            _offset q0 = None ->
            filter (ArgClause x) q0 h =
              (Ok (set_criterion
                     (Some match _criterion q0 with
                           | Some c => clause_and c (Some x)
                           | None => x
                           end) q0), h)).
  { intros q0 x Hna0 Hs0 Hl0 Ho0.
    unfold filter, _generative, _clone, run_assertions, __no_statement_condition,
      __no_limit_offset, filter_body, as_criterion, mbind, M_bind, bind, ret, raise.
    rewrite Hs0. cbn -[_adapt_clause]. rewrite Hl0, Ho0. cbn -[_adapt_clause].
    rewrite (adapt_clause_plain _ _ _ _ _ Hna0).
    by destruct (_criterion q0). }
  rewrite (Hf q a Hna Hs Hl Ho), Hc.
  eexists _, _. split; [reflexivity|]. split; [reflexivity|].
  rewrite Hf; [|exact Hna|exact Hs|exact Hl|exact Ho].
  split; reflexivity.
Qed.

End BuilderGuards.

Section BuilderExamples.
Import Evaluator Query Examples.

Lemma slice_of_a_slice_witness :
  exists q1 q2,
    slice (Some 0) (Some 3) Examples.new_query (Examples.new_heap Examples.User)
      = (Ok q1, Examples.new_heap Examples.User) /\
    slice (Some 2) (Some 4) q1 (Examples.new_heap Examples.User)
      = (Ok q2, Examples.new_heap Examples.User) /\
    _limit q2 = Some 2 /\ _offset q2 = Some 2.
Proof.
  destruct (slice_of_a_slice_forgets_the_first_limit Examples.new_query
              (Examples.new_heap Examples.User) 0 3 2 4 eq_refl)
    as (q1 & q2 & H1 & H2 & Ho & Hl & _).
  exists q1, q2. split; [exact H1|]. split; [exact H2|].
  split; [exact Hl | exact Ho].
Defined.


Lemma params_merge_witness :
  exists q' h',
    params [] {["name" := VStr "ed"]} new_query (new_heap User) = (Ok q', h') /\
    read_params h' (_params q') = {["name" := VStr "ed"]} ∪ ∅ /\
    read_params h' (_params new_query) = ∅.
Proof.
  assert (Hal : (_params new_query < length (new_heap User))%nat)
    by (vm_compute; lia).
  destruct (proj2 (params_merge_into_a_copy new_query (new_heap User) []
                     {["name" := VStr "ed"]} Hal) _ eq_refl)
    as (q' & h' & Hp & Hnew & Hold & _).
  - simpl. lia.
  - exists q', h'. split; [exact Hp|]. split; [exact Hnew | exact Hold].
Defined.

Lemma filter_accumulates_witness :
  exists q1 q2,
    filter (ArgClause (id_eq 1)) new_query (new_heap User) = (Ok q1, new_heap User) /\
    filter (ArgClause (id_eq 2)) q1 (new_heap User) = (Ok q2, new_heap User) /\
    _criterion q2 = Some (clause_and (id_eq 1) (Some (id_eq 2))).
Proof.
  destruct (filter_accumulates_a_conjunction new_query (new_heap User)
              (id_eq 1) (id_eq 2))
    as (q1 & q2 & H1 & _ & H2 & Hc); try reflexivity.
  - repeat split.
  - exists q1, q2. split; [exact H1|]. split; [exact H2 | exact Hc].
Defined.

Lemma builder_call_leaves_original_witness :
  let h' := snd (call (Filter (ArgClause (id_eq 1))) new_query (new_heap User)) in
  snapshot h' new_query = snapshot (new_heap User) new_query /\
  compiled h' new_query = compiled (new_heap User) new_query.
Proof.
  cbv zeta.
  assert (Hal : allocated (new_heap User) new_query)
    by (vm_compute; repeat split; lia).
  destruct (builder_call_leaves_original (Filter (ArgClause (id_eq 1)))
              new_query (new_heap User) eq_refl Hal) as (H1 & H2 & _).
  split; [exact H1 | exact H2].
Defined.

End BuilderExamples.

(* ===================================================================== *)
(** * orm/query.py: a new query, and the order of ORDER BY and GROUP BY   *)
(* ===================================================================== *)

Section NewQuery.
Import Evaluator Query.
Context `{sql : SqlLayer}.

Implicit Types (q self : Query) (h : heap) (ents : list entity_info).

Lemma lookup_past h (rest : list cell) (n : nat) :
  (h ++ rest) !! (length h + n)%nat = rest !! n.
Proof. by rewrite lookup_app_r, Nat.add_sub' by lia. Qed.

Lemma insert_past h (rest : list cell) (n : nat) (c : cell) :
  <[(length h + n)%nat := c]> (h ++ rest) = h ++ <[n := c]> rest.
Proof. by rewrite insert_app_r. Qed.

(** Setting up one entity of a query whose entity list and adapter
    dictionary are the third and fourth of five collections on top of
    [h]: the entity list gets one more entry, the adapter dictionary may be
    edited, and nothing else is written. *)
Lemma new_mapper_entity_on_top self info h p a es d t :
  _entities self = (length h + 2)%nat ->
  _polymorphic_adapters self = (length h + 3)%nat ->
  exists ent d',
    new_mapper_entity self info
      (h ++ [CParams p; CAttributes a; CEntities es; CAdapters d; CTables t])
    = (Ok tt,
       h ++ [CParams p; CAttributes a; CEntities (es ++ [ent]); CAdapters d';
             CTables t]).
Proof.
  intros He Hd.
  unfold new_mapper_entity, setup_aliasizer, entities_append,
    __mapper_loads_polymorphically_with, write, modify, read_entities,
    read_adapters.
  unfold get, put, raise, mbind, M_bind, bind, mret, M_ret, ret.
  rewrite ?He, ?Hd, ?lookup_past.
  destruct (negb (ei_is_aliased_class info) && with_polymorphic_ (ei_mapper info));
    [|destruct (ei_is_aliased_class info)];
    cbn; rewrite ?He, ?Hd, ?insert_past, ?lookup_past; cbn;
    rewrite ?insert_past, ?lookup_past; cbn;
    eexists _, _; reflexivity.
Qed.

Lemma new_mapper_entities_on_top self ents : forall h p a es d t,
  _entities self = (length h + 2)%nat ->
  _polymorphic_adapters self = (length h + 3)%nat ->
  exists us es' d',
    mapM (new_mapper_entity self) ents
      (h ++ [CParams p; CAttributes a; CEntities es; CAdapters d; CTables t])
    = (Ok us,
       h ++ [CParams p; CAttributes a; CEntities (es ++ es'); CAdapters d';
             CTables t]) /\
    length es' = length ents.
Proof.
  induction ents as [|info ents IH]; intros h p a es d t He Hd.
  - exists [], [], d. rewrite app_nil_r. split; reflexivity.
  - destruct (new_mapper_entity_on_top self info h p a es d t He Hd)
      as (ent & d1 & Hstep).
    destruct (IH h p a (es ++ [ent]) d1 t He Hd) as (us & es' & d' & Hrest & Hlen).
    exists (tt :: us), (ent :: es'), d'. split; [|simpl; by rewrite Hlen].
    change (mapM (new_mapper_entity self) (info :: ents))
      with (y ← new_mapper_entity self info;
            ys ← mapM (new_mapper_entity self) ents; (ret (y :: ys) : M heap _)).
    rewrite bind_eq, Hstep. cbv iota beta. rewrite bind_eq, Hrest. cbv iota beta.
    rewrite ret_eq. by rewrite <- app_assoc.
Qed.

(** [Query(entities)] always returns, and the query it returns has
    collections of its own: the parameter and attribute dictionaries, the
    entity list, the adapter dictionary and the table set are five
    different objects, none of which existed before; the dictionaries of
    parameters and attributes and the table set are empty, the entity
    list has one entry per entity given, and the query has no criterion,
    statement, FROM, LIMIT, OFFSET, GROUP BY or ORDER BY.  What the
    queries that existed before denote is unchanged. *)
Theorem Query_init_makes_collections_of_its_own :
  forall ents h,
    exists q h',
      Query_init ents h = (Ok q, h') /\
      h `prefix_of` h' /\
      allocated h' q /\
      Forall (fun l => (length h <= l)%nat)
             [_params q; _attributes q; _entities q; _polymorphic_adapters q;
              __currenttables q] /\
      NoDup [_params q; _attributes q; _entities q; _polymorphic_adapters q;
             __currenttables q] /\
      read_params h' (_params q) = ∅ /\
      read_attributes h' (_attributes q) = ∅ /\
      read_tables h' (__currenttables q) = ∅ /\
      length (read_entities h' (_entities q)) = length ents /\
      bare q /\
      forall q0, allocated h q0 ->
        snapshot h' q0 = snapshot h q0 /\ compiled h' q0 = compiled h q0.
Proof.
  intros ents h.
  set (self :=
         mkQuery [] None None None false None None None (length h) None None []
           None false None false false true (length h + 1)%nat [] None
           (length h + 2)%nat (length h + 3)%nat None None (length h + 4)%nat
           None false).
  destruct (new_mapper_entities_on_top self ents h ∅ ∅ [] ∅ ∅ eq_refl eq_refl)
    as (us & es' & d' & Hrun & Hlen).
  assert (Hinit : Query_init ents h
            = (Ok self, h ++ [CParams ∅; CAttributes ∅; CEntities es';
                              CAdapters d'; CTables ∅])).
  { unfold Query_init, alloc.
    rewrite bind_eq. cbv iota beta. rewrite bind_eq. cbv iota beta.
    rewrite bind_eq. cbv iota beta. rewrite bind_eq. cbv iota beta.
    rewrite bind_eq. cbv iota beta.
    rewrite !length_app. simpl (length [_]).
    rewrite <- !app_assoc. simpl ([_] ++ _).
    replace (length h + 1 + 1)%nat with (length h + 2)%nat by lia.
    replace (length h + 2 + 1)%nat with (length h + 3)%nat by lia.
    replace (length h + 3 + 1)%nat with (length h + 4)%nat by lia.
    fold self.
    change (mapM (new_mapper_entity self) ents;; ret self)
      with (mapM (new_mapper_entity self) ents ≫= fun _ => (ret self : M heap Query)).
    rewrite bind_eq, Hrun. reflexivity. }
  eexists _, _. split; [exact Hinit|].
  assert (Hpre : h `prefix_of` h ++ [CParams ∅; CAttributes ∅; CEntities es';
                                     CAdapters d'; CTables ∅])
    by apply prefix_app_r, prefix_nil || (eexists; reflexivity).
  split; [exact Hpre|].
  split. { unfold allocated. rewrite length_app. simpl. repeat split; lia. }
  split. { repeat constructor; simpl; lia. }
  split.
  { simpl. repeat constructor; rewrite ?not_elem_of_cons, ?elem_of_nil;
      repeat split; try lia; tauto. }
  unfold read_params, read_attributes, read_tables, read_entities.
  simpl (_params self). simpl (_attributes self). simpl (__currenttables self).
  simpl (_entities self).
  replace (length h) with (length h + 0)%nat at 1 by lia.
  rewrite !lookup_past. simpl.
  split; [reflexivity|]. split; [reflexivity|]. split; [reflexivity|].
  split; [exact Hlen|]. split; [repeat split|].
  intros q0 Hq0. split.
  - by apply snapshot_prefix.
  - by apply compiled_prefix.
Qed.

End NewQuery.

Section Ordering.
Import Evaluator Query.
Context `{sql : SqlLayer}.

Implicit Types (q : Query) (h : heap) (a b : list clause).

Lemma literals_plain q h (cs : list clause) :
  no_adapters h q ->
  mapM (fun o =>
          c ← _adapt_clause q (Some (_literal_as_text o)) true true;
          ret (default o c)) cs h
    = (Ok (map _literal_as_text cs), h).
Proof.
  intros Hna. induction cs as [|c cs IH]; [reflexivity|].
  change (mapM ?f (c :: cs)) with (y ← f c; ys ← mapM f cs; (ret (y :: ys) : M heap _)).
  rewrite bind_eq, bind_eq, (adapt_clause_plain _ _ _ _ _ Hna). cbv iota beta.
  rewrite ret_eq. cbv iota beta. rewrite bind_eq, IH. reflexivity.
Qed.

Lemma criteria_guards_pass q h :
  _statement q = None -> _limit q = None -> _offset q = None ->
  run_assertions [__no_statement_condition; __no_limit_offset] q h = (Ok q, h).
Proof.
  intros Hs Hl Ho. unfold run_assertions. rewrite bind_eq.
  unfold __no_statement_condition at 1. rewrite Hs.
  simpl (not_None None). cbv iota. rewrite ret_eq. cbv iota beta.
  rewrite bind_eq. unfold __no_limit_offset. rewrite Hl, Ho.
  simpl (not_None None). simpl orb. cbv iota. reflexivity.
Qed.

(** [order_by] and [group_by] add to what earlier calls gave and never
    replace it: on a query whose clauses nothing rewrites, two calls in a
    row are one call with the two lists of criteria joined, and the
    criteria of the first call come first. *)
Theorem order_by_and_group_by_append :
  forall q h a b,
    no_adapters h q ->
    _statement q = None -> _limit q = None -> _offset q = None ->
    (exists q1 q2,
        order_by a q h = (Ok q1, h) /\
        order_by b q1 h = (Ok q2, h) /\
        _order_by q2
          = Some (default [] (_order_by q)
                    ++ map _literal_as_text a ++ map _literal_as_text b) /\
        order_by (a ++ b) q h = (Ok q2, h)) /\
    (exists q1 q2,
        group_by a q h = (Ok q1, h) /\
        group_by b q1 h = (Ok q2, h) /\
        _group_by q2
          = Some (default [] (_group_by q)
                    ++ concat (map _orm_columns a) ++ concat (map _orm_columns b)) /\
        group_by (a ++ b) q h = (Ok q2, h)).
Proof.
  intros q h a b Hna Hs Hl Ho.
  assert (Hob : forall q0 cs,
            no_adapters h q0 -> _statement q0 = None -> _limit q0 = None ->
            _offset q0 = None ->
            order_by cs q0 h =
              (Ok (set_order_by
                     (Some (default [] (_order_by q0) ++ map _literal_as_text cs))
                     q0), h)).
  { intros q0 cs Hna0 Hs0 Hl0 Ho0.
    unfold order_by, _generative, _clone.
    rewrite bind_eq, criteria_guards_pass by done. cbv iota beta.
    unfold order_by_body. rewrite bind_eq, (literals_plain _ _ _ Hna0).
    cbv iota beta. by destruct (_order_by q0). }
  assert (Hgb : forall q0 cs,
            _statement q0 = None -> _limit q0 = None -> _offset q0 = None ->
            group_by cs q0 h =
              (Ok (set_group_by
                     (Some (default [] (_group_by q0) ++ concat (map _orm_columns cs)))
                     q0), h)).
  { intros q0 cs Hs0 Hl0 Ho0.
    unfold group_by, _generative, _clone.
    rewrite bind_eq, criteria_guards_pass by done. cbv iota beta.
    unfold group_by_body. by destruct (_group_by q0). }
  split.
  - eexists _, _. split; [by apply Hob|]. split; [by apply Hob|].
    simpl. split; [by rewrite app_assoc|].
    rewrite Hob by done. by rewrite map_app, app_assoc.
  - eexists _, _. split; [by apply Hgb|]. split; [by apply Hgb|].
    simpl. split; [by rewrite app_assoc|].
    rewrite Hgb by done. by rewrite map_app, concat_app, app_assoc.
Qed.

End Ordering.

Section NewQueryExamples.
Import Evaluator Query Examples.

Lemma order_by_and_group_by_witness :
  exists q1 q2,
    order_by [Column None "name"] new_query (new_heap User) = (Ok q1, new_heap User) /\
    order_by [Column None "id"] q1 (new_heap User) = (Ok q2, new_heap User) /\
    order_by [Column None "name"; Column None "id"] new_query (new_heap User)
      = (Ok q2, new_heap User).
Proof.
  assert (Hna : no_adapters (new_heap User) new_query) by (repeat split).
  destruct (proj1 (order_by_and_group_by_append new_query (new_heap User)
                     [Column None "name"] [Column None "id"]
                     Hna eq_refl eq_refl eq_refl))
    as (q1 & q2 & H1 & H2 & _ & H3).
  exists q1, q2. split; [exact H1|]. split; [exact H2 | exact H3].
Defined.

End NewQueryExamples.

(* ===================================================================== *)
(** * orm/query.py: fetching by index, first row, batches                 *)
(* ===================================================================== *)

Section Fetching.
Import Evaluator Query QueryAccess.
Context `{sql : SqlLayer} `{database : Database}.

Implicit Types (q : Query) (st : state) (h : heap) (rows cursor : list row).

Lemma take_one_drop {A} (l : list A) (n : nat) :
  take 1 (drop n l) = match l !! n with Some x => [x] | None => [] end.
Proof.
  revert n. induction l as [|x l IH]; intros [|n]; simpl; try reflexivity.
  apply IH.
Qed.

Lemma py_slice_from_end {A} (l : list A) (i : Z) :
  i < 0 ->
  py_slice l i (i + 1) =
    if i =? -1 then []
    else match (if Z.of_nat (length l) + i <? 0 then None
                else l !! Z.to_nat (Z.of_nat (length l) + i)) with
         | Some x => [x]
         | None => []
         end.
Proof.
  intros Hi. unfold py_slice.
  assert (Hlt : (i <? 0) = true) by (apply Z.ltb_lt; lia). rewrite Hlt.
  destruct (i =? -1) eqn:Hm.
  - apply Z.eqb_eq in Hm. subst i.
    change (-1 + 1 <? 0) with false. cbv iota.
    match goal with |- take ?n _ = _ => replace n with 0%nat by lia end.
    apply take_0.
  - apply Z.eqb_neq in Hm.
    assert (Hlt1 : (i + 1 <? 0) = true) by (apply Z.ltb_lt; lia). rewrite Hlt1.
    destruct (Z.of_nat (length l) + i <? 0) eqn:Hneg.
    + apply Z.ltb_lt in Hneg.
      match goal with |- take ?n _ = _ => replace n with 0%nat by lia end.
      apply take_0.
    + apply Z.ltb_ge in Hneg.
      match goal with |- take ?n _ = _ => replace n with 1%nat by lia end.
      replace (Z.max 0 (i + Z.of_nat (length l)))
        with (Z.of_nat (length l) + i) by lia.
      apply take_one_drop.
Qed.

(** Indexing a query from the end runs the whole query and picks the
    element from the list of results, except that [-1] never works:
    [q[-1]] takes the Python slice [-1:0] of the results, which is empty,
    and raises [IndexError] whatever the results are.  For [i < -1],
    [q[i]] is the element at [len + i], or [IndexError] when there are
    fewer than [-i] results. *)
Theorem indexing_from_the_end_fails_for_minus_one :
  forall q st rows st' (i : Z),
    list_query q st = (Ok rows, st') ->
    i < 0 ->
    getitem_index i q st =
      (match (if (i =? -1) || (Z.of_nat (length rows) + i <? 0) then None
              else rows !! Z.to_nat (Z.of_nat (length rows) + i)) with
       | Some r => Ok r
       | None => Raise IndexError
       end, st').
Proof.
  intros q st rows st' i Hlist Hi.
  unfold getitem_index, getitem_slice.
  assert (Hlt : ((i <? 0) || (i + 1 <? 0)) = true)
    by (apply orb_true_iff; left; apply Z.ltb_lt; lia).
  rewrite Hlt, !bind_eq, Hlist, ret_eq.
  rewrite (py_slice_from_end rows i Hi).
  destruct (i =? -1); simpl; [reflexivity|].
  destruct (Z.of_nat (length rows) + i <? 0); [reflexivity|].
  by destruct (rows !! Z.to_nat (Z.of_nat (length rows) + i)).
Qed.

(** *** Batches *)

Lemma fetch_batches_singletons (cursor : list row) :
  forall turns, (length cursor < turns)%nat ->
    concat (map unique_instances (fetch_batches turns 1 cursor)) = cursor.
Proof.
  induction cursor as [|r cursor IH]; intros [|turns] Hlen; simpl in *;
    try lia; try reflexivity.
  rewrite ?take_0, ?drop_0. simpl. f_equal. apply IH. lia.
Qed.

Lemma fetch_batches_one_batch (cursor : list row) (n : nat) :
  (0 < n)%nat -> (length cursor <= n)%nat ->
  concat (map unique_instances (fetch_batches (S (length cursor)) n cursor))
    = unique_instances cursor.
Proof.
  intros Hn Hlen. destruct cursor as [|r cursor]; [by destruct n|].
  cbn [fetch_batches length].
  rewrite (take_ge (r :: cursor) n) by done.
  rewrite (drop_ge (r :: cursor) n) by done.
  cbn [fetch_batches]. rewrite take_nil. cbn [map concat].
  apply app_nil_r.
Qed.

Lemma unique_instances_distinct (rows : list row) :
  NoDup (map r_pk (unique_instances rows)).
Proof.
  induction rows as [|r rows IH]; simpl; [constructor|].
  apply NoDup_cons. split.
  - intros Hin. apply list_elem_of_In, List.in_map_iff in Hin as (r' & Hpk & Hin).
    apply List.filter_In in Hin as [_ Hne].
    rewrite Hpk in Hne. by rewrite bool_decide_eq_true_2 in Hne.
  - eapply NoDup_pk_sublist; [apply sublist_List_filter | exact IH].
Qed.

(** Without [yield_per], a result lists each instance once, at its first
    occurrence.  With [yield_per(n)] that holds inside each batch of [n]
    rows only: when all the rows fit in one batch the result is the same,
    but with [yield_per(1)] every row of the cursor is yielded, repeated
    instances included. *)
Theorem yield_per_uniques_within_a_batch_only :
  forall q cursor,
    (_yield_per q = None ->
     iterate_instances q cursor = unique_instances cursor /\
     NoDup (map r_pk (iterate_instances q cursor))) /\
    (forall n, 0 < n -> Z.of_nat (length cursor) <= n ->
       iterate_instances (set_yield_per (Some n) q) cursor
         = unique_instances cursor) /\
    iterate_instances (set_yield_per (Some 1) q) cursor = cursor.
Proof.
  intros q cursor. split; [|split].
  - intros Hy. unfold iterate_instances. rewrite Hy.
    split; [reflexivity | apply unique_instances_distinct].
  - intros n Hn Hlen. unfold iterate_instances.
    change (_yield_per (set_yield_per (Some n) q)) with (Some n). cbv iota beta.
    assert (Hz : (n =? 0) = false) by (apply Z.eqb_neq; lia). rewrite Hz.
    apply fetch_batches_one_batch; lia.
  - unfold iterate_instances.
    change (_yield_per (set_yield_per (Some 1) q)) with (Some 1). cbv iota beta.
    change (1 =? 0) with false. cbv iota. change (Z.to_nat 1) with 1%nat.
    apply fetch_batches_singletons. lia.
Qed.

(** *** [first] *)

Local Arguments _compile_context : simpl never.

Ltac run :=
  unfold first, getitem_slice, list_query, on_heap, slice, _generative, _clone,
    run_assertions, slice_body, __no_statement_condition, log_statement, set_db,
    modify, get, put, raise, mbind, M_bind, bind, mret, M_ret, ret; simpl.

Lemma first_no_statement q st :
  _statement q = None ->
  known_lockmode q = true ->
  first q st =
    (Ok (head (iterate_instances (first_one q)
                (select_rows (database_seen (db (st_session st)) q) (first_one q)))),
     mkState (st_heap st)
       (mkSession (database_seen (db (st_session st)) q)
          (identity_map (st_session st))
          (executed (st_session st)
             ++ [SelectRows (snapshot (st_heap st) (first_one q))]))).
Proof.
  intros Hs Hk. run. repeat (rewrite Hs; simpl).
  rewrite compile_context_passes by (right; exact Hk).
  unfold database_seen. fold (first_one q).
  destruct (_autoflush q && negb (_populate_existing q)); simpl;
    repeat (rewrite Hs; simpl);
    destruct (iterate_instances _ _) as [|r rows]; reflexivity.
Qed.

Lemma first_unknown_lockmode q st :
  _statement q = None ->
  known_lockmode q = false ->
  first q st = (Raise ArgumentError, st).
Proof.
  intros Hs Hk. run. repeat (rewrite Hs; simpl).
  rewrite compile_context_refuses; [by destruct st | exact Hs | exact Hk].
Qed.

Lemma first_statement q st s :
  _statement q = Some s ->
  first q st =
    (match iterate_instances q
             (statement_rows (database_seen (db (st_session st)) q) s) with
     | r :: _ => Ok (Some r)
     | [] => Raise IndexError
     end,
     mkState (st_heap st)
       (mkSession (database_seen (db (st_session st)) q)
          (identity_map (st_session st))
          (executed (st_session st) ++ [SelectStatement s]))).
Proof.
  intros Hs. run. repeat (rewrite Hs; simpl).
  rewrite compile_context_passes by (left; by rewrite Hs).
  unfold database_seen.
  destruct (_autoflush q && negb (_populate_existing q)); simpl;
    repeat (rewrite Hs; simpl);
    destruct (iterate_instances _ _) as [|r rows]; reflexivity.
Qed.

Lemma iterate_instances_nil q : iterate_instances q [] = [].
Proof.
  unfold iterate_instances. destruct (_yield_per q) as [n|]; [|reflexivity].
  destruct (n =? 0); [reflexivity|]. simpl. by rewrite take_nil.
Qed.

(** [first] on a query without raw statement, whose lock mode is unset
    or one that [_compile_context] knows, executes one SELECT, the query
    with its OFFSET kept and LIMIT 1 in place of its own LIMIT, and
    returns the first instance, or [None] when no row comes back; with an
    unknown lock mode it raises [ArgumentError] and executes nothing.  On
    a query with a raw statement it executes that statement, whatever the
    lock mode, and when no row comes back it does not return [None]: it
    raises [IndexError]. *)
Theorem first_returns_None_or_raises_IndexError :
  forall q st,
    let d := database_seen (db (st_session st)) q in
    (_statement q = None ->
     known_lockmode q = true ->
     executed (st_session (snd (first q st)))
       = executed (st_session st) ++ [SelectRows (snapshot (st_heap st) (first_one q))] /\
     _limit (first_one q) = Some 1 /\
     _offset (first_one q) = Some (default 0 (_offset q)) /\
     fst (first q st)
       = Ok (head (iterate_instances (first_one q) (select_rows d (first_one q)))) /\
     (select_rows d (first_one q) = [] -> fst (first q st) = Ok None)) /\
    (_statement q = None ->
     known_lockmode q = false ->
     first q st = (Raise ArgumentError, st)) /\
    (forall s,
        _statement q = Some s ->
        executed (st_session (snd (first q st)))
          = executed (st_session st) ++ [SelectStatement s] /\
        (statement_rows d s = [] -> fst (first q st) = Raise IndexError) /\
        (forall r rest, iterate_instances q (statement_rows d s) = r :: rest ->
                        fst (first q st) = Ok (Some r))).
Proof.
  intros q st d. subst d. split; [|split].
  - intros Hs Hk. rewrite (first_no_statement q st Hs Hk). simpl.
    split; [reflexivity|]. split; [reflexivity|].
    split; [by rewrite Z.add_0_r|]. split; [reflexivity|].
    intros ->. by rewrite iterate_instances_nil.
  - apply first_unknown_lockmode.
  - intros s Hs. rewrite (first_statement q st s Hs). simpl.
    split; [reflexivity|]. split.
    + intros ->. by rewrite iterate_instances_nil.
    + by intros r rest ->.
Qed.

End Fetching.

Section FetchingExamples.
Import Evaluator Query QueryAccess Examples.

Lemma indexing_from_the_end_witness :
  fst (getitem_index (-1) new_query users_state) = Raise IndexError /\
  fst (getitem_index (-2) new_query users_state) = Ok (user_row 1 "ed").
Proof.
  assert (Hl : list_query new_query users_state
               = (Ok two_users,
                  snd (list_query new_query users_state)))
    by (vm_compute; reflexivity).
  split.
  - rewrite (indexing_from_the_end_fails_for_minus_one _ _ _ _ (-1) Hl);
      [reflexivity | lia].
  - rewrite (indexing_from_the_end_fails_for_minus_one _ _ _ _ (-2) Hl);
      [reflexivity | lia].
Defined.

End FetchingExamples.

(* ===================================================================== *)
(** * orm/query.py: [delete], and what [update] and [delete] let through  *)
(* ===================================================================== *)

Section Synchronization.
Import Evaluator Query Sync.
Context `{sql : SqlLayer} `{database : Database} `{ops : Operators}.

Implicit Types (q : Query) (st : state) (im : list (identity_key * tracked)).

Ltac run :=
  unfold update, delete, _mapper_zero_class, log_statement, set_db,
    set_identity_map, modify, get, put, raise, mbind, M_bind, bind, mret, M_ret,
    ret; simpl.

(** *** Compile-time errors *)




(** Anything but exactly one table in the FROM list of the compiled
    statement makes [update] and [delete] raise [ArgumentError] at once,
    whatever the synchronization mode. *)
Theorem update_and_delete_need_a_single_table :
  forall q st values mode,
    (forall t, statement_froms (snapshot (st_heap st) q) <> [FromTable t]) ->
    update values mode q st = (Raise ArgumentError, st) /\
    delete mode q st = (Raise ArgumentError, st).
Proof.
  intros q st values mode Hf. run.
  destruct (statement_froms (snapshot (st_heap st) q)) as [|[t|s] [|f fs]];
    try (split; reflexivity).
  by destruct (Hf t).
Qed.


(** *** [delete] *)







End Synchronization.

Section SynchronizationExamples.
Import Evaluator Query Sync Examples.


Lemma update_and_delete_need_a_single_table_witness :
  delete "evaluate" new_query columns_state = (Raise ArgumentError, columns_state).
Proof.
  refine (proj2 (update_and_delete_need_a_single_table new_query columns_state
                   [] "evaluate" _)).
  intros t. discriminate.
Defined.



End SynchronizationExamples.

(* ===================================================================== *)
(** * orm/strategies.py: deferred columns outside the good case           *)
(* ===================================================================== *)

Section DeferredEdges.
Import Attributes Strategies.

Implicit Types (m : Mapper) (p a b : ColumnProperty) (inst : instance lazyload)
  (e : env) (r : gmap string value) (w : world lazyload env).

(** A read through a lazy slot whose callable raises: the exception
    leaves [get_attribute], and the slot stays. *)
Lemma get_attribute_callable_raises w k c attrs ex o' e' :
  _managed_attributes (obj w) = Some attrs ->
  attrs !! k = Some (HCallable (mkCallableProp k c)) ->
  dict_get (__dict__ (obj w)) k = VNone ->
  run_callable c (obj w) (ext w) = (Raise ex, o', e') ->
  is_KeyError ex = false ->
  get_attribute k w = (Raise ex, mkWorld o' e' (invoked w ++ [c])).
Proof.
  intros Hm Ha Hd Hrun Hk.
  unfold get_attribute, get_history, hist_getattr, gethistory,
    CallableProp_getattr, history_getitem, history_setitem, attribute_history,
    dict_setitem, invoke, try_KeyError, modify, get, put, raise,
    mbind, M_bind, bind, mret, M_ret, ret; simpl.
  rewrite Hm. simpl. rewrite Ha. simpl. rewrite Hd. simpl. rewrite Hrun. simpl.
  rewrite Hk. simpl. rewrite ?Hk. reflexivity.
Qed.

Lemma run_lazyload_single m p inst e pkv :
  group p = None ->
  pk_clause inst (pk m) = Some pkv ->
  has_session e = true ->
  run_callable (mkLazyload (key p) (column p) (group p) m) inst e =
    (Ok (match table_row e pkv with
         | Some r => row_get r (column p)
         | None => VNone
         end),
     inst,
     mkEnv (has_mapper e) (has_session e) (table_row e)
           (fetches e ++ [mkFetch [column p] pkv])).
Proof.
  intros Hg Hpk Hs. unfold run_callable, lazyload_sem, run_lazyload. simpl.
  rewrite Hpk, Hs, Hg. simpl. by destruct (table_row e pkv).
Qed.

Lemma pk_clause_setitem inst k v (pks : list string) :
  k ∉ pks ->
  pk_clause (mkInstance (<[k := v]> (__dict__ inst)) (_managed_attributes inst)) pks
    = pk_clause inst pks.
Proof.
  induction pks as [|x xs IH]; intros Hk; simpl; [done|].
  apply not_elem_of_cons in Hk as [Hne Hk].
  unfold _getattrbycolumn, dict_get. simpl.
  rewrite lookup_insert_ne by done. by rewrite IH.
Qed.

Lemma pk_clause_dict (d : gmap string value) ma ma' (pks : list string) :
  pk_clause (mkInstance (C := lazyload) d ma) pks
    = pk_clause (mkInstance (C := lazyload) d ma') pks.
Proof.
  induction pks as [|x xs IH]; simpl; [done|].
  unfold _getattrbycolumn. simpl. by rewrite IH.
Qed.

(** Deferred columns without a group are loaded one by one: reading one
    executes a SELECT of that column alone and leaves the other behind
    its slot, so that reading the other executes a second SELECT. *)
Theorem ungrouped_deferred_columns_cost_one_fetch_each :
  forall m first second w pkv r,
    group first = None ->
    group second = None ->
    key first <> key second ->
    key first ∉ pk m ->
    installed m first w ->
    installed m second w ->
    dict_get (__dict__ (obj w)) (key first) = VNone ->
    dict_get (__dict__ (obj w)) (key second) = VNone ->
    pk_clause (obj w) (pk m) = Some pkv ->
    has_session (ext w) = true ->
    table_row (ext w) pkv = Some r ->
    exists w1 w2,
      get_attribute (key first) w = (Ok (Value (row_get r (column first))), w1) /\
      fetches (ext w1) = fetches (ext w) ++ [mkFetch [column first] pkv] /\
      get_attribute (key second) w1 = (Ok (Value (row_get r (column second))), w2) /\
      fetches (ext w2)
        = fetches (ext w) ++ [mkFetch [column first] pkv; mkFetch [column second] pkv].
Proof.
  intros m a b w pkv r Hga Hgb Hne Hnpk (attrs & Hattrs & Hsa) (attrs' & Hattrs' & Hsb)
    Hda Hdb Hpk Hs Hr.
  rewrite Hattrs in Hattrs'. injection Hattrs' as <-.
  pose proof (run_lazyload_single m a (obj w) (ext w) pkv Hga Hpk Hs) as Hrun.
  rewrite Hr in Hrun.
  rewrite (get_attribute_resolves w (key a) _ attrs _ _ _ Hattrs Hsa Hda Hrun).
  rewrite Hattrs. simpl.
  set (o1 := mkInstance (<[key a := row_get r (column a)]> (__dict__ (obj w)))
               (Some (<[key a := HProp (PropHistory_init (key a))]> attrs))).
  set (e1 := mkEnv (has_mapper (ext w)) (has_session (ext w)) (table_row (ext w))
               (fetches (ext w) ++ [mkFetch [column a] pkv])).
  assert (Hpk1 : pk_clause o1 (pk m) = Some pkv).
  { unfold o1.
    rewrite (pk_clause_dict _ _ (_managed_attributes (obj w))).
    rewrite (pk_clause_setitem (obj w) (key a) _ (pk m) Hnpk).
    by destruct (obj w). }
  pose proof (run_lazyload_single m b o1 e1 pkv Hgb Hpk1 Hs) as Hrun2.
  change (table_row e1 pkv) with (table_row (ext w) pkv) in Hrun2.
  rewrite Hr in Hrun2.
  assert (Hsb1 : (<[key a := HProp (PropHistory_init (key a))]> attrs) !! key b
                 = Some (HCallable (mkCallableProp (key b)
                           (mkLazyload (key b) (column b) (group b) m))))
    by (by rewrite lookup_insert_ne).
  assert (Hdb1 : dict_get (__dict__ o1) (key b) = VNone).
  { unfold o1, dict_get in *. simpl. by rewrite lookup_insert_ne. }
  pose proof (get_attribute_resolves
                (mkWorld o1 e1 (invoked w ++ [mkLazyload (key a) (column a) (group a) m]))
                (key b) _ _ _ _ _ eq_refl Hsb1 Hdb1 Hrun2) as Hget2.
  eexists _, _. split; [reflexivity|]. split; [reflexivity|].
  split; [exact Hget2|]. simpl. by rewrite <- app_assoc.
Qed.

(** A deferred load on an instance that is attached to no session raises
    [InvalidRequestError] without executing anything, and leaves the
    instance with its slot: the read can be repeated.  A grouped load
    whose SELECT finds no row raises [TypeError] after the SELECT has been
    executed, where the load of a column without group returns [None]. *)
Theorem deferred_loads_that_fail :
  forall m p w pkv,
    installed m p w ->
    dict_get (__dict__ (obj w)) (key p) = VNone ->
    pk_clause (obj w) (pk m) = Some pkv ->
    (has_session (ext w) = false ->
     get_attribute (key p) w =
       (Raise InvalidRequestError,
        mkWorld (obj w) (ext w)
                (invoked w ++ [mkLazyload (key p) (column p) (group p) m]))) /\
    (has_session (ext w) = true ->
     table_row (ext w) pkv = None ->
     (forall g, group p = Some g -> p ∈ groupcols m g ->
        fst (get_attribute (key p) w) = Raise TypeError /\
        fetches (ext (snd (get_attribute (key p) w)))
          = fetches (ext w) ++ [mkFetch (map column (groupcols m g)) pkv]) /\
     (group p = None ->
        fst (get_attribute (key p) w) = Ok (Value VNone) /\
        fetches (ext (snd (get_attribute (key p) w)))
          = fetches (ext w) ++ [mkFetch [column p] pkv])).
Proof.
  intros m p w pkv (attrs & Hattrs & Hsp) Hd Hpk. split.
  - intros Hs.
    apply (get_attribute_callable_raises w (key p) _ attrs); try done.
    unfold run_callable, lazyload_sem, run_lazyload. simpl.
    by rewrite Hpk, Hs.
  - intros Hs Hr. split.
    + intros g Hg Hin.
      assert (Hrun : exists o',
                run_callable (mkLazyload (key p) (column p) (group p) m) (obj w) (ext w)
                = (Raise TypeError, o',
                   mkEnv (has_mapper (ext w)) (has_session (ext w)) (table_row (ext w))
                         (fetches (ext w) ++ [mkFetch (map column (groupcols m g)) pkv]))).
      { unfold run_callable, lazyload_sem, run_lazyload. simpl.
        rewrite Hpk, Hs, Hg. simpl. rewrite Hr.
        destruct (groupcols m g) as [|c cs]; [by apply elem_of_nil in Hin|].
        simpl. eauto. }
      destruct Hrun as (o' & Hrun).
      rewrite (get_attribute_callable_raises w (key p) _ attrs _ _ _
                 Hattrs Hsp Hd Hrun eq_refl).
      split; reflexivity.
    + intros Hg.
      pose proof (run_lazyload_single m p (obj w) (ext w) pkv Hg Hpk Hs) as Hrun.
      rewrite Hr in Hrun.
      rewrite (get_attribute_resolves w (key p) _ attrs _ _ _ Hattrs Hsp Hd Hrun).
      split; reflexivity.
Qed.

End DeferredEdges.

Section DeferredEdgeExamples.
Import Attributes Strategies Examples.

Lemma ungrouped_deferred_columns_witness :
  let w := instance_of memo_mapper [plain_body; plain_summary] 7 7 true in
  fetch_count w = 0%nat /\
  exists w1 w2,
    get_attribute "body" w = (Ok (Value (VStr "text of the body")), w1) /\
    get_attribute "summary" w1 = (Ok (Value (VStr "short")), w2) /\
    fetch_count w2 = 2%nat.
Proof.
  cbv zeta. split; [reflexivity|].
  assert (Hne : key plain_body <> key plain_summary) by discriminate.
  assert (Hpk : key plain_body ∉ pk memo_mapper).
  { intros Hin. apply list_elem_of_singleton in Hin. discriminate. }
  assert (H1 : installed memo_mapper plain_body
                 (instance_of memo_mapper [plain_body; plain_summary] 7 7 true))
    by (eexists; split; reflexivity).
  assert (H2 : installed memo_mapper plain_summary
                 (instance_of memo_mapper [plain_body; plain_summary] 7 7 true))
    by (eexists; split; reflexivity).
  destruct (ungrouped_deferred_columns_cost_one_fetch_each memo_mapper
              plain_body plain_summary
              (instance_of memo_mapper [plain_body; plain_summary] 7 7 true)
              [VInt 7] (document_row 7) eq_refl eq_refl Hne Hpk H1 H2
              eq_refl eq_refl eq_refl eq_refl eq_refl)
    as (w1 & w2 & Hg1 & _ & Hg2 & Hf).
  exists w1, w2. split; [exact Hg1|]. split; [exact Hg2|].
  unfold fetch_count. rewrite Hf. reflexivity.
Defined.

Lemma deferred_loads_that_fail_witness :
  fst (get_attribute "body"
         (instance_of document_mapper [body_prop; summary_prop] 7 7 false))
    = Raise InvalidRequestError /\
  fst (get_attribute "body"
         (instance_of document_mapper [body_prop; summary_prop] 7 8 true))
    = Raise TypeError /\
  fst (get_attribute "body"
         (instance_of memo_mapper [plain_body; plain_summary] 7 8 true))
    = Ok (Value VNone).
Proof.
  split; [|split].
  - pose proof (deferred_loads_that_fail document_mapper body_prop
                  (instance_of document_mapper [body_prop; summary_prop] 7 7 false)
                  [VInt 7] ltac:(eexists; split; reflexivity)
                  eq_refl eq_refl) as (Hdetached & _).
    change (key body_prop) with "body"%string in Hdetached.
    rewrite (Hdetached eq_refl). reflexivity.
  - pose proof (deferred_loads_that_fail document_mapper body_prop
                  (instance_of document_mapper [body_prop; summary_prop] 7 8 true)
                  [VInt 7] ltac:(eexists; split; reflexivity)
                  eq_refl eq_refl) as (_ & Hmissing).
    destruct (Hmissing eq_refl eq_refl) as (Hgroup & _).
    change (key body_prop) with "body"%string in Hgroup.
    refine (proj1 (Hgroup "text"%string eq_refl _)).
    apply groupcols_spec. repeat split. right. left.
  - pose proof (deferred_loads_that_fail memo_mapper plain_body
                  (instance_of memo_mapper [plain_body; plain_summary] 7 8 true)
                  [VInt 7] ltac:(eexists; split; reflexivity)
                  eq_refl eq_refl) as (_ & Hmissing).
    destruct (Hmissing eq_refl eq_refl) as (_ & Hplain).
    change (key plain_body) with "body"%string in Hplain.
    exact (proj1 (Hplain eq_refl)).
Defined.

End DeferredEdgeExamples.

